(** * go-trader: the algorithm pipeline and the trading coordinator

    A shallow embedding of the Go packages [algo] (the quantitative
    algorithms, their registry and the ensemble combiner) and [algorithm]
    (the trading coordinator: risk parameters and the order gate), with the
    properties of the specification stated over it.

    Conventions of the embedding.
    - [float64] is embedded as [Q]: exact rational arithmetic stands for the
      IEEE arithmetic of the source.  Rounding, infinities and NaN have no
      counterpart; the theorems below keep to inputs on which the source
      divides by non-zero values only.
    - [int] is embedded as [Z]; lengths and loop counters are [nat].
    - A Go map is a [gmap]; the order in which [range] visits a map, the
      package [math/rand], the clock and the functions [math.Sqrt],
      [math.Log] and [math.Exp] belong to the Go runtime, which is abstract
      (class [Runtime]).
    - A call returns a [result]: a value, an [error] (carrying the text of
      the [errors.New] or the format string of the [fmt.Errorf] that built
      it), or a run-time panic.
    - Explanation texts, log lines and the [lastRun] timestamps carry no
      logic and are left out. *)

From Stdlib Require Import QArith Qabs Qround Qminmax ZArith Lia Lqa.
From stdpp Require Import gmap strings list fin_maps sorting.

(** ** Go numerics *)

Definition Qltb (x y : Q) : bool := negb (Qle_bool y x).
Definition Qleb (x y : Q) : bool := Qle_bool x y.
Definition Qeqb (x y : Q) : bool := Qeq_bool x y.

(** [int(x)] on a [float64]: truncation toward zero. *)
Definition int_of_float (x : Q) : Z := Z.quot (Qnum x) (Zpos (Qden x)).
(** [float64(i)]. *)
Definition float_of_int (i : Z) : Q := inject_Z i.
Definition float_of_nat (n : nat) : Q := inject_Z (Z.of_nat n).

Definition math_Floor (x : Q) : Q := inject_Z (Qfloor x).
Definition math_Ceil (x : Q) : Q := inject_Z (Qceiling x).
Definition math_Abs (x : Q) : Q := Qabs x.
Definition math_Min (x y : Q) : Q := Qmin x y.
Definition math_Max (x y : Q) : Q := Qmax x y.
(** [math.Pow(x, 2)]. *)
Definition math_Pow2 (x : Q) : Q := (x * x)%Q.

(** Sum of a slice, accumulated from the left as the [for] loops do. *)
Definition Qsum (l : list Q) : Q := fold_left Qplus l 0%Q.

(** ** Results of calls *)

Inductive result (A : Type) : Type :=
| Ok (a : A)
| Err (msg : string)
| Panic (msg : string).
Arguments Ok {A} a.
Arguments Err {A} msg.
Arguments Panic {A} msg.

Definition is_Ok {A} (r : result A) : bool :=
  match r with Ok _ => true | _ => false end.
Definition is_Err {A} (r : result A) : bool :=
  match r with Err _ => true | _ => false end.

(** ** The Go runtime *)

(** [W] is the state of everything the runtime decides: the generator of
    [math/rand], the iteration order of maps, the clock. *)
Class Runtime (W : Type) := {
  (** [rand.Intn(n)] *)
  rand_Intn : Z -> W -> Z * W;
  (** [rand.Float64()] *)
  rand_Float64 : W -> Q * W;
  (** the order in which a [range] loop visits a map of [n] entries: a
      list of positions into the entries *)
  range_perm : nat -> W -> list nat * W;
  (** [time.Now()], in nanoseconds *)
  time_Now : W -> Z * W;
  math_Sqrt : Q -> Q;
  math_Log : Q -> Q;
  math_Exp : Q -> Q
}.

(** What the language guarantees of a [range] over a map: every entry is
    visited once. *)
Class RangeVisitsAll (W : Type) `{Runtime W} : Prop :=
  range_perm_Permutation : forall n w, (range_perm n w).1 ≡ₚ seq 0 n.

(** The entries of a map in the order a [range] loop visits them. *)
Definition range_map `{Runtime W} `{Countable K} {V : Type}
    (m : gmap K V) (w : W) : list (K * V) * W :=
  let entries := map_to_list m in
  let '(p, w') := range_perm (length entries) w in
  (omap (fun i => entries !! i) p, w').

(** ** Package [types] *)

Definition SignalBuy : string := "buy".
Definition SignalSell : string := "sell".
Definition SignalHold : string := "hold".

Record MarketData := {
  Symbol : string;
  Price : Q;
  High24h : Q;
  Low24h : Q;
  Volume24h : Q;
  Change24h : Q
}.

(** ** Package [algo]: the algorithm contract *)

Definition AlgorithmType := string.
Definition AlgorithmTypeHRP : AlgorithmType := "hrp".
Definition AlgorithmTypeMVO : AlgorithmType := "mvo".
Definition AlgorithmTypeEntropyPooling : AlgorithmType := "entropy_pooling".
Definition AlgorithmTypeCUSUMFilter : AlgorithmType := "cusum_filter".
Definition AlgorithmTypeSequentialBootstrap : AlgorithmType := "sequential_bootstrap".
Definition AlgorithmTypeFractionalDiff : AlgorithmType := "fractional_diff".
Definition AlgorithmTypeTripleBarrier : AlgorithmType := "triple_barrier".
Definition AlgorithmTypeMetaLabeling : AlgorithmType := "meta_labeling".
Definition AlgorithmTypePurgedCV : AlgorithmType := "purged_cv".
Definition AlgorithmTypePositionSizing : AlgorithmType := "position_sizing".

Record AlgorithmConfig := {
  RiskAversion : Q;
  MaxPositionWeight : Q;
  MinPositionWeight : Q;
  TargetReturn : Q;
  HistoricalDays : Z;
  AdditionalParams : gmap string Q
}.

(** [AlgorithmConfig{}]: the zero value; a lookup in its nil map finds
    nothing. *)
Definition AlgorithmConfig_zero : AlgorithmConfig :=
  {| RiskAversion := 0; MaxPositionWeight := 0; MinPositionWeight := 0;
     TargetReturn := 0; HistoricalDays := 0; AdditionalParams := ∅ |}.

Record AlgorithmResult := {
  Signal : string;
  OrderType : string;
  LimitPrice : option Q;
  Confidence : Q
}.

(** The interface [Algorithm]: an implementation is a type of instance
    states with its methods; a method that mutates its receiver returns the
    new state. *)
Class Algorithm (W : Type) (A : Type) := {
  Name : A -> string;
  Type_ : A -> AlgorithmType;
  Configure : A -> AlgorithmConfig -> option string * A;
  Process : A -> string -> option MarketData -> list MarketData -> W ->
            result AlgorithmResult * A * W
}.

(** [BaseAlgorithm]: the configuration last given. *)
Record BaseAlgorithm := { config : AlgorithmConfig }.

Definition BaseAlgorithm_zero : BaseAlgorithm := {| config := AlgorithmConfig_zero |}.

Definition BaseAlgorithm_Configure (b : BaseAlgorithm) (cfg : AlgorithmConfig)
  : option string * BaseAlgorithm :=
  (None, {| config := cfg |}).

(** A factory with the implementation of what it creates. *)
Record FactoryFunc (W : Type) := {
  factory_state : Type;
  factory_impl : Algorithm W factory_state;
  factory_new : factory_state
}.
Arguments factory_state {W} f.
Arguments factory_impl {W} f.
Arguments factory_new {W} f.

(** [Create]: a lookup in [algorithmRegistry]. *)
Definition Create {W} (algorithmRegistry : AlgorithmType -> option (FactoryFunc W))
    (algType : AlgorithmType) : result (FactoryFunc W) :=
  match algorithmRegistry algType with
  | Some factory => Ok factory
  | None => Err "unknown algorithm type: %s"
  end.

(** ** Statistics shared by the single-asset optimisers (hrp.go) *)

Definition mean (values : list Q) : Q :=
  match values with
  | [] => 0
  | _ => (Qsum values / float_of_nat (length values))%Q
  end.

Definition standardDeviation `{Runtime W} (values : list Q) : Q :=
  if (length values <? 2)%nat then 0%Q
  else
    let m := mean values in
    let variance := fold_left (fun acc v => (acc + math_Pow2 (v - m))%Q) values 0%Q in
    let variance := (variance / float_of_nat (length values - 1))%Q in
    math_Sqrt variance.

(** [returns[i-1] = (prices[i] - prices[i-1]) / prices[i-1]]. *)
Fixpoint simpleReturns (prices : list Q) : list Q :=
  match prices with
  | p0 :: ((p1 :: _) as rest) => ((p1 - p0) / p0)%Q :: simpleReturns rest
  | _ => []
  end.

(** ** Mean-Variance Optimization (mvo.go) *)

Record MVOAlgorithm := {
  mvo_base : BaseAlgorithm;
  mvo_assets : list string
}.

Definition MVOAlgorithm_zero : MVOAlgorithm :=
  {| mvo_base := BaseAlgorithm_zero; mvo_assets := [] |}.

Definition MVOAlgorithm_Configure (m : MVOAlgorithm) (cfg : AlgorithmConfig)
  : option string * MVOAlgorithm :=
  let '(err, b) := BaseAlgorithm_Configure (mvo_base m) cfg in
  (err, {| mvo_base := b; mvo_assets := mvo_assets m |}).

Definition MVOAlgorithm_Process `{Runtime W} (m : MVOAlgorithm) (symbol : string)
    (data : option MarketData) (historicalData : list MarketData) (w : W)
  : result AlgorithmResult * MVOAlgorithm * W :=
  match data with
  | None => (Err "market data is nil", m, w)
  | Some data =>
    let m := {| mvo_base := mvo_base m; mvo_assets := [symbol] |} in
    let prices := map Price historicalData in
    match prices with
    | [] => (Panic "makeslice: len out of range", m, w)
    | _ =>
      let returns := simpleReturns prices in
      let res :=
        if (0 <? length returns)%nat then
          let expectedReturn := mean returns in
          let risk := standardDeviation returns in
          let sharpeRatio := if Qltb 0 risk then (expectedReturn / risk)%Q else 0%Q in
          let params := AdditionalParams (config (mvo_base m)) in
          let riskAversion := default 2%Q (params !! "risk_aversion") in
          let minSharpe := default (1 # 2)%Q (params !! "min_sharpe") in
          let utility := (expectedReturn - riskAversion * risk * risk / 2)%Q in
          if Qltb minSharpe sharpeRatio && Qltb 0 utility then
            {| Signal := SignalBuy; OrderType := "limit";
               LimitPrice := Some (Price data * (99 # 100))%Q;
               Confidence := ((65 # 100) + math_Min (25 # 100) (sharpeRatio / 4))%Q |}
          else if Qltb 0 sharpeRatio && Qltb (- (1 # 1000)) utility then
            {| Signal := SignalHold; OrderType := "market"; LimitPrice := None;
               Confidence := (6 # 10)%Q |}
          else
            {| Signal := SignalSell; OrderType := "market"; LimitPrice := None;
               Confidence := ((7 # 10) - math_Min (2 # 10) sharpeRatio)%Q |}
        else
          {| Signal := SignalHold; OrderType := "market"; LimitPrice := None;
             Confidence := (5 # 10)%Q |} in
      (Ok res, m, w)
    end
  end.

#[export] Instance MVOAlgorithm_Algorithm `{Runtime W} : Algorithm W MVOAlgorithm := {
  Name _ := "Mean-Variance Optimization";
  Type_ _ := AlgorithmTypeMVO;
  Configure := MVOAlgorithm_Configure;
  Process := MVOAlgorithm_Process
}.

(** ** Hierarchical Risk Parity (hrp.go) *)

Record HRPAlgorithm := {
  hrp_base : BaseAlgorithm;
  hrp_assets : list string
}.

Definition HRPAlgorithm_zero : HRPAlgorithm :=
  {| hrp_base := BaseAlgorithm_zero; hrp_assets := [] |}.

Definition HRPAlgorithm_Configure (h : HRPAlgorithm) (cfg : AlgorithmConfig)
  : option string * HRPAlgorithm :=
  let '(err, b) := BaseAlgorithm_Configure (hrp_base h) cfg in
  (err, {| hrp_base := b; hrp_assets := hrp_assets h |}).

Definition HRPAlgorithm_Process `{Runtime W} (h : HRPAlgorithm) (symbol : string)
    (data : option MarketData) (historicalData : list MarketData) (w : W)
  : result AlgorithmResult * HRPAlgorithm * W :=
  match data with
  | None => (Err "market data is nil", h, w)
  | Some data =>
    let h := {| hrp_base := hrp_base h; hrp_assets := [symbol] |} in
    let prices := map Price historicalData in
    match prices with
    | [] => (Panic "makeslice: len out of range", h, w)
    | _ =>
      let returns := simpleReturns prices in
      let res :=
        if (0 <? length returns)%nat then
          let meanReturn := mean returns in
          let volatility := standardDeviation returns in
          let sharpeRatio := (meanReturn / volatility)%Q in
          if Qltb (1 # 2) sharpeRatio then
            {| Signal := SignalBuy; OrderType := "limit";
               LimitPrice := Some (Price data * (99 # 100))%Q;
               Confidence := ((7 # 10) + math_Min (3 # 10) (sharpeRatio / 10))%Q |}
          else if Qltb 0 sharpeRatio then
            {| Signal := SignalHold; OrderType := "market"; LimitPrice := None;
               Confidence := (6 # 10)%Q |}
          else
            {| Signal := SignalSell; OrderType := "market"; LimitPrice := None;
               Confidence := ((6 # 10) + math_Min (3 # 10) (math_Abs sharpeRatio / 5))%Q |}
        else
          {| Signal := SignalHold; OrderType := "market"; LimitPrice := None;
             Confidence := (5 # 10)%Q |} in
      (Ok res, h, w)
    end
  end.

#[export] Instance HRPAlgorithm_Algorithm `{Runtime W} : Algorithm W HRPAlgorithm := {
  Name _ := "Hierarchical Risk Parity";
  Type_ _ := AlgorithmTypeHRP;
  Configure := HRPAlgorithm_Configure;
  Process := HRPAlgorithm_Process
}.

(** ** CUSUM filter (cusum_filter.go) *)

Record CUSUMFilterAlgorithm := {
  cusum_base : BaseAlgorithm;
  threshold : Q;
  drift : Q;
  spPrev : Q;
  snPrev : Q
}.

Definition NewCUSUMFilterAlgorithm : CUSUMFilterAlgorithm :=
  {| cusum_base := BaseAlgorithm_zero; threshold := 1; drift := 2 # 100;
     spPrev := 0; snPrev := 0 |}.

Definition CUSUMFilterAlgorithm_Configure (c : CUSUMFilterAlgorithm) (cfg : AlgorithmConfig)
  : option string * CUSUMFilterAlgorithm :=
  let '(err, b) := BaseAlgorithm_Configure (cusum_base c) cfg in
  match err with
  | Some e => (Some e, {| cusum_base := b; threshold := threshold c; drift := drift c;
                          spPrev := spPrev c; snPrev := snPrev c |})
  | None =>
    let th := default (threshold c) (AdditionalParams cfg !! "threshold") in
    let dr := default (drift c) (AdditionalParams cfg !! "drift") in
    (None, {| cusum_base := b; threshold := th; drift := dr;
              spPrev := spPrev c; snPrev := snPrev c |})
  end.

(** [returns[i-1] = math.Log(prices[i] / prices[i-1])]. *)
Fixpoint logReturns `{Runtime W} (prices : list Q) : list Q :=
  match prices with
  | p0 :: ((p1 :: _) as rest) => math_Log (p1 / p0)%Q :: logReturns rest
  | _ => []
  end.

Definition CUSUMFilterAlgorithm_Process `{Runtime W} (c : CUSUMFilterAlgorithm)
    (symbol : string) (data : option MarketData) (historicalData : list MarketData) (w : W)
  : result AlgorithmResult * CUSUMFilterAlgorithm * W :=
  if (length historicalData <? 2)%nat then
    (Err "insufficient historical data for CUSUM analysis", c, w)
  else
    let prices := map Price historicalData in
    let returns := logReturns prices in
    let mean := (Qsum returns / float_of_nat (length returns))%Q in
    let variance := fold_left (fun acc r => (acc + math_Pow2 (r - mean))%Q) returns 0%Q in
    let variance := (variance / float_of_nat (length returns))%Q in
    let stddev := math_Sqrt variance in
    let lastReturn := List.last returns 0%Q in
    let standardizedReturn := ((lastReturn - mean) / stddev)%Q in
    let sp := math_Max 0 (spPrev c + standardizedReturn - drift c)%Q in
    let sn := math_Max 0 (snPrev c - standardizedReturn - drift c)%Q in
    let c' := {| cusum_base := cusum_base c; threshold := threshold c; drift := drift c;
                 spPrev := sp; snPrev := sn |} in
    if Qltb (threshold c) sp then
      match data with
      | None => (Panic "nil pointer dereference", c, w)
      | Some data =>
        let targetPrice := (Price data * (99 # 100))%Q in
        let roundedPrice := (math_Floor (targetPrice * 100) / 100)%Q in
        (Ok {| Signal := "buy"; OrderType := "limit"; LimitPrice := Some roundedPrice;
               Confidence := math_Min (95 # 100) ((5 # 10) + sp / 10)%Q |}, c', w)
      end
    else if Qltb (threshold c) sn then
      match data with
      | None => (Panic "nil pointer dereference", c, w)
      | Some data =>
        let targetPrice := (Price data * (101 # 100))%Q in
        let roundedPrice := (math_Floor (targetPrice * 100) / 100)%Q in
        (Ok {| Signal := "sell"; OrderType := "limit"; LimitPrice := Some roundedPrice;
               Confidence := math_Min (95 # 100) ((5 # 10) + sn / 10)%Q |}, c', w)
      end
    else
      (Ok {| Signal := "hold"; OrderType := "market"; LimitPrice := None;
             Confidence := (5 # 10)%Q |}, c', w).

#[export] Instance CUSUMFilterAlgorithm_Algorithm `{Runtime W}
  : Algorithm W CUSUMFilterAlgorithm := {
  Name _ := "CUSUM Filter";
  Type_ _ := AlgorithmTypeCUSUMFilter;
  Configure := CUSUMFilterAlgorithm_Configure;
  Process := CUSUMFilterAlgorithm_Process
}.

(** ** Sequential bootstrap (sequential_bootstrap.go, sequential_bootstrap_utils.go) *)

(** A [mat.Dense]: its dimensions and its entries. *)
Record Dense := {
  mat_rows : nat;
  mat_cols : nat;
  mat_At : nat -> nat -> Q
}.

Definition mat_Col (j : nat) (m : Dense) : list Q :=
  map (fun i => mat_At m i j) (seq 0 (mat_rows m)).

Definition getIndMatrix (barIx : list Z) (t1 : list Q) : result Dense :=
  if ((length barIx =? 0) || (length t1 =? 0))%nat then
    Err "bar indices or t1 series cannot be empty"
  else
    Ok {| mat_rows := length barIx; mat_cols := length t1;
          mat_At := fun j i =>
            match barIx !! j, t1 !! i with
            | Some barTime, Some endTime =>
                if Qleb (float_of_int barTime) endTime then 1%Q else 0%Q
            | _, _ => 0%Q
            end |}.

Definition getAvgUniqueness (indM : Dense) : result (list Q) :=
  let r := mat_rows indM in
  let c := mat_cols indM in
  if ((r =? 0) || (c =? 0))%nat then
    Err "indicator matrix cannot have zero dimensions"
  else
    let concurrency := fun j => Qsum (mat_Col j indM) in
    let uniqueness := fun i j =>
      let val := mat_At indM i j in
      if Qltb 0 val && Qltb 0 (concurrency j) then (val / concurrency j)%Q else 0%Q in
    Ok (map (fun j =>
          let positive := filter (fun v => Qltb 0 v = true)
                                 (map (fun i => uniqueness i j) (seq 0 r)) in
          let colSum := Qsum positive in
          let count := length positive in
          if (0 <? count)%nat then (colSum / float_of_nat count)%Q else 0%Q)
        (seq 0 c)).

Definition selectColumns (m : Dense) (indices : list Z) : Dense :=
  {| mat_rows := mat_rows m; mat_cols := length indices;
     mat_At := fun i j =>
       match indices !! j with
       | Some idx => mat_At m i (Z.to_nat idx)
       | None => 0%Q
       end |}.

(** The cumulative-distribution scan of [weightedChoice]. *)
Fixpoint weightedChoice_scan (items : list Z) (normalizedWeights : list Q)
    (r cumulative : Q) : option Z :=
  match items, normalizedWeights with
  | item :: items', w :: ws' =>
      let cumulative := (cumulative + w)%Q in
      if Qleb r cumulative then Some item else weightedChoice_scan items' ws' r cumulative
  | _, _ => None
  end.

Definition weightedChoice `{Runtime W} (items : list Z) (weights : list Q) (w : W) : Z * W :=
  if ((length items =? 0) || (length weights =? 0)
      || negb (length items =? length weights))%nat then
    if (0 <? length items)%nat then
      let '(k, w) := rand_Intn (Z.of_nat (length items)) w in
      (default 0%Z (items !! Z.to_nat k), w)
    else ((-1)%Z, w)
  else
    let sum := Qsum weights in
    let normalizedWeights := map (fun x => (x / sum)%Q) weights in
    let '(r, w) := rand_Float64 w in
    match weightedChoice_scan items normalizedWeights r 0%Q with
    | Some item => (item, w)
    | None => (List.last items 0%Z, w)
    end.

(** One pass of the [for len(phi) < sLength] loop of [seqBootstrap]: the
    average uniqueness of every candidate column, then one draw. *)
Definition seqBootstrap_draw `{Runtime W} (indM : Dense) (phi : list Z) (w : W)
  : list Z * W :=
  let c := mat_cols indM in
  let avgUniqueness : gmap Z Q :=
    fold_left (fun (acc : gmap Z Q) (i : nat) =>
      let tempPhi := phi ++ [Z.of_nat i] in
      let tempMatrix := selectColumns indM tempPhi in
      match getAvgUniqueness tempMatrix with
      | Ok avgU =>
          if (0 <? length avgU)%nat
          then <[Z.of_nat i := List.last avgU 0%Q]> acc
          else acc
      | _ => acc
      end) (seq 0 c) ∅ in
  let '(entries, w) := range_map avgUniqueness w in
  let indices := map fst entries in
  let weights := map snd entries in
  if (length indices =? 0)%nat then
    let '(k, w) := rand_Intn (Z.of_nat c) w in
    (phi ++ [k], w)
  else
    let '(selectedIdx, w) := weightedChoice indices weights w in
    (phi ++ [selectedIdx], w).

Fixpoint seqBootstrap_loop `{Runtime W} (indM : Dense) (remaining : nat)
    (phi : list Z) (w : W) : list Z * W :=
  match remaining with
  | O => (phi, w)
  | S remaining' =>
      let '(phi, w) := seqBootstrap_draw indM phi w in
      seqBootstrap_loop indM remaining' phi w
  end.

Definition seqBootstrap `{Runtime W} (indM : Dense) (sLength : Z) (w : W)
  : result (list Z) * W :=
  let c := Z.of_nat (mat_cols indM) in
  if (c =? 0)%Z then (Err "indicator matrix must have at least one column", w)
  else
    let sLength := if (sLength <=? 0)%Z then c else sLength in
    if (c <? sLength)%Z then
      (Err "sample length (%d) cannot exceed number of columns (%d)", w)
    else
      let '(phi, w) := seqBootstrap_loop indM (Z.to_nat sLength) [] w in
      (Ok phi, w).

Fixpoint standardBootstrap_loop `{Runtime W} (c : Z) (n : nat) (w : W) : list Z * W :=
  match n with
  | O => ([], w)
  | S n' =>
      let '(k, w) := rand_Intn c w in
      let '(rest, w) := standardBootstrap_loop c n' w in
      (k :: rest, w)
  end.

Definition standardBootstrap `{Runtime W} (indM : Dense) (sLength : Z) (w : W)
  : list Z * W :=
  let c := Z.of_nat (mat_cols indM) in
  let sLength := if (sLength <=? 0)%Z then c else sLength in
  standardBootstrap_loop c (Z.to_nat sLength) w.

Record SequentialBootstrapAlgorithm := {
  sb_base : BaseAlgorithm;
  lookbackPeriod : Z;
  sb_confidenceThreshold : Q;
  useSequential : bool;
  sampleSize : Z;
  lastSamples : list Z
}.

(** What the registered factory returns: the zero value of the struct. *)
Definition SequentialBootstrapAlgorithm_zero : SequentialBootstrapAlgorithm :=
  {| sb_base := BaseAlgorithm_zero; lookbackPeriod := 0; sb_confidenceThreshold := 0;
     useSequential := false; sampleSize := 0; lastSamples := [] |}.

(** One [if val, ok := config.AdditionalParams[key]; ok { ... }] block of a
    [Configure]: without the key the field keeps [current]; with it the
    block either fails or gives the field's new value. *)
Definition override {A : Type} (params : gmap string Q) (key : string) (current : A)
    (block : Q -> result A) : result A :=
  match params !! key with
  | Some val => block val
  | None => Ok current
  end.

Definition error_of {A : Type} (r : result A) : string :=
  match r with Ok _ => "" | Err e => e | Panic e => e end.

Definition SequentialBootstrapAlgorithm_Configure (s : SequentialBootstrapAlgorithm)
    (cfg : AlgorithmConfig) : option string * SequentialBootstrapAlgorithm :=
  let '(err, b) := BaseAlgorithm_Configure (sb_base s) cfg in
  let mk lb ct us ss :=
    {| sb_base := b; lookbackPeriod := lb; sb_confidenceThreshold := ct;
       useSequential := us; sampleSize := ss; lastSamples := lastSamples s |} in
  match err with
  | Some e => (Some e, mk (lookbackPeriod s) (sb_confidenceThreshold s)
                          (useSequential s) (sampleSize s))
  | None =>
    let lb := 20%Z in
    let ct := (65 # 100)%Q in
    let us := true in
    let ss := 50%Z in
    let params := AdditionalParams cfg in
    match override params "lookback_period" lb (fun val =>
            if Qltb val 1 then Err "lookback_period must be at least 1"
            else Ok (int_of_float val)) with
    | Ok lb =>
      match override params "confidence_threshold" ct (fun val =>
              if Qltb val 0 || Qltb 1 val
              then Err "confidence_threshold must be between 0 and 1"
              else Ok val) with
      | Ok ct =>
        let us := default us ((fun val => Qltb (1 # 2) val) <$> params !! "use_sequential") in
        match override params "sample_size" ss (fun val =>
                if Qltb val 1 then Err "sample_size must be at least 1"
                else Ok (int_of_float val)) with
        | Ok ss => (None, mk lb ct us ss)
        | e => (Some (error_of e), mk lb ct us ss)
        end
      | e => (Some (error_of e), mk lb ct us ss)
      end
    | e => (Some (error_of e), mk lb ct us ss)
    end
  end.

(** The loop of [Process] over the drawn samples: up-steps and down-steps
    of the next bar. *)
Fixpoint countSignals (historicalData : list MarketData) (samples : list Z)
    (upSignals downSignals : Z) : result (Z * Z) :=
  match samples with
  | [] => Ok (upSignals, downSignals)
  | idx :: samples' =>
      if (Z.of_nat (length historicalData) - 1 <=? idx)%Z then
        countSignals historicalData samples' upSignals downSignals
      else if (idx <? 0)%Z then Panic "index out of range"
      else
        match historicalData !! Z.to_nat (idx + 1), historicalData !! Z.to_nat idx with
        | Some next, Some cur =>
            if Qltb (Price cur) (Price next)
            then countSignals historicalData samples' (upSignals + 1)%Z downSignals
            else countSignals historicalData samples' upSignals (downSignals + 1)%Z
        | _, _ => Panic "index out of range"
        end
  end.

Definition SequentialBootstrapAlgorithm_Process `{Runtime W}
    (s : SequentialBootstrapAlgorithm) (symbol : string)
    (currentData : option MarketData) (historicalData : list MarketData) (w : W)
  : result AlgorithmResult * SequentialBootstrapAlgorithm * W :=
  let histLen := Z.of_nat (length historicalData) in
  if (histLen <? lookbackPeriod s)%Z then
    (Err "insufficient historical data: got %d, need at least %d", s, w)
  else if (lookbackPeriod s <? 0)%Z then
    (Panic "slice bounds out of range", s, w)
  else
    let historicalData :=
      if (lookbackPeriod s <? histLen)%Z
      then drop (Z.to_nat (histLen - lookbackPeriod s)) historicalData
      else historicalData in
    let n := length historicalData in
    let barIx := map Z.of_nat (seq 0 n) in
    let t1 := map (fun i => float_of_nat (i + 1)) (seq 0 n) in
    match getIndMatrix barIx t1 with
    | Err _ => (Err "failed to create indicator matrix: %v", s, w)
    | Panic e => (Panic e, s, w)
    | Ok indM =>
      let '(sampled, w) :=
        if useSequential s then seqBootstrap indM (sampleSize s) w
        else let '(samples, w) := standardBootstrap indM (sampleSize s) w in
             (Ok samples, w) in
      match sampled with
      | Err _ => (Err "sequential bootstrap failed: %v", s, w)
      | Panic e => (Panic e, s, w)
      | Ok samples =>
        let s := {| sb_base := sb_base s; lookbackPeriod := lookbackPeriod s;
                    sb_confidenceThreshold := sb_confidenceThreshold s;
                    useSequential := useSequential s; sampleSize := sampleSize s;
                    lastSamples := samples |} in
        match countSignals historicalData samples 0 0 with
        | Err e => (Err e, s, w)
        | Panic e => (Panic e, s, w)
        | Ok (upSignals, downSignals) =>
          let totalSignals := (upSignals + downSignals)%Z in
          let '(confidence, signal, orderType) :=
            if (0 <? totalSignals)%Z then
              if (downSignals <? upSignals)%Z then
                ((float_of_int upSignals / float_of_int totalSignals)%Q, "BUY", "MARKET")
              else
                ((float_of_int downSignals / float_of_int totalSignals)%Q, "SELL", "MARKET")
            else ((5 # 10)%Q, "HOLD", "NONE") in
          let '(signal, orderType) :=
            if Qltb confidence (sb_confidenceThreshold s)
            then ("HOLD", "NONE") else (signal, orderType) in
          (Ok {| Signal := signal; OrderType := orderType; LimitPrice := None;
                 Confidence := confidence |}, s, w)
        end
      end
    end.

#[export] Instance SequentialBootstrapAlgorithm_Algorithm `{Runtime W}
  : Algorithm W SequentialBootstrapAlgorithm := {
  Name _ := "Sequential Bootstrap";
  Type_ _ := AlgorithmTypeSequentialBootstrap;
  Configure := SequentialBootstrapAlgorithm_Configure;
  Process := SequentialBootstrapAlgorithm_Process
}.

(** The factory that [init] registers for [AlgorithmTypeSequentialBootstrap]. *)
Definition SequentialBootstrap_factory `{Runtime W} : FactoryFunc W :=
  {| factory_state := SequentialBootstrapAlgorithm;
     factory_impl := SequentialBootstrapAlgorithm_Algorithm;
     factory_new := SequentialBootstrapAlgorithm_zero |}.

(** ** Meta-labeling (meta_labeling.go) *)

Definition ModelType := string.
Definition ModelTypeLogisticRegression : ModelType := "logistic_regression".
Definition ModelTypeRandomForest : ModelType := "random_forest".
Definition ModelTypeSimpleRules : ModelType := "simple_rules".

Definition FeatureType := string.
Definition FeatureTypePrice : FeatureType := "price".
Definition FeatureTypeVolume : FeatureType := "volume".
Definition FeatureTypeVolatility : FeatureType := "volatility".
Definition FeatureTypeTechnical : FeatureType := "technical".

Record MetaLabelResult := {
  OriginalSignal : string;
  MetaLabel : bool;
  ml_Confidence : Q;
  SuggestedSize : Q
}.

Record MetaLabelingAlgorithm := {
  ml_base : BaseAlgorithm;
  ml_confidenceThreshold : Q;
  features : list FeatureType;
  modelType : ModelType;
  ml_primaryAlgorithm : AlgorithmType;
  weights : list Q;
  bias : Q;
  featureRanges : gmap string (Q * Q)
}.

Definition MetaLabelingAlgorithm_zero : MetaLabelingAlgorithm :=
  {| ml_base := BaseAlgorithm_zero; ml_confidenceThreshold := 0; features := [];
     modelType := ""; ml_primaryAlgorithm := ""; weights := []; bias := 0;
     featureRanges := ∅ |}.

(** [removeFeature]: the first occurrence is cut out. *)
Fixpoint removeFeature (fs : list FeatureType) (featureType : FeatureType)
  : list FeatureType :=
  match fs with
  | [] => []
  | f :: fs' => if String.eqb f featureType then fs' else f :: removeFeature fs' featureType
  end.

Definition containsFeatureType (fs : list FeatureType) (featureType : FeatureType) : bool :=
  existsb (fun f => String.eqb f featureType) fs.

Definition MetaLabelingAlgorithm_Configure (m : MetaLabelingAlgorithm)
    (cfg : AlgorithmConfig) : option string * MetaLabelingAlgorithm :=
  let '(err, b) := BaseAlgorithm_Configure (ml_base m) cfg in
  match err with
  | Some e => (Some e, {| ml_base := b; ml_confidenceThreshold := ml_confidenceThreshold m;
                          features := features m; modelType := modelType m;
                          ml_primaryAlgorithm := ml_primaryAlgorithm m;
                          weights := weights m; bias := bias m;
                          featureRanges := featureRanges m |})
  | None =>
    let ranges : gmap string (Q * Q) :=
      <["price_change" := (- (5 # 100), 5 # 100)%Q]>
      (<["volume_ratio" := (0, 3)%Q]>
      (<["volatility" := (0, 5 # 100)%Q]>
      (<["rsi" := (0, 100)%Q]>
      (<["macd" := (- (5 # 100), 5 # 100)%Q]>
      (<["bollinger_pct_b" := (0, 1)%Q]> ∅))))) in
    let mk ct fs ws bs :=
      {| ml_base := b; ml_confidenceThreshold := ct; features := fs;
         modelType := ModelTypeSimpleRules;
         ml_primaryAlgorithm := AlgorithmTypeSequentialBootstrap;
         weights := ws; bias := bs; featureRanges := ranges |} in
    let fs := [FeatureTypePrice; FeatureTypeVolume; FeatureTypeVolatility;
               FeatureTypeTechnical] in
    let params := AdditionalParams cfg in
    match override params "confidence_threshold" (6 # 10)%Q (fun val =>
            if Qltb val 0 || Qltb 1 val
            then Err "confidence_threshold must be between 0 and 1"
            else Ok val) with
    | Ok ct =>
      let toggle key featureType fs :=
        match params !! key with
        | Some val => if Qleb val (1 # 2) then removeFeature fs featureType else fs
        | None => fs
        end in
      let fs := toggle "use_price_features" FeatureTypePrice fs in
      let fs := toggle "use_volume_features" FeatureTypeVolume fs in
      let fs := toggle "use_volatility_features" FeatureTypeVolatility fs in
      let fs := toggle "use_technical_features" FeatureTypeTechnical fs in
      if (length fs =? 0)%nat then
        (Some "at least one feature type must be enabled", mk ct fs (weights m) (bias m))
      else
        (None, mk ct fs [(2 # 10); (2 # 10); (3 # 10); (3 # 10)]%Q (- (1 # 10))%Q)
    | e => (Some (error_of e), mk (6 # 10)%Q fs (weights m) (bias m))
    end
  end.

Definition normalizeFeature (value : Q) (featureName : string)
    (ranges : gmap string (Q * Q)) : Q :=
  match ranges !! featureName with
  | None => value
  | Some (min, max) =>
      let norm := ((value - min) / (max - min))%Q in
      math_Max 0 (math_Min 1 norm)
  end.

Definition sigmoid `{Runtime W} (x : Q) : Q := (1 / (1 + math_Exp (- x)))%Q.

Definition calculateVolatility `{Runtime W} (prices : list Q) (window : Z) : result Q :=
  if (Z.of_nat (length prices) <? window)%Z then
    Err "insufficient data for volatility calculation"
  else
    match prices with
    | [] => Panic "makeslice: len out of range"
    | _ =>
      let returns := logReturns prices in
      let mean := (Qsum returns / float_of_nat (length returns))%Q in
      let variance := fold_left (fun acc r => (acc + math_Pow2 (r - mean))%Q) returns 0%Q in
      let variance := (variance / float_of_int (Z.of_nat (length returns) - 1))%Q in
      Ok (math_Sqrt variance)
    end.

(** Gains and losses over [prices[0..period]] in [calculateRSI]. *)
Fixpoint rsiGainsLosses (prices : list Q) (period : nat) (gains losses : Q) : Q * Q :=
  match period, prices with
  | S period', p0 :: ((p1 :: _) as rest) =>
      let change := (p1 - p0)%Q in
      if Qleb 0 change then rsiGainsLosses rest period' (gains + change)%Q losses
      else rsiGainsLosses rest period' gains (losses - change)%Q
  | _, _ => (gains, losses)
  end.

Definition calculateRSI (prices : list Q) (period : nat) : Q :=
  if (length prices <? period + 1)%nat then 50%Q
  else
    let '(gains, losses) := rsiGainsLosses prices period 0%Q 0%Q in
    let avgGain := (gains / float_of_nat period)%Q in
    let avgLoss := (losses / float_of_nat period)%Q in
    if Qeqb avgLoss 0 then 100%Q
    else
      let rs := (avgGain / avgLoss)%Q in
      (100 - 100 / (1 + rs))%Q.

Definition calculateEMA (prices : list Q) (period : nat) : Q :=
  if (length prices <? period)%nat then List.last prices 0%Q
  else
    let multiplier := (2 / float_of_nat (period + 1))%Q in
    match prices with
    | [] => 0%Q
    | p0 :: rest => fold_left (fun ema p => ((p - ema) * multiplier + ema)%Q) rest p0
    end.

Definition calculateMACD (prices : list Q) : Q :=
  if (length prices <? 26)%nat then 0%Q
  else
    let ema12 := calculateEMA prices 12 in
    let ema26 := calculateEMA prices 26 in
    let macd := (ema12 - ema26)%Q in
    (macd / List.last prices 0)%Q.

Definition calculateBollingerPctB `{Runtime W} (prices : list Q) (period : nat)
    (numStdDev : Q) : Q :=
  if (length prices <? period)%nat then (1 # 2)%Q
  else
    let window := drop (length prices - period) prices in
    let sma := (Qsum window / float_of_nat period)%Q in
    let variance := fold_left (fun acc p => (acc + math_Pow2 (p - sma))%Q) window 0%Q in
    let stdDev := math_Sqrt (variance / float_of_nat period)%Q in
    let upper := (sma + numStdDev * stdDev)%Q in
    let lower := (sma - numStdDev * stdDev)%Q in
    let currentPrice := List.last prices 0%Q in
    ((currentPrice - lower) / (upper - lower))%Q.

(** [getHistorical(i)]: the bar [i] places before the last one. *)
Definition getHistorical (historicalData : list MarketData) (i : nat) : option MarketData :=
  if (i <? length historicalData)%nat
  then historicalData !! (length historicalData - 1 - i)%nat
  else None.

(** [extractFeatures] reads through the [currentData] pointer in its
    volatility block, and in its price and volume blocks once a historical
    bar is found. *)
Definition extractFeatures `{Runtime W} (m : MetaLabelingAlgorithm)
    (currentData : option MarketData) (historicalData : list MarketData)
  : result (list Q) :=
  let ranges := featureRanges m in
  let usesCurrent :=
    (containsFeatureType (features m) FeatureTypePrice
     && (0 <? length historicalData)%nat)
    || (containsFeatureType (features m) FeatureTypeVolume
        && (0 <? length historicalData)%nat)
    || containsFeatureType (features m) FeatureTypeVolatility in
  match currentData, usesCurrent with
  | None, true => Panic "nil pointer dereference"
  | _, _ =>
    let cur := default {| Symbol := ""; Price := 0; High24h := 0; Low24h := 0;
                          Volume24h := 0; Change24h := 0 |} currentData in
    let priceFeatures :=
      if containsFeatureType (features m) FeatureTypePrice then
        let change i :=
          match getHistorical historicalData i with
          | Some prev =>
              normalizeFeature ((Price cur - Price prev) / Price prev)%Q "price_change" ranges
          | None => 0%Q
          end in
        [change 0%nat; change 4%nat]
      else [] in
    let volumeFeatures :=
      if containsFeatureType (features m) FeatureTypeVolume then
        let recent := omap (getHistorical historicalData) (seq 0 5) in
        let avgVolume := Qsum (map Volume24h recent) in
        let count := length recent in
        if (0 <? count)%nat then
          let avgVolume := (avgVolume / float_of_nat count)%Q in
          [normalizeFeature (Volume24h cur / avgVolume)%Q "volume_ratio" ranges]
        else [0%Q]
      else [] in
    let prices := map Price historicalData in
    let volatilityFeatures :=
      if containsFeatureType (features m) FeatureTypeVolatility then
        let volatility :=
          match calculateVolatility prices 10 with
          | Ok v => v
          | _ => (1 # 100)%Q
          end in
        let priceRange := ((High24h cur - Low24h cur) / Price cur)%Q in
        [normalizeFeature volatility "volatility" ranges;
         normalizeFeature priceRange "volatility" ranges]
      else [] in
    let technicalFeatures :=
      if containsFeatureType (features m) FeatureTypeTechnical then
        [normalizeFeature (calculateRSI prices 14) "rsi" ranges;
         normalizeFeature (calculateMACD prices) "macd" ranges;
         normalizeFeature (calculateBollingerPctB prices 20 2) "bollinger_pct_b" ranges]
      else [] in
    Ok (priceFeatures ++ volumeFeatures ++ volatilityFeatures ++ technicalFeatures)
  end.

(** [sum += feature * m.weights[i]] over the features. *)
Fixpoint weightedSum (fs ws : list Q) (sum : Q) : Q :=
  match fs, ws with
  | f :: fs', wt :: ws' => weightedSum fs' ws' (sum + f * wt)%Q
  | _, _ => sum
  end.

Definition applyMetaLabeling `{Runtime W} (m : MetaLabelingAlgorithm) (signal : string)
    (fs : list Q) (primaryConfidence : Q) : result MetaLabelResult :=
  if (length fs =? 0)%nat then Err "no features provided for meta-labeling"
  else
    let metaConfidence : result Q :=
      if String.eqb (modelType m) ModelTypeSimpleRules then
        if (length (weights m) <? length fs)%nat
        then Err "insufficient weights for features"
        else Ok (sigmoid (weightedSum fs (weights m) 0 + bias m)%Q)
      else if String.eqb (modelType m) ModelTypeLogisticRegression then Ok primaryConfidence
      else if String.eqb (modelType m) ModelTypeRandomForest then Ok primaryConfidence
      else Ok 0%Q in
    match metaConfidence with
    | Ok metaConfidence =>
      let metaLabel := Qleb (ml_confidenceThreshold m) metaConfidence in
      let suggestedSize :=
        if metaLabel then
          let suggestedSize := ((metaConfidence - (1 - metaConfidence)) * (5 # 10))%Q in
          math_Max (1 # 10) (math_Min 1 suggestedSize)
        else 0%Q in
      Ok {| OriginalSignal := signal; MetaLabel := metaLabel;
            ml_Confidence := metaConfidence; SuggestedSize := suggestedSize |}
    | Err e => Err e
    | Panic e => Panic e
    end.

(** ** Composition: primary, meta-label, size (meta_labeling.go, position_sizing.go) *)

Section Composition.
Context `{Runtime W}.
(** The package variable [algorithmRegistry], as the [init] functions leave it. *)
Variable algorithmRegistry : AlgorithmType -> option (FactoryFunc W).

(** [Create], [Configure(AlgorithmConfig{})] and [Process] on a fresh
    instance: the three steps both composed algorithms run on their primary.
    The created instance is local to the call. *)
Definition runWithDefaults (algType : AlgorithmType) (what : string) (symbol : string)
    (currentData : option MarketData) (historicalData : list MarketData) (w : W)
  : result AlgorithmResult * W :=
  match Create algorithmRegistry algType with
  | Err _ => (Err ("error creating " +:+ what +:+ " algorithm: %v"), w)
  | Panic e => (Panic e, w)
  | Ok factory =>
    let alg := factory_new factory in
    match @Configure W _ (factory_impl factory) alg AlgorithmConfig_zero with
    | (Some _, _) => (Err ("error configuring " +:+ what +:+ " algorithm: %v"), w)
    | (None, alg) =>
      match @Process W _ (factory_impl factory) alg symbol currentData historicalData w with
      | (Err _, _, w) => (Err ("error processing " +:+ what +:+ " algorithm: %v"), w)
      | (Panic e, _, w) => (Panic e, w)
      | (Ok res, _, w) => (Ok res, w)
      end
    end
  end.

Definition MetaLabelingAlgorithm_Process (m : MetaLabelingAlgorithm) (symbol : string)
    (currentData : option MarketData) (historicalData : list MarketData) (w : W)
  : result AlgorithmResult * MetaLabelingAlgorithm * W :=
  if (length historicalData <? 10)%nat then
    (Err "insufficient historical data for meta-labeling", m, w)
  else
    match runWithDefaults (ml_primaryAlgorithm m) "primary" symbol
                          currentData historicalData w with
    | (Err e, w) => (Err e, m, w)
    | (Panic e, w) => (Panic e, m, w)
    | (Ok primaryResult, w) =>
      if String.eqb (Signal primaryResult) "hold" then (Ok primaryResult, m, w)
      else
        match extractFeatures m currentData historicalData with
        | Err e => (Err e, m, w)
        | Panic e => (Panic e, m, w)
        | Ok fs =>
          match applyMetaLabeling m (Signal primaryResult) fs (Confidence primaryResult) with
          | Err _ => (Err "error applying meta-labeling: %v", m, w)
          | Panic e => (Panic e, m, w)
          | Ok metaLabelResult =>
            if MetaLabel metaLabelResult then
              (Ok {| Signal := Signal primaryResult; OrderType := OrderType primaryResult;
                     LimitPrice := None; Confidence := ml_Confidence metaLabelResult |}, m, w)
            else
              (Ok {| Signal := "hold"; OrderType := "none"; LimitPrice := None;
                     Confidence := (5 # 10)%Q |}, m, w)
          end
        end
    end.

#[export] Instance MetaLabelingAlgorithm_Algorithm : Algorithm W MetaLabelingAlgorithm := {
  Name _ := "Meta-Labeling";
  Type_ _ := AlgorithmTypeMetaLabeling;
  Configure := MetaLabelingAlgorithm_Configure;
  Process := MetaLabelingAlgorithm_Process
}.

(** *** Position sizing *)

Record PositionSizeResult := {
  psr_Signal : string;
  Size : Q;
  psr_Confidence : Q;
  VolAdjusted : bool;
  RiskPerTrade : Q
}.

Record PositionSizingAlgorithm := {
  ps_base : BaseAlgorithm;
  maxSize : Q;
  riskFraction : Q;
  useVolAdjustment : bool;
  volLookback : Z;
  maxDrawdown : Q;
  ps_primaryAlgorithm : AlgorithmType;
  metaLabeling : bool
}.

Definition PositionSizingAlgorithm_zero : PositionSizingAlgorithm :=
  {| ps_base := BaseAlgorithm_zero; maxSize := 0; riskFraction := 0;
     useVolAdjustment := false; volLookback := 0; maxDrawdown := 0;
     ps_primaryAlgorithm := ""; metaLabeling := false |}.

Definition PositionSizingAlgorithm_Configure (p : PositionSizingAlgorithm)
    (cfg : AlgorithmConfig) : option string * PositionSizingAlgorithm :=
  let '(err, b) := BaseAlgorithm_Configure (ps_base p) cfg in
  match err with
  | Some e => (Some e, {| ps_base := b; maxSize := maxSize p; riskFraction := riskFraction p;
                          useVolAdjustment := useVolAdjustment p;
                          volLookback := volLookback p; maxDrawdown := maxDrawdown p;
                          ps_primaryAlgorithm := ps_primaryAlgorithm p;
                          metaLabeling := metaLabeling p |})
  | None =>
    let mk ms rf uv vl md :=
      {| ps_base := b; maxSize := ms; riskFraction := rf; useVolAdjustment := uv;
         volLookback := vl; maxDrawdown := md;
         ps_primaryAlgorithm := AlgorithmTypeSequentialBootstrap; metaLabeling := true |} in
    let ms := (2 # 10)%Q in
    let rf := (3 # 10)%Q in
    let uv := true in
    let vl := 20%Z in
    let md := (1 # 10)%Q in
    let params := AdditionalParams cfg in
    match override params "max_size" ms (fun val =>
            if Qleb val 0 || Qltb 1 val then Err "max_size must be between 0 and 1"
            else Ok val) with
    | Ok ms =>
      match override params "risk_fraction" rf (fun val =>
              if Qleb val 0 || Qltb 1 val then Err "risk_fraction must be between 0 and 1"
              else Ok val) with
      | Ok rf =>
        let uv := default uv ((fun val => Qltb (1 # 2) val)
                              <$> params !! "use_vol_adjustment") in
        match override params "vol_lookback" vl (fun val =>
                if Qltb val 1 then Err "vol_lookback must be at least 1"
                else Ok (int_of_float val)) with
        | Ok vl =>
          match override params "max_drawdown" md (fun val =>
                  if Qleb val 0 || Qltb (5 # 10) val
                  then Err "max_drawdown must be between 0 and 0.5"
                  else Ok val) with
          | Ok md =>
            let ml := default true ((fun val => Qltb (1 # 2) val)
                                    <$> params !! "use_meta_labeling") in
            (None, {| ps_base := b; maxSize := ms; riskFraction := rf;
                      useVolAdjustment := uv; volLookback := vl; maxDrawdown := md;
                      ps_primaryAlgorithm := AlgorithmTypeSequentialBootstrap;
                      metaLabeling := ml |})
          | e => (Some (error_of e), mk ms rf uv vl md)
          end
        | e => (Some (error_of e), mk ms rf uv vl md)
        end
      | e => (Some (error_of e), mk ms rf uv vl md)
      end
    | e => (Some (error_of e), mk ms rf uv vl md)
    end
  end.

Definition PositionSizingAlgorithm_calculatePositionSize (p : PositionSizingAlgorithm)
    (signal : string) (confidence volatility currentPrice : Q) : result PositionSizeResult :=
  if negb (String.eqb signal "buy") && negb (String.eqb signal "sell") then
    Err "invalid signal: %s"
  else if Qleb confidence 0 || Qltb 1 confidence then
    Err "confidence must be between 0 and 1, got %.2f"
  else if Qleb volatility 0 then
    Err "volatility must be positive, got %.6f"
  else
    let winProb := confidence in
    let winLossRatio := 1%Q in
    let kellyFraction := ((winProb * winLossRatio - (1 - winProb)) / winLossRatio)%Q in
    let kellyFraction := (kellyFraction * riskFraction p)%Q in
    let kellyFraction := math_Max 0 kellyFraction in
    let '(size, volAdjusted) :=
      if useVolAdjustment p then
        let baselineVol := (1 # 100)%Q in
        let volScalingFactor := (volatility / baselineVol)%Q in
        let adjustment := math_Min 2 (math_Max (5 # 10) (1 / volScalingFactor)%Q) in
        ((kellyFraction * adjustment)%Q, true)
      else (kellyFraction, false) in
    let size := math_Min (maxSize p) size in
    let riskPerTrade := (size * volatility)%Q in
    Ok {| psr_Signal := signal; Size := size; psr_Confidence := confidence;
          VolAdjusted := volAdjusted; RiskPerTrade := riskPerTrade |}.

Definition PositionSizingAlgorithm_Process (p : PositionSizingAlgorithm) (symbol : string)
    (currentData : option MarketData) (historicalData : list MarketData) (w : W)
  : result AlgorithmResult * PositionSizingAlgorithm * W :=
  if (Z.of_nat (length historicalData) <? volLookback p)%Z then
    (Err "insufficient historical data: got %d, need at least %d", p, w)
  else
    match runWithDefaults (ps_primaryAlgorithm p) "primary" symbol
                          currentData historicalData w with
    | (Err e, w) => (Err e, p, w)
    | (Panic e, w) => (Panic e, p, w)
    | (Ok primaryResult, w) =>
      if String.eqb (Signal primaryResult) "hold" then (Ok primaryResult, p, w)
      else
        let sized (confidence : Q) (w : W) :=
          let prices := map Price historicalData in
          match calculateVolatility prices (volLookback p) with
          | Err _ => (Err "error calculating volatility: %v", p, w)
          | Panic e => (Panic e, p, w)
          | Ok volatility =>
            match currentData with
            | None => (Panic "nil pointer dereference", p, w)
            | Some cur =>
              match PositionSizingAlgorithm_calculatePositionSize
                      p (Signal primaryResult) confidence volatility (Price cur) with
              | Err _ => (Err "error calculating position size: %v", p, w)
              | Panic e => (Panic e, p, w)
              | Ok _ =>
                (Ok {| Signal := Signal primaryResult; OrderType := OrderType primaryResult;
                       LimitPrice := None; Confidence := confidence |}, p, w)
              end
            end
          end in
        if metaLabeling p then
          match runWithDefaults AlgorithmTypeMetaLabeling "meta-labeling" symbol
                                currentData historicalData w with
          | (Err e, w) => (Err e, p, w)
          | (Panic e, w) => (Panic e, p, w)
          | (Ok metaLabelResult, w) =>
            if String.eqb (Signal metaLabelResult) "hold" then (Ok metaLabelResult, p, w)
            else sized (Confidence metaLabelResult) w
          end
        else sized (Confidence primaryResult) w
    end.

#[export] Instance PositionSizingAlgorithm_Algorithm : Algorithm W PositionSizingAlgorithm := {
  Name _ := "Advanced Position Sizing";
  Type_ _ := AlgorithmTypePositionSizing;
  Configure := PositionSizingAlgorithm_Configure;
  Process := PositionSizingAlgorithm_Process
}.

End Composition.

(** ** Purged cross-validation (purged_cv.go) *)

(** A [time.Time], in nanoseconds; [Time_zero] is [time.Time{}]. *)
Definition Time := Z.
Definition Time_zero : Time := 0%Z.
Definition Hour : Z := 3600000000000%Z.

Record CVFold := {
  TrainIndices : list Z;
  TestIndices : list Z;
  TrainTimes : list Time;
  TestTimes : list Time
}.

Record PurgedCVConfig := {
  NumFolds : Z;
  EmbargoPct : Q;
  TestSize : Q
}.

Record PurgedCVAlgorithm := {
  pcv_base : BaseAlgorithm;
  pcv_config : PurgedCVConfig;
  numFolds : Z;
  embargoPct : Q;
  testSize : Q;
  syncTimes : list Time;
  eventTimes : list Time
}.

Definition PurgedCVAlgorithm_zero : PurgedCVAlgorithm :=
  {| pcv_base := BaseAlgorithm_zero;
     pcv_config := {| NumFolds := 0; EmbargoPct := 0; TestSize := 0 |};
     numFolds := 0; embargoPct := 0; testSize := 0; syncTimes := []; eventTimes := [] |}.

Definition PurgedCVAlgorithm_Configure (p : PurgedCVAlgorithm) (cfg : AlgorithmConfig)
  : option string * PurgedCVAlgorithm :=
  let '(err, b) := BaseAlgorithm_Configure (pcv_base p) cfg in
  let mk c nf ep ts :=
    {| pcv_base := b; pcv_config := c; numFolds := nf; embargoPct := ep; testSize := ts;
       syncTimes := syncTimes p; eventTimes := eventTimes p |} in
  match err with
  | Some e => (Some e, mk (pcv_config p) (numFolds p) (embargoPct p) (testSize p))
  | None =>
    let nf := 5%Z in
    let ep := (1 # 100)%Q in
    let ts := (3 # 10)%Q in
    let params := AdditionalParams cfg in
    match override params "num_folds" nf (fun val =>
            if Qltb val 2 then Err "num_folds must be at least 2"
            else Ok (int_of_float val)) with
    | Ok nf =>
      match override params "embargo_pct" ep (fun val =>
              if Qltb val 0 || Qltb (5 # 10) val
              then Err "embargo_pct must be between 0 and 0.5"
              else Ok val) with
      | Ok ep =>
        match override params "test_size" ts (fun val =>
                if Qleb val 0 || Qleb 1 val
                then Err "test_size must be between 0 and 1"
                else Ok val) with
        | Ok ts =>
            (None, mk {| NumFolds := nf; EmbargoPct := ep; TestSize := ts |} nf ep ts)
        | e => (Some (error_of e), mk (pcv_config p) nf ep ts)
        end
      | e => (Some (error_of e), mk (pcv_config p) nf ep ts)
      end
    | e => (Some (error_of e), mk (pcv_config p) nf ep ts)
    end
  end.

(** [sort.Ints]. *)
Fixpoint insert_sorted (x : Z) (l : list Z) : list Z :=
  match l with
  | [] => [x]
  | y :: l' => if (x <=? y)%Z then x :: l else y :: insert_sorted x l'
  end.

Definition sort_Ints (l : list Z) : list Z := fold_right insert_sorted [] l.

(** [areTimesClose]: the two times are less than [days] days apart. *)
Definition areTimesClose (t1 t2 : Time) (days : Z) : bool :=
  let diff := (t1 - t2)%Z in
  Qltb (math_Abs (float_of_int diff / float_of_int Hour)) (float_of_int days * 24)%Q.

Definition timeAt (times : list Time) (idx : Z) : option Time :=
  if (0 <=? idx)%Z then times !! Z.to_nat idx else None.

Definition PurgedCVAlgorithm_getTimesByIndices (p : PurgedCVAlgorithm) (indices : list Z)
  : list Time :=
  map (fun idx => default Time_zero (timeAt (syncTimes p) idx)) indices.

Definition PurgedCVAlgorithm_purgeTrainSamples (p : PurgedCVAlgorithm)
    (trainIndices testIndices : list Z) : list Z :=
  if (length (eventTimes p) =? 0)%nat then trainIndices
  else
    let testTimes := map (fun idx => default Time_zero (timeAt (syncTimes p) idx))
                         testIndices in
    filter (fun trainIdx =>
              let trainTime := default Time_zero (timeAt (syncTimes p) trainIdx) in
              existsb (fun testTime => areTimesClose trainTime testTime 1) testTimes = false)
           trainIndices.

Definition PurgedCVAlgorithm_embargoTrainSamples (p : PurgedCVAlgorithm)
    (trainIndices testIndices : list Z) : list Z :=
  if Qleb (embargoPct p) 0 then trainIndices
  else
    let sortedTest := sort_Ints testIndices in
    let n := Z.of_nat (length (syncTimes p)) in
    let embargoSize := int_of_float (math_Ceil (float_of_int n * embargoPct p)) in
    let embargoSize := if (embargoSize <=? 0)%Z then 1%Z else embargoSize in
    let embargoZones : gset Z :=
      list_to_set (flat_map (fun testIdx =>
        filter (fun embargoIdx => (embargoIdx < n)%Z)
               (map (fun i => (testIdx + Z.of_nat i)%Z) (seq 1 (Z.to_nat embargoSize))))
        sortedTest) in
    filter (fun trainIdx => trainIdx ∉ embargoZones) trainIndices.

(** The test indices of fold [i]: a window of [testSize] indices starting at
    [(i * testSize) % numSamples], wrapping around the end of the samples. *)
Definition foldTestIndices (numSamples testSize : Z) (i : Z) : result (list Z) :=
  let indices := map Z.of_nat (seq 0 (Z.to_nat numSamples)) in
  let start := Z.rem (i * testSize) numSamples in
  let end_ := (start + testSize)%Z in
  if (start <? 0)%Z || (end_ <? start)%Z then Panic "slice bounds out of range"
  else if (numSamples <? end_)%Z then
    if (numSamples <? end_ - numSamples)%Z then Panic "slice bounds out of range"
    else Ok (sort_Ints (drop (Z.to_nat start) indices
                        ++ take (Z.to_nat (end_ - numSamples)) indices))
  else Ok (sort_Ints (take (Z.to_nat (end_ - start)) (drop (Z.to_nat start) indices))).

Fixpoint collect {A B : Type} (f : A -> result B) (l : list A) : result (list B) :=
  match l with
  | [] => Ok []
  | x :: l' =>
      match f x with
      | Ok y => match collect f l' with
                | Ok ys => Ok (y :: ys)
                | Err e => Err e
                | Panic e => Panic e
                end
      | Err e => Err e
      | Panic e => Panic e
      end
  end.

Definition PurgedCVAlgorithm_purgedKFold (p : PurgedCVAlgorithm) : result (list CVFold) :=
  if (length (syncTimes p) =? 0)%nat then Err "no sample times provided"
  else if (numFolds p <? 0)%Z then Panic "makeslice: len out of range"
  else
    let numSamples := Z.of_nat (length (syncTimes p)) in
    let testSize := int_of_float (math_Ceil (float_of_int numSamples * testSize p)) in
    let foldIds := map Z.of_nat (seq 0 (Z.to_nat (numFolds p))) in
    match collect (foldTestIndices numSamples testSize) foldIds with
    | Err e => Err e
    | Panic e => Panic e
    | Ok testIndices =>
      Ok (map (fun test =>
            let trainIndices :=
              filter (fun j => j ∉ test) (map Z.of_nat (seq 0 (Z.to_nat numSamples))) in
            let trainIndices :=
              if (0 <? length (eventTimes p))%nat then
                let trainIndices := PurgedCVAlgorithm_purgeTrainSamples p trainIndices test in
                if Qltb 0 (embargoPct p)
                then PurgedCVAlgorithm_embargoTrainSamples p trainIndices test
                else trainIndices
              else trainIndices in
            {| TrainIndices := trainIndices; TestIndices := test;
               TrainTimes := PurgedCVAlgorithm_getTimesByIndices p trainIndices;
               TestTimes := PurgedCVAlgorithm_getTimesByIndices p test |})
          testIndices)
    end.

(** [PurgedKFold]: the utility entry point. *)
Definition PurgedKFold (samples : list Time) (numFolds : Z) (embargoPct : Q)
  : result (list CVFold) :=
  PurgedCVAlgorithm_purgedKFold
    {| pcv_base := BaseAlgorithm_zero;
       pcv_config := {| NumFolds := 0; EmbargoPct := 0; TestSize := 0 |};
       numFolds := numFolds; embargoPct := embargoPct;
       testSize := (1 / float_of_int numFolds)%Q;
       syncTimes := samples; eventTimes := [] |}.

Definition PurgedCVAlgorithm_Process `{Runtime W} (p : PurgedCVAlgorithm) (symbol : string)
    (currentData : option MarketData) (historicalData : list MarketData) (w : W)
  : result AlgorithmResult * PurgedCVAlgorithm * W :=
  let n := Z.of_nat (length historicalData) in
  if (n <? numFolds p * 2)%Z then
    (Err "insufficient historical data: got %d, need at least %d", p, w)
  else
    let '(now, w) := time_Now w in
    let baseTime := (now - n * 24 * Hour)%Z in
    let times := map (fun i => (baseTime + Z.of_nat i * 24 * Hour)%Z)
                     (seq 0 (length historicalData)) in
    let p := {| pcv_base := pcv_base p; pcv_config := pcv_config p;
                numFolds := numFolds p; embargoPct := embargoPct p;
                testSize := testSize p; syncTimes := times;
                eventTimes := eventTimes p |} in
    match PurgedCVAlgorithm_purgedKFold p with
    | Err _ => (Err "error generating CV folds: %v", p, w)
    | Panic e => (Panic e, p, w)
    | Ok _ =>
      (Ok {| Signal := "hold"; OrderType := "none"; LimitPrice := None;
             Confidence := (5 # 10)%Q |}, p, w)
    end.

#[export] Instance PurgedCVAlgorithm_Algorithm `{Runtime W}
  : Algorithm W PurgedCVAlgorithm := {
  Name _ := "Purged Cross-Validation";
  Type_ _ := AlgorithmTypePurgedCV;
  Configure := PurgedCVAlgorithm_Configure;
  Process := PurgedCVAlgorithm_Process
}.

(** ** Triple barrier (triple_barrier.go) *)

Definition BarrierType := string.
Definition BarrierTypeUpper : BarrierType := "upper".
Definition BarrierTypeLower : BarrierType := "lower".
Definition BarrierTypeTime : BarrierType := "time".

Definition BarrierLabel := Z.
Definition BarrierLabelSell : BarrierLabel := (-1)%Z.
Definition BarrierLabelHold : BarrierLabel := 0%Z.
Definition BarrierLabelBuy : BarrierLabel := 1%Z.

Record BarrierResult := {
  Label : BarrierLabel;
  ExitTime : Time;
  ExitPrice : Q;
  BarrierHit : BarrierType;
  EntryTime : Time;
  EntryPrice : Q
}.

Record TripleBarrierConfig := {
  ProfitTaking : Q;
  StopLoss : Q;
  TimeHorizon : Z;
  VolatilityLookback : Z
}.

Record TripleBarrierAlgorithm := {
  tb_base : BaseAlgorithm;
  tb_config : TripleBarrierConfig;
  profitTaking : Q;
  stopLoss : Q;
  timeHorizon : Z;
  volatilityWindow : Z
}.

Definition TripleBarrierAlgorithm_zero : TripleBarrierAlgorithm :=
  {| tb_base := BaseAlgorithm_zero;
     tb_config := {| ProfitTaking := 0; StopLoss := 0; TimeHorizon := 0;
                     VolatilityLookback := 0 |};
     profitTaking := 0; stopLoss := 0; timeHorizon := 0; volatilityWindow := 0 |}.

Definition TripleBarrierAlgorithm_Configure (t : TripleBarrierAlgorithm)
    (cfg : AlgorithmConfig) : option string * TripleBarrierAlgorithm :=
  let '(err, b) := BaseAlgorithm_Configure (tb_base t) cfg in
  let mk c pt sl th vw :=
    {| tb_base := b; tb_config := c; profitTaking := pt; stopLoss := sl;
       timeHorizon := th; volatilityWindow := vw |} in
  match err with
  | Some e => (Some e, mk (tb_config t) (profitTaking t) (stopLoss t) (timeHorizon t)
                          (volatilityWindow t))
  | None =>
    let pt := 2%Q in
    let sl := 1%Q in
    let th := 5%Z in
    let vw := 20%Z in
    let params := AdditionalParams cfg in
    match override params "profit_taking" pt (fun val =>
            if Qleb val 0 then Err "profit_taking must be positive" else Ok val) with
    | Ok pt =>
      match override params "stop_loss" sl (fun val =>
              if Qleb val 0 then Err "stop_loss must be positive" else Ok val) with
      | Ok sl =>
        match override params "time_horizon" th (fun val =>
                if Qltb val 1 then Err "time_horizon must be at least 1"
                else Ok (int_of_float val)) with
        | Ok th =>
          match override params "volatility_lookback" vw (fun val =>
                  if Qltb val 1 then Err "volatility_lookback must be at least 1"
                  else Ok (int_of_float val)) with
          | Ok vw =>
              (None, mk {| ProfitTaking := pt; StopLoss := sl; TimeHorizon := th;
                           VolatilityLookback := vw |} pt sl th vw)
          | e => (Some (error_of e), mk (tb_config t) pt sl th vw)
          end
        | e => (Some (error_of e), mk (tb_config t) pt sl th vw)
        end
      | e => (Some (error_of e), mk (tb_config t) pt sl th vw)
      end
    | e => (Some (error_of e), mk (tb_config t) pt sl th vw)
    end
  end.

(** The exponentially weighted pass of [DailyVolatility] over [returns[1:]]. *)
Definition ewmStep (alpha : Q) (state : Q * Q) (r : Q) : Q * Q :=
  let '(ewma, ewmVar) := state in
  let ewma := (alpha * r + (1 - alpha) * ewma)%Q in
  let deviation := (r - ewma)%Q in
  (ewma, (alpha * deviation * deviation + (1 - alpha) * ewmVar)%Q).

Definition DailyVolatility `{Runtime W} (prices : list Q) (span : Z) : result Q :=
  if (length prices <? 2)%nat then
    Err "need at least 2 price points to calculate volatility"
  else if (span <? 1)%Z then Err "span must be at least 1"
  else
    let returns := logReturns prices in
    let alpha := (2 / float_of_int (span + 1))%Q in
    match returns with
    | [] => Panic "index out of range"
    | r0 :: rest =>
        let '(_, ewmVar) := fold_left (ewmStep alpha) rest (r0, 0%Q) in
        Ok (math_Sqrt ewmVar)
    end.

(** The state of the forward walk of [ApplyTripleBarrier] from one entry:
    the barrier hit, the exit index and the label. *)
Definition walkState : Type := BarrierType * nat * BarrierLabel.

(** The [for j := i + 1; j <= timeBarrierIdx; j++] loop: [js] are the
    indices still to visit. *)
Fixpoint barrierWalk (prices : list Q) (upperBarrier lowerBarrier entryPrice : Q)
    (timeBarrierIdx : nat) (js : list nat) (st : walkState) : walkState :=
  match js with
  | [] => st
  | j :: js' =>
      let '(hitBarrier, exitIdx, label) := st in
      let currentPrice := default 0%Q (prices !! j) in
      if Qleb upperBarrier currentPrice then
        (BarrierTypeUpper, j,
         if (label =? BarrierLabelBuy)%Z then BarrierLabelBuy else BarrierLabelSell)
      else if Qleb currentPrice lowerBarrier then
        (BarrierTypeLower, j,
         if (label =? BarrierLabelBuy)%Z then BarrierLabelSell else BarrierLabelBuy)
      else if (j =? timeBarrierIdx)%nat then
        barrierWalk prices upperBarrier lowerBarrier entryPrice timeBarrierIdx js'
          (BarrierTypeTime, j,
           if Qltb entryPrice currentPrice then BarrierLabelBuy
           else if Qltb currentPrice entryPrice then BarrierLabelSell
           else BarrierLabelHold)
      else
        barrierWalk prices upperBarrier lowerBarrier entryPrice timeBarrierIdx js' st
  end.

(** The body of the loop over the entry points. *)
Definition barrierAt (prices : list Q) (times : list Time) (volatility : Q)
    (cfg : TripleBarrierConfig) (i : nat) : BarrierResult :=
  let entryPrice := default 0%Q (prices !! i) in
  let entryTime := default Time_zero (times !! i) in
  let upperBarrier := (entryPrice * (1 + ProfitTaking cfg * volatility))%Q in
  let lowerBarrier := (entryPrice * (1 - StopLoss cfg * volatility))%Q in
  let timeBarrierIdx :=
    Z.min (Z.of_nat i + TimeHorizon cfg) (Z.of_nat (length prices) - 1) in
  let trend :=
    if (0 <? i)%nat
    then (entryPrice - default 0%Q (prices !! (i - 1)%nat))%Q
    else 0%Q in
  let label :=
    if Qltb 0 trend then BarrierLabelBuy
    else if Qltb trend 0 then BarrierLabelSell
    else BarrierLabelHold in
  let js := seq (i + 1) (Z.to_nat (timeBarrierIdx - Z.of_nat i)) in
  let '(hitBarrier, exitIdx, label) :=
    barrierWalk prices upperBarrier lowerBarrier entryPrice (Z.to_nat timeBarrierIdx) js
                ("", 0%nat, label) in
  {| Label := label; EntryTime := entryTime; EntryPrice := entryPrice;
     ExitTime := default Time_zero (times !! exitIdx);
     ExitPrice := default 0%Q (prices !! exitIdx);
     BarrierHit := hitBarrier |}.

Definition ApplyTripleBarrier (prices : list Q) (times : list Time) (volatility : Q)
    (cfg : TripleBarrierConfig) : result (list BarrierResult) :=
  if (length prices <? 2)%nat then Err "need at least 2 price points"
  else if negb (length prices =? length times)%nat then
    Err "prices and times must have the same length"
  else if Qleb volatility 0 then Err "volatility must be positive"
  else Ok (map (barrierAt prices times volatility cfg) (seq 0 (length prices - 1))).

Definition TripleBarrierAlgorithm_Process `{Runtime W} (t : TripleBarrierAlgorithm)
    (symbol : string) (currentData : option MarketData)
    (historicalData : list MarketData) (w : W)
  : result AlgorithmResult * TripleBarrierAlgorithm * W :=
  let n := Z.of_nat (length historicalData) in
  if (n <? volatilityWindow t)%Z then
    (Err "insufficient historical data: need at least %d data points for volatility estimation",
     t, w)
  else
    let prices := map Price historicalData in
    let '(now, w) := time_Now w in
    let baseTime := (now - n * 24 * Hour)%Z in
    let times := map (fun i => (baseTime + Z.of_nat i * 24 * Hour)%Z)
                     (seq 0 (length historicalData)) in
    match DailyVolatility prices (volatilityWindow t) with
    | Err _ => (Err "error calculating volatility: %v", t, w)
    | Panic e => (Panic e, t, w)
    | Ok vol =>
      match ApplyTripleBarrier prices times vol (tb_config t) with
      | Err _ => (Err "error applying triple barrier: %v", t, w)
      | Panic e => (Panic e, t, w)
      | Ok results =>
        match List.last (map Some results) None with
        | None =>
            (Ok {| Signal := "hold"; OrderType := "none"; LimitPrice := None;
                   Confidence := (5 # 10)%Q |}, t, w)
        | Some latestResult =>
            if (Label latestResult =? BarrierLabelBuy)%Z then
              (Ok {| Signal := "buy"; OrderType := "market"; LimitPrice := None;
                     Confidence := (7 # 10)%Q |}, t, w)
            else if (Label latestResult =? BarrierLabelSell)%Z then
              (Ok {| Signal := "sell"; OrderType := "market"; LimitPrice := None;
                     Confidence := (7 # 10)%Q |}, t, w)
            else
              (Ok {| Signal := "hold"; OrderType := "none"; LimitPrice := None;
                     Confidence := (5 # 10)%Q |}, t, w)
        end
      end
    end.

#[export] Instance TripleBarrierAlgorithm_Algorithm `{Runtime W}
  : Algorithm W TripleBarrierAlgorithm := {
  Name _ := "Triple Barrier Method";
  Type_ _ := AlgorithmTypeTripleBarrier;
  Configure := TripleBarrierAlgorithm_Configure;
  Process := TripleBarrierAlgorithm_Process
}.

(** ** Fractional differentiation (fractional_diff.go) *)

(** [weights[k] = weights[k-1] * (-d + float64(k) - 1) / float64(k)], for
    [k], [k+1], ... *)
Fixpoint GetWeights_loop (d : Q) (k : nat) (remaining : nat) (prev : Q) : list Q :=
  match remaining with
  | O => []
  | S remaining' =>
      let wk := (prev * (- d + float_of_nat k - 1) / float_of_nat k)%Q in
      wk :: GetWeights_loop d (S k) remaining' wk
  end.

Definition GetWeights (d : Q) (size : Z) : result (list Q) :=
  if (size <? 0)%Z then Panic "makeslice: len out of range"
  else if (size =? 0)%Z then Panic "index out of range"
  else Ok (1%Q :: GetWeights_loop d 1 (Z.to_nat size - 1) 1%Q).

(** [dot += weights[j] * series[i-j]] for [j < n]. *)
Definition convolveAt (ws series : list Q) (i n : nat) : Q :=
  fold_left (fun dot j =>
               (dot + default 0%Q (ws !! j) * default 0%Q (series !! (i - j)%nat))%Q)
            (seq 0 n) 0%Q.

Definition FixedWidthFractionalDiff (series : list Q) (d : Q) (windowSize : Z)
  : result (list Q) :=
  if (windowSize <? 1)%Z then Err "window size must be at least 1"
  else if (Z.of_nat (length series) <? windowSize)%Z then
    Err "window size cannot exceed series length"
  else
    match GetWeights d windowSize with
    | Ok ws =>
        let wsz := Z.to_nat windowSize in
        Ok (map (fun i => convolveAt ws series i wsz)
                (seq (wsz - 1) (length series - wsz + 1)))
    | e => e
    end.

(** The weight loop of [FFD]; it gives up once [k] passes 100000, so
    100001 rounds are all it can run. *)
Fixpoint FFD_weights (rounds : nat) (d threshold : Q) (k : Z) (wt : Q) : result (list Q) :=
  match rounds with
  | O => Err "weight computation did not converge below threshold"
  | S rounds' =>
      if Qltb threshold (math_Abs wt) then
        let wt := (wt * (- d + float_of_int k - 1) / float_of_int k)%Q in
        if (100000 <? k)%Z then Err "weight computation did not converge below threshold"
        else
          match FFD_weights rounds' d threshold (k + 1) wt with
          | Ok ws => Ok (wt :: ws)
          | e => e
          end
      else Ok []
  end.

Definition FFD (series : list Q) (d threshold : Q) : result (list Q) :=
  if (length series =? 0)%nat then Err "series cannot be empty"
  else if Qleb threshold 0 then Err "threshold must be positive"
  else
    match FFD_weights (Z.to_nat 100001) d threshold 1 1%Q with
    | Ok ws =>
        let ws := 1%Q :: ws in
        let width := length ws in
        Ok (map (fun i => convolveAt ws series i (Nat.min (i + 1) width))
                (seq 0 (length series)))
    | e => e
    end.

Record FractionalDiffAlgorithm := {
  fd_base : BaseAlgorithm;
  d : Q;
  fd_threshold : Q;
  windowSize : Z;
  useFixedWidth : bool
}.

Definition FractionalDiffAlgorithm_zero : FractionalDiffAlgorithm :=
  {| fd_base := BaseAlgorithm_zero; d := 0; fd_threshold := 0; windowSize := 0;
     useFixedWidth := false |}.

Definition FractionalDiffAlgorithm_Configure (f : FractionalDiffAlgorithm)
    (cfg : AlgorithmConfig) : option string * FractionalDiffAlgorithm :=
  let '(err, b) := BaseAlgorithm_Configure (fd_base f) cfg in
  let mk dv th ws fw :=
    {| fd_base := b; d := dv; fd_threshold := th; windowSize := ws; useFixedWidth := fw |} in
  match err with
  | Some e => (Some e, mk (d f) (fd_threshold f) (windowSize f) (useFixedWidth f))
  | None =>
    let dv := (5 # 10)%Q in
    let th := (1 # 100000)%Q in
    let ws := 10%Z in
    let fw := false in
    let params := AdditionalParams cfg in
    match override params "d" dv (fun val =>
            if Qltb val 0 || Qltb 1 val then Err "d must be between 0 and 1"
            else Ok val) with
    | Ok dv =>
      match override params "threshold" th (fun val =>
              if Qleb val 0 then Err "threshold must be positive" else Ok val) with
      | Ok th =>
        match override params "window_size" ws (fun val =>
                if Qltb val 1 then Err "window_size must be at least 1"
                else Ok (int_of_float val)) with
        | Ok ws =>
            let fw := default fw ((fun val => Qltb (1 # 2) val)
                                  <$> params !! "use_fixed_width") in
            (None, mk dv th ws fw)
        | e => (Some (error_of e), mk dv th ws fw)
        end
      | e => (Some (error_of e), mk dv th ws fw)
      end
    | e => (Some (error_of e), mk dv th ws fw)
    end
  end.

Definition FractionalDiffAlgorithm_Process `{Runtime W} (f : FractionalDiffAlgorithm)
    (symbol : string) (currentData : option MarketData)
    (historicalData : list MarketData) (w : W)
  : result AlgorithmResult * FractionalDiffAlgorithm * W :=
  if (length historicalData <? 2)%nat then
    (Err "insufficient historical data for fractional differentiation", f, w)
  else
    let prices := map Price historicalData in
    let diffPrices :=
      if useFixedWidth f then FixedWidthFractionalDiff prices (d f) (windowSize f)
      else FFD prices (d f) (fd_threshold f) in
    match diffPrices with
    | Err e => (Err e, f, w)
    | Panic e => (Panic e, f, w)
    | Ok _ =>
        (Ok {| Signal := "hold"; OrderType := "none"; LimitPrice := None;
               Confidence := (5 # 10)%Q |}, f, w)
    end.

#[export] Instance FractionalDiffAlgorithm_Algorithm `{Runtime W}
  : Algorithm W FractionalDiffAlgorithm := {
  Name _ := "Fractional Differentiation";
  Type_ _ := AlgorithmTypeFractionalDiff;
  Configure := FractionalDiffAlgorithm_Configure;
  Process := FractionalDiffAlgorithm_Process
}.

(** ** The ensemble combiner (algorithm_manager.go) *)

(** What the first loop of [combineResults] accumulates: [signalWeights],
    [totalBuyWeight], [totalSellWeight] and [totalConfidence]. *)
Record tally := {
  signalWeights : gmap string Q;
  totalBuyWeight : Q;
  totalSellWeight : Q;
  totalConfidence : Q
}.

Definition tally_zero : tally :=
  {| signalWeights := ∅; totalBuyWeight := 0; totalSellWeight := 0; totalConfidence := 0 |}.

Definition tallyStep (t : tally) (r : AlgorithmResult) : tally :=
  {| signalWeights :=
       <[Signal r := (default 0%Q (signalWeights t !! Signal r) + Confidence r)%Q]>
         (signalWeights t);
     totalBuyWeight :=
       if String.eqb (Signal r) SignalBuy
       then (totalBuyWeight t + Confidence r)%Q else totalBuyWeight t;
     totalSellWeight :=
       if String.eqb (Signal r) SignalBuy then totalSellWeight t
       else if String.eqb (Signal r) SignalSell
       then (totalSellWeight t + Confidence r)%Q else totalSellWeight t;
     totalConfidence := (totalConfidence t + Confidence r)%Q |}.

Definition tallyResults (results : list AlgorithmResult) : tally :=
  fold_left tallyStep results tally_zero.

(** The normalised weights: each divided by [totalConfidence] when that is
    positive. *)
Definition normalizedWeights (t : tally) : gmap string Q :=
  if Qltb 0 (totalConfidence t)
  then (fun wt => (wt / totalConfidence t)%Q) <$> signalWeights t
  else signalWeights t.

(** The loop that picks the highest weighted signal, over the entries in
    the order the [range] visits them. *)
Definition pickMax (entries : list (string * Q)) : string * Q :=
  fold_left (fun (best : string * Q) (e : string * Q) =>
               if Qltb (snd best) (snd e) then e else best)
            entries ("", 0%Q).

(** The mean of the limit prices of the buy results that carry one. *)
Definition averageBuyLimit (results : list AlgorithmResult) : option Q :=
  let priced := omap (fun r => if String.eqb (Signal r) SignalBuy then LimitPrice r else None)
                     results in
  if (0 <? length priced)%nat
  then Some (Qsum priced / float_of_nat (length priced))%Q
  else None.

Definition combineResults `{Runtime W} (symbol : string) (results : list AlgorithmResult)
    (w : W) : result AlgorithmResult * W :=
  match results with
  | [] => (Err "no results to combine", w)
  | [r] => (Ok r, w)
  | _ =>
    let t := tallyResults results in
    let '(entries, w) := range_map (normalizedWeights t) w in
    let '(combinedSignal, maxWeight) := pickMax entries in
    let '(combinedSignal, maxWeight) :=
      if Qltb (math_Abs (totalBuyWeight t - totalSellWeight t))
              ((2 # 10) * totalConfidence t)%Q
         && (String.eqb combinedSignal SignalBuy || String.eqb combinedSignal SignalSell)
      then (SignalHold, ((totalBuyWeight t + totalSellWeight t) / 2)%Q)
      else (combinedSignal, maxWeight) in
    let '(orderType, limitPrice) :=
      if String.eqb combinedSignal SignalBuy && Qltb (7 # 10) maxWeight
      then ("limit", averageBuyLimit results)
      else ("market", None) in
    (Ok {| Signal := combinedSignal; OrderType := orderType; LimitPrice := limitPrice;
           Confidence := maxWeight |}, w)
  end.

(** ** Package [algorithm]: the trading coordinator (algorithm.go) *)

Module algorithm.

Definition SignalNone : string := "none".
Definition SignalBuy : string := "buy".
Definition SignalSell : string := "sell".
Definition SignalHold : string := "hold".
Definition SignalClose : string := "close".

Record TradeSignal := {
  Symbol : string;
  Signal : string;
  OrderType : string;
  LimitPrice : option Q;
  Reasoning : string;
  Confidence : option Q
}.

Record MarketData := {
  md_Symbol : string;
  Price : Q;
  High24h : Q;
  Low24h : Q;
  Volume24h : Q;
  Change24h : Q
}.

Record PositionData := {
  pos_Symbol : string;
  Quantity : Q;
  AvgPrice : Q;
  MarketVal : Q;
  Profit : Q;
  Return : Q
}.

Record PortfolioData := {
  Balance : Q;
  Positions : gmap string PositionData;
  TotalValue : Q;
  DailyPnL : Q;
  DailyReturn : Q
}.

(** A value held in an [interface{}]: the dynamic types the coordinator
    tells apart, and the rest. *)
Inductive value :=
| VFloat (f : Q)
| VInt (i : Z)
| VString (s : string)
| VBool (b : bool)
| VNil.

Record TradingAlgorithm := {
  marketData : gmap string MarketData;
  signals : gmap string TradeSignal;
  portfolio : PortfolioData;
  riskParameters : gmap string value;
  tradingEnabled : bool
}.

Definition NewTradingAlgorithm : TradingAlgorithm :=
  {| marketData := ∅; signals := ∅;
     portfolio := {| Balance := 0; Positions := ∅; TotalValue := 0; DailyPnL := 0;
                     DailyReturn := 0 |};
     riskParameters :=
       <["max_position_size_percent" := VFloat 5]>
       (<["max_daily_drawdown" := VFloat 10]>
       (<["stop_loss_percent" := VFloat 5]>
       (<["take_profit_percent" := VFloat 15]>
       (<["max_trades_per_day" := VInt 10]> ∅))));
     tradingEnabled := false |}.

Definition percentKeys : list string :=
  ["max_position_size_percent"; "max_daily_drawdown"; "stop_loss_percent";
   "take_profit_percent"].

(** The body of the validation loop of [UpdateRiskParameters] for one entry:
    an error, or the value the loop writes back into [params] (if any). *)
Definition validateParameter (k : string) (v : value) : result (option value) :=
  if bool_decide (k ∈ percentKeys) then
    match v with
    | VFloat val =>
        if Qleb val 0 then Err "parameter %s must be positive" else Ok None
    | VInt val =>
        if (val <=? 0)%Z then Err "parameter %s must be positive"
        else Ok (Some (VFloat (float_of_int val)))
    | _ => Err "parameter %s must be numeric"
    end
  else if String.eqb k "max_trades_per_day" then
    match v with
    | VFloat val =>
        if Qleb val 0 || negb (Qeqb (math_Floor val) val)
        then Err "parameter %s must be a positive integer"
        else Ok (Some (VInt (int_of_float val)))
    | VInt val =>
        if (val <=? 0)%Z then Err "parameter %s must be positive" else Ok None
    | _ => Err "parameter %s must be an integer"
    end
  else Err "unknown parameter: %s".

(** The validation loop over the entries in the order [range] visits them;
    [params] is the caller's map, rewritten in place as the loop goes. *)
Fixpoint validateParameters (entries : list (string * value)) (params : gmap string value)
  : result (gmap string value) :=
  match entries with
  | [] => Ok params
  | (k, v) :: entries' =>
      match validateParameter k v with
      | Ok None => validateParameters entries' params
      | Ok (Some v') => validateParameters entries' (<[k := v']> params)
      | Err e => Err e
      | Panic e => Panic e
      end
  end.

(** [UpdateRiskParameters]: the error if any and the coordinator after the
    call. *)
Definition UpdateRiskParameters `{Runtime W} (a : TradingAlgorithm)
    (params : gmap string value) (w : W) : option string * TradingAlgorithm * W :=
  let '(entries, w) := range_map params w in
  match validateParameters entries params with
  | Err e | Panic e => (Some e, a, w)
  | Ok params =>
    let '(entries, w) := range_map params w in
    let updated := fold_left (fun m '(k, v) => <[k := v]> m) entries (riskParameters a) in
    (None,
     {| marketData := marketData a; signals := signals a; portfolio := portfolio a;
        riskParameters := updated; tradingEnabled := tradingEnabled a |}, w)
  end.

(** [calculatePositionSize]: whole shares, negative for a short. *)
Definition calculatePositionSize (positionValue currentPrice : Q) (isBuy : bool) : Q :=
  let currentPrice := if Qleb currentPrice 0 then 1%Q else currentPrice in
  let qty := float_of_int (int_of_float (positionValue / currentPrice)) in
  if negb isBuy then (- qty)%Q else qty.

(** The order the gate arrives at; the source logs it, the broker call
    itself being commented out. *)
Record Order := {
  o_symbol : string;
  side : string;
  qty : Q;
  o_orderType : string;
  limitPrice : Q
}.

(** [riskParams["max_position_size_percent"].(float64)], 5.0 when the
    assertion fails. *)
Definition maxPositionSizePercent (riskParams : gmap string value) : Q :=
  match riskParams !! "max_position_size_percent" with
  | Some (VFloat maxPosSize) => maxPosSize
  | _ => 5%Q
  end.

(** [ExecuteTrade]: an error, or the order placed, or nothing to do. *)
Definition ExecuteTrade (a : TradingAlgorithm) (signal : option TradeSignal)
  : result (option Order) :=
  match signal with
  | None => Err "signal is nil"
  | Some signal =>
    match marketData a !! Symbol signal with
    | None => Err "market data not found for symbol: %s"
    | Some md =>
      let position := Positions (portfolio a) !! Symbol signal in
      let hasLong :=
        match position with
        | Some pos => Qltb 0 (Quantity pos)
        | None => false
        end in
      let limit := default 0%Q (LimitPrice signal) in
      let positionValue :=
        (TotalValue (portfolio a) * (maxPositionSizePercent (riskParameters a) / 100))%Q in
      let order sd q :=
        {| o_symbol := Symbol signal; side := sd; qty := q;
           o_orderType := OrderType signal; limitPrice := limit |} in
      if String.eqb (Signal signal) SignalBuy then
        if hasLong then Ok None
        else Ok (Some (order "buy" (calculatePositionSize positionValue (Price md) true)))
      else if String.eqb (Signal signal) SignalSell then
        match position with
        | Some pos =>
            if Qltb 0 (Quantity pos) then Ok (Some (order "sell" (Quantity pos)))
            else Ok (Some (order "sell"
                             (calculatePositionSize positionValue (Price md) false)))
        | None =>
            Ok (Some (order "sell" (calculatePositionSize positionValue (Price md) false)))
        end
      else if String.eqb (Signal signal) SignalClose then
        match position with
        | None => Ok None
        | Some pos =>
            Ok (Some (order (if Qltb 0 (Quantity pos) then "sell" else "buy")
                            (math_Abs (Quantity pos))))
        end
      else if String.eqb (Signal signal) SignalHold then Ok None
      else Err "unknown signal type: %s"
    end
  end.

(** *** Vocabulary of the statements about the coordinator *)

(** The specification's reading of a valid entry of a risk-parameter
    update: one of the four percent fields with a positive number, or
    [max_trades_per_day] with a positive integer (a float counts when it is
    integral). *)
Definition valid_risk_parameter (k : string) (v : value) : Prop :=
  (k ∈ percentKeys /\
     ((exists f, v = VFloat f /\ (0 < f)%Q) \/ (exists i, v = VInt i /\ (0 < i)%Z)))
  \/ (k = "max_trades_per_day" /\
        ((exists i, v = VInt i /\ (0 < i)%Z)
         \/ (exists f, v = VFloat f /\ (0 < f)%Q /\ (inject_Z (Qfloor f) == f)%Q))).

(** Whether the portfolio holds a long position in the symbol. *)
Definition holdsLong (a : TradingAlgorithm) (symbol : string) : Prop :=
  exists pos, Positions (portfolio a) !! symbol = Some pos /\ (0 < Quantity pos)%Q.

(** The notional of a new position:
    [totalValue * (max_position_size_percent / 100)]. *)
Definition notional (a : TradingAlgorithm) : Q :=
  (TotalValue (portfolio a) * (maxPositionSizePercent (riskParameters a) / 100))%Q.

Definition buySignal (symbol orderType : string) (limit : option Q) : TradeSignal :=
  {| Symbol := symbol; Signal := SignalBuy; OrderType := orderType; LimitPrice := limit;
     Reasoning := "scenario"; Confidence := None |}.

(** A coordinator that follows the symbol [X] at the given price, with the
    given equity, no position and the risk parameters it starts with. *)
Definition coordinatorAt (price totalValue : Q) : TradingAlgorithm :=
  {| marketData := {[ "X" := {| md_Symbol := "X"; Price := price; High24h := 0;
                                Low24h := 0; Volume24h := 0; Change24h := 0 |} ]};
     signals := ∅;
     portfolio := {| Balance := 0; Positions := ∅; TotalValue := totalValue;
                     DailyPnL := 0; DailyReturn := 0 |};
     riskParameters := riskParameters NewTradingAlgorithm;
     tradingEnabled := true |}.

(** *** Market data of the coordinator *)

(** The zero value of [MarketData], which a read of a missing map key
    returns. *)
Definition MarketData_zero : MarketData :=
  {| md_Symbol := ""; Price := 0; High24h := 0; Low24h := 0; Volume24h := 0;
     Change24h := 0 |}.

(** [UpdateMarketData]: the entry of the symbol is replaced; a change of 0
    is computed from the price held before, when there is one and it is
    positive. *)
Definition UpdateMarketData (a : TradingAlgorithm) (symbol : string)
    (price high24h low24h volume24h change24h : Q) : TradingAlgorithm :=
  let change24h :=
    match marketData a !! symbol with
    | Some currentData =>
        if Qeqb change24h 0 && Qltb 0 (Price currentData)
        then ((price - Price currentData) / Price currentData * 100)%Q
        else change24h
    | None => change24h
    end in
  {| marketData :=
       <[symbol := {| md_Symbol := symbol; Price := price; High24h := high24h;
                      Low24h := low24h; Volume24h := volume24h;
                      Change24h := change24h |}]> (marketData a);
     signals := signals a; portfolio := portfolio a;
     riskParameters := riskParameters a; tradingEnabled := tradingEnabled a |}.

Definition GetMarketData (a : TradingAlgorithm) (symbol : string) : MarketData :=
  default MarketData_zero (marketData a !! symbol).

(** The value [UpdateRiskParameters] stores for a valid entry: an [int]
    given for a percent field is stored as [float64], a [float64] given for
    [max_trades_per_day] as [int]. *)
Definition stored_value (k : string) (v : value) : value :=
  match v with
  | VInt i => if bool_decide (k ∈ percentKeys) then VFloat (float_of_int i) else v
  | VFloat f =>
      if bool_decide (k ∈ percentKeys) then v
      else if String.eqb k "max_trades_per_day" then VInt (int_of_float f) else v
  | _ => v
  end.

End algorithm.

(** ** A deterministic runtime

    One runtime among those the model ranges over, used to run the model on
    concrete inputs: the state is a counter of the draws made so far, a
    [range] visits a map in the order of [map_to_list], the clock stands
    still, and the three [math] functions are rational approximations
    ([Qsqrt] is exact on squares). *)

Definition Qsqrt (x : Q) : Q := Z.sqrt (Qnum x * Zpos (Qden x)) # Qden x.
Definition Qlog1 (x : Q) : Q := (2 * (x - 1) / (x + 1))%Q.
Definition Qexp2 (x : Q) : Q := (1 + x + x * x / 2)%Q.

#[export] Instance counter_Runtime : Runtime nat := {
  rand_Intn n w := (Z.of_nat w mod n, S w)%Z;
  rand_Float64 w := ((1 # 2)%Q, S w);
  range_perm n w := (seq 0 n, w);
  time_Now w := (0%Z, w);
  math_Sqrt := Qsqrt;
  math_Log := Qlog1;
  math_Exp := Qexp2
}.

(** The registry with the one factory the composed algorithms look up first. *)
Definition primaryRegistry `{Runtime W} (algType : AlgorithmType) : option (FactoryFunc W) :=
  if String.eqb algType AlgorithmTypeSequentialBootstrap
  then Some SequentialBootstrap_factory
  else None.

(** ** Vocabulary of the statements *)

(** A bar of the symbol [X] at the given price. *)
Definition bar (p : Q) : MarketData :=
  {| Symbol := "X"; Price := p; High24h := p; Low24h := p; Volume24h := 0;
     Change24h := 0 |}.

(** Four closes with returns -0.4, -0.3 and -0.2: mean -0.3, standard
    deviation 0.1. *)
Definition fallingPrices : list Q := [100; 60; 42; 336 # 10]%Q.

(** [n] sample times, one per hour and one per day. *)
Definition hourly (n : nat) : list Time := map (fun i => (Z.of_nat i * Hour)%Z) (seq 0 n).
Definition daily (n : nat) : list Time :=
  map (fun i => (Z.of_nat i * 24 * Hour)%Z) (seq 0 n).

(** A configuration with the given options and zero common fields. *)
Definition configWith (params : gmap string Q) : AlgorithmConfig :=
  {| RiskAversion := 0; MaxPositionWeight := 0; MinPositionWeight := 0;
     TargetReturn := 0; HistoricalDays := 0; AdditionalParams := params |}.

(** The sum of the confidences of the results that carry the tag. *)
Definition confidenceOf (tag : string) (results : list AlgorithmResult) : Q :=
  Qsum (map Confidence (filter (fun r => Signal r = tag) results)).

(** The three results of the specification's ensemble scenario; their order
    types and limit prices are free. *)
Definition ensembleScenario (ot1 ot2 ot3 : string) (lp1 lp2 lp3 : option Q)
  : list AlgorithmResult :=
  [ {| Signal := "buy"; OrderType := ot1; LimitPrice := lp1; Confidence := 8 # 10 |};
    {| Signal := "buy"; OrderType := ot2; LimitPrice := lp2; Confidence := 7 # 10 |};
    {| Signal := "sell"; OrderType := ot3; LimitPrice := lp3; Confidence := 4 # 10 |} ].

(** The validated options of an algorithm, each with the range the
    specification gives it. *)
Definition optionRanges := list (string * (Q -> bool)).

Definition out_of_range (ranges : optionRanges) (params : gmap string Q) : Prop :=
  exists key inRange val,
    (key, inRange) ∈ ranges /\ params !! key = Some val /\ inRange val = false.

Definition SequentialBootstrap_ranges : optionRanges :=
  [("lookback_period", fun v => Qleb 1 v);
   ("confidence_threshold", fun v => Qleb 0 v && Qleb v 1);
   ("sample_size", fun v => Qleb 1 v)].

Definition PurgedCV_ranges : optionRanges :=
  [("num_folds", fun v => Qleb 2 v);
   ("embargo_pct", fun v => Qleb 0 v && Qleb v (5 # 10));
   ("test_size", fun v => Qltb 0 v && Qltb v 1)].

Definition FractionalDiff_ranges : optionRanges :=
  [("d", fun v => Qleb 0 v && Qleb v 1);
   ("threshold", fun v => Qltb 0 v);
   ("window_size", fun v => Qleb 1 v)].

Definition TripleBarrier_ranges : optionRanges :=
  [("profit_taking", fun v => Qltb 0 v);
   ("stop_loss", fun v => Qltb 0 v);
   ("time_horizon", fun v => Qleb 1 v);
   ("volatility_lookback", fun v => Qleb 1 v)].

Definition PositionSizing_ranges : optionRanges :=
  [("max_size", fun v => Qltb 0 v && Qleb v 1);
   ("risk_fraction", fun v => Qltb 0 v && Qleb v 1);
   ("vol_lookback", fun v => Qleb 1 v);
   ("max_drawdown", fun v => Qltb 0 v && Qleb v (5 # 10))].

Definition MetaLabeling_ranges : optionRanges :=
  [("confidence_threshold", fun v => Qleb 0 v && Qleb v 1)].

(** Every feature family of Meta-Labeling is switched off. *)
Definition no_feature_enabled (params : gmap string Q) : Prop :=
  forall key, key ∈ ["use_price_features"; "use_volume_features";
                     "use_volatility_features"; "use_technical_features"] ->
    exists val, params !! key = Some val /\ (val <= 1 # 2)%Q.

(** A Sequential Bootstrap instance that samples 3 of 4 columns. *)
Definition smallBootstrap : SequentialBootstrapAlgorithm :=
  (SequentialBootstrapAlgorithm_Configure SequentialBootstrapAlgorithm_zero
     (configWith (<["lookback_period" := 4%Q]> (<["sample_size" := 3%Q]> ∅)))).2.

(** ** Further laws of the runtime, and further functions of the packages *)

(** [rand.Intn(n)] returns a value in [[0, n)] (for [n <= 0] it panics,
    which the model leaves open). *)
Class RandInRange (W : Type) `{Runtime W} : Prop :=
  rand_Intn_range : forall (n : Z) (w : W), (0 < n)%Z ->
    (0 <= (rand_Intn n w).1 < n)%Z.

(** *** sequential_bootstrap.go, sequential_bootstrap_utils.go *)

(** [calculateAverageUniqueness]: the share of distinct values among the
    samples, 1.0 for at most one sample. *)
Definition calculateAverageUniqueness (samples : list Z) : Q :=
  if (length samples <=? 1)%nat then 1%Q
  else
    let uniqueValues : gset Z := list_to_set samples in
    (float_of_nat (size uniqueValues) / float_of_nat (length samples))%Q.

(** [calculateOverlap]: 1 minus the share of distinct values, 0 for at
    most one sample. *)
Definition calculateOverlap (samples : list Z) : Q :=
  if (length samples <=? 1)%nat then 0%Q
  else
    let uniqueCount : gset Z := list_to_set samples in
    let uniqueRatio := (float_of_nat (size uniqueCount) / float_of_nat (length samples))%Q in
    (1 - uniqueRatio)%Q.

(** [normalizeWeights]: the weights divided by their sum, or equal weights
    when the sum is within 1e-10 of zero.  The sum is taken over the
    entries of the map; in exact arithmetic it does not depend on the order
    in which the [range] visits them. *)
Definition normalizeWeights (weights : gmap string Q) : gmap string Q :=
  let sum := Qsum (map snd (map_to_list weights)) in
  if Qltb (math_Abs sum) (1 # 10000000000) then
    let equalWeight := (1 / float_of_nat (size weights))%Q in
    (fun _ => equalWeight) <$> weights
  else (fun weight => (weight / sum)%Q) <$> weights.

(** *** purged_cv.go: walk-forward validation *)

(** A slice expression [l[lo:hi]]. *)
Definition slice {A : Type} (l : list A) (lo hi : Z) : result (list A) :=
  if (lo <? 0)%Z || (hi <? lo)%Z || (Z.of_nat (length l) <? hi)%Z
  then Panic "slice bounds out of range"
  else Ok (take (Z.to_nat (hi - lo)) (drop (Z.to_nat lo) l)).

(** The order of the entries [timeIndex{time, index}] after the sort: an
    entry is not after the entries that follow it. *)
Definition time_le (a b : Time * Z) : Prop := (a.1 <= b.1)%Z.

#[export] Instance time_le_dec : RelDecision time_le := fun a b => decide (a.1 <= b.1)%Z.

(** What [sort.Slice] with the comparison [time.Before] guarantees: the
    same entries, in an order in which no entry is before an earlier one.
    The order among entries of equal time is left to the library. *)
Definition sorts_by_time (sort_Slice : list (Time * Z) -> list (Time * Z)) : Prop :=
  forall l, sort_Slice l ≡ₚ l /\ StronglySorted time_le (sort_Slice l).

(** [WalkForwardValidation], over the sort it calls. *)
Definition WalkForwardValidation (sort_Slice : list (Time * Z) -> list (Time * Z))
    (samples : list Time) (numFolds : Z) (embargoPct : Q) : result (list CVFold) :=
  let n := Z.of_nat (length samples) in
  if (n <? numFolds * 2)%Z then Err "insufficient samples: got %d, need at least %d"
  else
    let sampleIndices := zip samples (map Z.of_nat (seq 0 (length samples))) in
    let sortedIndices := map snd (sort_Slice sampleIndices) in
    if (numFolds =? 0)%Z then Panic "integer divide by zero"
    else
      let foldSize := Z.quot (Z.of_nat (length sortedIndices)) numFolds in
      if (numFolds <? 0)%Z then Panic "makeslice: len out of range"
      else
        collect (fun i =>
          let testStart := (i * foldSize)%Z in
          let testEnd :=
            if (i =? numFolds - 1)%Z then Z.of_nat (length sortedIndices)
            else ((i + 1) * foldSize)%Z in
          match slice sortedIndices testStart testEnd with
          | Err e => Err e
          | Panic e => Panic e
          | Ok testIndices =>
            match slice sortedIndices 0 testStart with
            | Err e => Err e
            | Panic e => Panic e
            | Ok trainIndices =>
              let trainIndices :=
                if Qltb 0 embargoPct && (0 <? length trainIndices)%nat then
                  let embargoSize :=
                    int_of_float (math_Ceil (float_of_int n * embargoPct)) in
                  if (0 <? embargoSize)%Z && (embargoSize <=? testStart)%Z
                  then take (Z.to_nat (testStart - embargoSize)) trainIndices
                  else trainIndices
                else trainIndices in
              Ok {| TrainIndices := trainIndices; TestIndices := testIndices;
                    TrainTimes := map (fun idx => default Time_zero (timeAt samples idx))
                                      trainIndices;
                    TestTimes := map (fun idx => default Time_zero (timeAt samples idx))
                                     testIndices |}
            end
          end) (map Z.of_nat (seq 0 (Z.to_nat numFolds))).

(** A sort to run the model with: merge sort by time. *)
Definition sort_by_time (l : list (Time * Z)) : list (Time * Z) :=
  merge_sort time_le l.

(** *** triple_barrier.go: meta-labels *)

(** [GetMetaLabels]: a trade counts as successful when it was labelled buy
    and exited above its entry, or labelled sell and exited below it. *)
Definition GetMetaLabels (barrierResults : list BarrierResult) : list bool :=
  map (fun result =>
         ((Label result =? BarrierLabelBuy)%Z && Qltb (EntryPrice result) (ExitPrice result))
         || ((Label result =? BarrierLabelSell)%Z
             && Qltb (ExitPrice result) (EntryPrice result)))
      barrierResults.

(** * Properties *)

(** The deterministic runtime visits every key of a map. *)
#[export] Instance counter_RangeVisitsAll : RangeVisitsAll nat.
Proof. intros n w. reflexivity. Qed.

(** ** Comparisons and conversions *)

Lemma Qltb_lt (x y : Q) : Qltb x y = true <-> (x < y)%Q.
Proof.
  unfold Qltb. rewrite negb_true_iff, <- not_true_iff_false, Qle_bool_iff.
  split; [apply Qnot_le_lt | apply Qlt_not_le].
Qed.

Lemma Qltb_ge (x y : Q) : Qltb x y = false <-> (y <= x)%Q.
Proof. unfold Qltb. rewrite negb_false_iff, Qle_bool_iff. reflexivity. Qed.

Lemma Qleb_le (x y : Q) : Qleb x y = true <-> (x <= y)%Q.
Proof. apply Qle_bool_iff. Qed.

Lemma Qleb_gt (x y : Q) : Qleb x y = false <-> (y < x)%Q.
Proof.
  unfold Qleb. rewrite <- not_true_iff_false, Qle_bool_iff.
  split; [apply Qnot_le_lt | apply Qlt_not_le].
Qed.

Lemma Qeqb_eq (x y : Q) : Qeqb x y = true <-> (x == y)%Q.
Proof. apply Qeq_bool_iff. Qed.

#[export] Instance Qltb_Proper : Proper (Qeq ==> Qeq ==> eq) Qltb.
Proof.
  intros x x' Hx y y' Hy.
  destruct (Qltb x y) eqn:E1, (Qltb x' y') eqn:E2; try reflexivity.
  - apply Qltb_lt in E1. apply Qltb_ge in E2. rewrite Hx, Hy in E1.
    exfalso. exact (Qlt_not_le _ _ E1 E2).
  - apply Qltb_ge in E1. apply Qltb_lt in E2. rewrite <- Hx, <- Hy in E2.
    exfalso. exact (Qlt_not_le _ _ E2 E1).
Qed.

#[export] Instance Qleb_Proper : Proper (Qeq ==> Qeq ==> eq) Qleb.
Proof.
  intros x x' Hx y y' Hy.
  destruct (Qleb x y) eqn:E1, (Qleb x' y') eqn:E2; try reflexivity.
  - apply Qleb_le in E1. apply Qleb_gt in E2. rewrite Hx, Hy in E1.
    exfalso. exact (Qlt_not_le _ _ E2 E1).
  - apply Qleb_gt in E1. apply Qleb_le in E2. rewrite <- Hx, <- Hy in E2.
    exfalso. exact (Qlt_not_le _ _ E1 E2).
Qed.

(** On a non-negative value the conversion to [int] is the floor. *)
Lemma int_of_float_floor (x : Q) : (0 <= x)%Q -> int_of_float x = Qfloor x.
Proof.
  destruct x as [n dn]. unfold Qle, int_of_float, Qfloor. simpl. intros Hn.
  apply Z.quot_div_nonneg; lia.
Qed.

Lemma override_empty {A} key (cur : A) block : override ∅ key cur block = Ok cur.
Proof. unfold override. rewrite lookup_empty. reflexivity. Qed.

(** ** The order of a [range] *)

Lemma omap_lookup_seq {A} (pre l : list A) :
  omap (fun i => (pre ++ l) !! i) (seq (length pre) (length l)) = l.
Proof.
  revert pre. induction l as [|x l IH]; intros pre; [reflexivity|].
  cbn [length seq]. change (omap ?f (?a :: ?r)) with
    (match f a with Some y => y :: omap f r | None => omap f r end).
  cbv beta. rewrite list_lookup_middle by reflexivity.
  f_equal. specialize (IH (pre ++ [x])).
  rewrite <- app_assoc, length_app in IH. cbn in IH.
  rewrite Nat.add_1_r in IH. exact IH.
Qed.

Lemma range_map_Permutation `{Runtime W} `{!RangeVisitsAll W} `{Countable K} {V}
    (m : gmap K V) (w : W) :
  (range_map m w).1 ≡ₚ map_to_list m.
Proof.
  unfold range_map.
  pose proof (range_perm_Permutation (length (map_to_list m)) w) as Hp.
  destruct (range_perm _ w) as [p w']. cbn [fst] in *.
  rewrite Hp. pose proof (omap_lookup_seq [] (map_to_list m)) as Hl.
  cbn [app length] in Hl. rewrite Hl. reflexivity.
Qed.

Lemma range_map_lookup `{Runtime W} `{!RangeVisitsAll W} `{Countable K} {V}
    (m : gmap K V) (w : W) k v :
  (k, v) ∈ (range_map m w).1 <-> m !! k = Some v.
Proof. rewrite range_map_Permutation. apply elem_of_map_to_list. Qed.

(** ** Confidence of the single-asset optimisers (C1) *)

Lemma Qsqrt_hundredth (x : Q) : (x == 1 # 100)%Q -> (Qsqrt x == 1 # 10)%Q.
Proof.
  destruct x as [n dn]. unfold Qeq, Qsqrt. simpl. intros Hx.
  assert (Hd : Zpos dn = (100 * n)%Z) by lia.
  rewrite Hd.
  replace (n * (100 * n))%Z with ((10 * n) * (10 * n))%Z by ring.
  rewrite Z.sqrt_square by lia. lia.
Qed.

(** C1 fails on the code.  On the closes 100, 60, 42, 33.6 (returns -0.4,
    -0.3, -0.2) [MVOAlgorithm.Process] with its default options returns,
    without error, a sell whose confidence is 0.7 - min(0.2, -3) = 3.7,
    outside [0, 1]; all that is asked of the runtime is that
    [math.Sqrt(0.01)] is 0.1. *)
Theorem MVO_sell_confidence_above_one `{Runtime W} (w : W) (data : MarketData) :
  (forall x, (x == 1 # 100)%Q -> (math_Sqrt x == 1 # 10)%Q) ->
  exists r m',
    MVOAlgorithm_Process MVOAlgorithm_zero "X" (Some data) (map bar fallingPrices) w
      = (Ok r, m', w)
    /\ Signal r = "sell" /\ OrderType r = "market"
    /\ (Confidence r == 37 # 10)%Q /\ ~ (Confidence r <= 1)%Q.
Proof.
  intros Hsqrt.
  unfold MVOAlgorithm_Process.
  cbn [map fallingPrices bar Price simpleReturns length Nat.ltb Nat.leb
       MVOAlgorithm_zero mvo_base BaseAlgorithm_zero config AlgorithmConfig_zero
       AdditionalParams].
  rewrite !lookup_empty. cbn [default].
  set (risk := standardDeviation _).
  set (mu := mean _).
  assert (Hrisk : (risk == 1 # 10)%Q).
  { subst risk. unfold standardDeviation. cbn [length Nat.ltb Nat.leb].
    apply Hsqrt. vm_compute. reflexivity. }
  assert (Hmean : (mu == - (3 # 10))%Q) by (vm_compute; reflexivity).
  assert (E1 : Qltb 0 risk = true) by (rewrite Hrisk; reflexivity).
  rewrite E1.
  assert (E2 : Qltb (1 # 2) (mu / risk) = false) by (rewrite Hrisk, Hmean; reflexivity).
  assert (E3 : Qltb 0 (mu / risk) = false) by (rewrite Hrisk, Hmean; reflexivity).
  rewrite E2, E3. cbn [andb].
  eexists _, _. split; [reflexivity|]. cbn [Signal OrderType Confidence].
  assert (Hc : ((7 # 10) - math_Min (2 # 10) (mu / risk) == 37 # 10)%Q).
  { unfold math_Min. rewrite Hrisk, Hmean. reflexivity. }
  repeat split; try exact Hc.
  rewrite Hc. intros Hle. vm_compute in Hle. apply Hle. reflexivity.
Qed.

Lemma MVO_sell_confidence_above_one_witness :
  exists r m',
    MVOAlgorithm_Process (W := nat) MVOAlgorithm_zero "X" (Some (bar (336 # 10)))
                         (map bar fallingPrices) 0%nat
      = (Ok r, m', 0%nat)
    /\ Signal r = "sell" /\ OrderType r = "market"
    /\ (Confidence r == 37 # 10)%Q /\ ~ (Confidence r <= 1)%Q.
Proof.
  apply (MVO_sell_confidence_above_one (W := nat) 0%nat (bar (336 # 10))).
  exact Qsqrt_hundredth.
Defined.

(** The sibling branch of HRP is bounded: its sell confidence is
    0.6 + min(0.3, |sharpe| / 5), which stays within [0.6, 0.9]. *)
Lemma HRP_sell_confidence_bounded (sharpeRatio : Q) :
  (6 # 10 <= (6 # 10) + math_Min (3 # 10) (math_Abs sharpeRatio / 5))%Q
  /\ ((6 # 10) + math_Min (3 # 10) (math_Abs sharpeRatio / 5) <= 9 # 10)%Q.
Proof.
  unfold math_Min, math_Abs.
  pose proof (Qabs_nonneg sharpeRatio) as Hn.
  assert (H0 : (0 <= Qabs sharpeRatio / 5)%Q).
  { apply Qle_shift_div_l; [reflexivity|]. lra. }
  destruct (Q.min_spec (3 # 10) (Qabs sharpeRatio / 5)) as [[Hlt ->]|[Hle ->]]; lra.
Qed.

(** ** Sequential Bootstrap under its defaults (C2) *)
Lemma SB_Configure_default (s0 : SequentialBootstrapAlgorithm) (cfg : AlgorithmConfig) :
  AdditionalParams cfg = ∅ ->
  SequentialBootstrapAlgorithm_Configure s0 cfg =
    (None, {| sb_base := {| config := cfg |}; lookbackPeriod := 20;
              sb_confidenceThreshold := 65 # 100; useSequential := true;
              sampleSize := 50; lastSamples := lastSamples s0 |}).
Proof.
  intros Hp. unfold SequentialBootstrapAlgorithm_Configure, BaseAlgorithm_Configure.
  rewrite Hp, !override_empty, lookup_empty. reflexivity.
Qed.

Lemma SB_Process_oversampled `{Runtime W} (s : SequentialBootstrapAlgorithm)
    symbol data (hist : list MarketData) (w : W) :
  (0 < lookbackPeriod s)%Z -> (lookbackPeriod s < sampleSize s)%Z ->
  useSequential s = true ->
  SequentialBootstrapAlgorithm_Process s symbol data hist w =
    if (Z.of_nat (length hist) <? lookbackPeriod s)%Z
    then (Err "insufficient historical data: got %d, need at least %d", s, w)
    else (Err "sequential bootstrap failed: %v", s, w).
Proof.
  intros Hlb Hss Hseq. unfold SequentialBootstrapAlgorithm_Process.
  destruct (Z.of_nat (length hist) <? lookbackPeriod s)%Z eqn:Hlen; [reflexivity|].
  apply Z.ltb_ge in Hlen.
  replace (lookbackPeriod s <? 0)%Z with false by (symmetry; apply Z.ltb_ge; lia).
  set (hist' := if (lookbackPeriod s <? Z.of_nat (length hist))%Z then _ else hist).
  assert (Hn : Z.of_nat (length hist') = lookbackPeriod s).
  { subst hist'. destruct (lookbackPeriod s <? Z.of_nat (length hist))%Z eqn:E.
    - apply Z.ltb_lt in E. rewrite length_drop. lia.
    - apply Z.ltb_ge in E. lia. }
  unfold getIndMatrix. rewrite !length_map, !length_seq.
  replace (length hist' =? 0)%nat with false by (symmetry; apply Nat.eqb_neq; lia).
  cbn [orb]. rewrite Hseq. unfold seqBootstrap. cbn [mat_cols].
  rewrite Hn.
  replace (lookbackPeriod s =? 0)%Z with false by (symmetry; apply Z.eqb_neq; lia).
  replace (sampleSize s <=? 0)%Z with false by (symmetry; apply Z.leb_gt; lia).
  replace (lookbackPeriod s <? sampleSize s)%Z with true by (symmetry; apply Z.ltb_lt; lia).
  reflexivity.
Qed.

Section Propagation.
Context `{Runtime W}.
Variable registry : AlgorithmType -> option (FactoryFunc W).
Hypothesis registered :
  registry AlgorithmTypeSequentialBootstrap = Some SequentialBootstrap_factory.

Lemma runWithDefaults_bootstrap what symbol data (hist : list MarketData) (w : W) :
  runWithDefaults registry AlgorithmTypeSequentialBootstrap what symbol data hist w =
    (Err ("error processing " +:+ what +:+ " algorithm: %v"), w).
Proof using registered.
  unfold runWithDefaults, Create. rewrite registered.
  cbn [factory_new factory_impl SequentialBootstrap_factory Configure Process
       SequentialBootstrapAlgorithm_Algorithm].
  rewrite SB_Configure_default by reflexivity.
  rewrite SB_Process_oversampled by (cbn; first [lia | reflexivity]).
  destruct (_ <? _)%Z; reflexivity.
Qed.

Lemma Meta_Process_default (m : MetaLabelingAlgorithm) symbol data hist (w : W) :
  ml_primaryAlgorithm m = AlgorithmTypeSequentialBootstrap ->
  MetaLabelingAlgorithm_Process registry m symbol data hist w =
    if (length hist <? 10)%nat
    then (Err "insufficient historical data for meta-labeling", m, w)
    else (Err "error processing primary algorithm: %v", m, w).
Proof using registered.
  intros Hp. unfold MetaLabelingAlgorithm_Process.
  destruct (length hist <? 10)%nat; [reflexivity|].
  rewrite Hp, runWithDefaults_bootstrap. reflexivity.
Qed.

Lemma PS_Process_default (p : PositionSizingAlgorithm) symbol data hist (w : W) :
  ps_primaryAlgorithm p = AlgorithmTypeSequentialBootstrap ->
  PositionSizingAlgorithm_Process registry p symbol data hist w =
    if (Z.of_nat (length hist) <? volLookback p)%Z
    then (Err "insufficient historical data: got %d, need at least %d", p, w)
    else (Err "error processing primary algorithm: %v", p, w).
Proof using registered.
  intros Hp. unfold PositionSizingAlgorithm_Process.
  destruct (_ <? _)%Z; [reflexivity|].
  rewrite Hp, runWithDefaults_bootstrap. reflexivity.
Qed.

End Propagation.

Lemma Meta_Configure_default (m0 : MetaLabelingAlgorithm) (cfg : AlgorithmConfig) :
  AdditionalParams cfg = ∅ ->
  (MetaLabelingAlgorithm_Configure m0 cfg).1 = None /\
  ml_primaryAlgorithm (MetaLabelingAlgorithm_Configure m0 cfg).2
    = AlgorithmTypeSequentialBootstrap.
Proof.
  intros Hp. unfold MetaLabelingAlgorithm_Configure, BaseAlgorithm_Configure.
  rewrite Hp, !override_empty, !lookup_empty. cbn. split; reflexivity.
Qed.

Lemma PS_Configure_default (p0 : PositionSizingAlgorithm) (cfg : AlgorithmConfig) :
  AdditionalParams cfg = ∅ ->
  (PositionSizingAlgorithm_Configure p0 cfg).1 = None /\
  ps_primaryAlgorithm (PositionSizingAlgorithm_Configure p0 cfg).2
    = AlgorithmTypeSequentialBootstrap /\
  volLookback (PositionSizingAlgorithm_Configure p0 cfg).2 = 20%Z.
Proof.
  intros Hp. unfold PositionSizingAlgorithm_Configure, BaseAlgorithm_Configure.
  rewrite Hp, !override_empty, !lookup_empty. cbn. repeat split; reflexivity.
Qed.

(** C2. With its default options (lookback 20, sample size 50, sequential
    sampling) Sequential Bootstrap returns an error on every history of at
    least 20 bars: the indicator matrix has 20 columns and [seqBootstrap]
    refuses to draw 50.  Meta-Labeling and Position Sizing, which create
    and configure their primary with [AlgorithmConfig{}] on every call,
    hand that error on, and return an error on every input. *)
Theorem default_bootstrap_always_fails `{Runtime W}
    (registry : AlgorithmType -> option (FactoryFunc W))
    (cfg : AlgorithmConfig) (symbol : string) (data : option MarketData)
    (hist : list MarketData) (w : W) :
  registry AlgorithmTypeSequentialBootstrap = Some SequentialBootstrap_factory ->
  AdditionalParams cfg = ∅ ->
  (20 <= length hist)%nat ->
  (forall s0,
     let configured := SequentialBootstrapAlgorithm_Configure s0 cfg in
     configured.1 = None /\
     lookbackPeriod configured.2 = 20%Z /\ sampleSize configured.2 = 50%Z /\
     useSequential configured.2 = true /\
     SequentialBootstrapAlgorithm_Process configured.2 symbol data hist w
       = (Err "sequential bootstrap failed: %v", configured.2, w)) /\
  (forall m0,
     let configured := MetaLabelingAlgorithm_Configure m0 cfg in
     configured.1 = None /\
     MetaLabelingAlgorithm_Process registry configured.2 symbol data hist w
       = (Err "error processing primary algorithm: %v", configured.2, w) /\
     forall symbol' data' hist' w',
       is_Err (MetaLabelingAlgorithm_Process registry configured.2
                 symbol' data' hist' w').1.1 = true) /\
  (forall p0,
     let configured := PositionSizingAlgorithm_Configure p0 cfg in
     configured.1 = None /\
     PositionSizingAlgorithm_Process registry configured.2 symbol data hist w
       = (Err "error processing primary algorithm: %v", configured.2, w) /\
     forall symbol' data' hist' w',
       is_Err (PositionSizingAlgorithm_Process registry configured.2
                 symbol' data' hist' w').1.1 = true).
Proof.
  intros Hreg Hp Hlen. repeat split.
  - rewrite SB_Configure_default by done. reflexivity.
  - rewrite SB_Configure_default by done. reflexivity.
  - rewrite SB_Configure_default by done. reflexivity.
  - rewrite SB_Configure_default by done. reflexivity.
  - rewrite SB_Configure_default by done. cbn [snd].
    rewrite SB_Process_oversampled by (cbn; first [lia | reflexivity]).
    cbn [lookbackPeriod].
    replace (Z.of_nat (length hist) <? 20)%Z with false
      by (symmetry; apply Z.ltb_ge; lia).
    reflexivity.
  - apply Meta_Configure_default, Hp.
  - rewrite (Meta_Process_default registry Hreg)
      by (apply Meta_Configure_default, Hp).
    replace (length hist <? 10)%nat with false by (symmetry; apply Nat.ltb_ge; lia).
    reflexivity.
  - intros. rewrite (Meta_Process_default registry Hreg)
      by (apply Meta_Configure_default, Hp).
    destruct (_ <? _)%nat; reflexivity.
  - apply PS_Configure_default, Hp.
  - destruct (PS_Configure_default p0 cfg Hp) as (_ & Hprim & Hvl).
    rewrite (PS_Process_default registry Hreg) by exact Hprim.
    rewrite Hvl.
    replace (Z.of_nat (length hist) <? 20)%Z with false
      by (symmetry; apply Z.ltb_ge; lia).
    reflexivity.
  - intros. destruct (PS_Configure_default p0 cfg Hp) as (_ & Hprim & Hvl).
    rewrite (PS_Process_default registry Hreg) by exact Hprim.
    destruct (_ <? _)%Z; reflexivity.
Qed.

Lemma default_bootstrap_always_fails_witness :
  primaryRegistry (W := nat) AlgorithmTypeSequentialBootstrap
    = Some SequentialBootstrap_factory
  /\ AdditionalParams AlgorithmConfig_zero = ∅
  /\ (20 <= length (replicate 20 (bar 100)))%nat
  /\ (let configured :=
         SequentialBootstrapAlgorithm_Configure SequentialBootstrapAlgorithm_zero
                                                AlgorithmConfig_zero in
       SequentialBootstrapAlgorithm_Process (W := nat) configured.2 "X" (Some (bar 100))
                                            (replicate 20 (bar 100)) 0%nat
         = (Err "sequential bootstrap failed: %v", configured.2, 0%nat))
  /\ (let configured :=
         MetaLabelingAlgorithm_Configure MetaLabelingAlgorithm_zero AlgorithmConfig_zero in
       MetaLabelingAlgorithm_Process (W := nat) primaryRegistry configured.2 "X"
                                     (Some (bar 100)) (replicate 20 (bar 100)) 0%nat
         = (Err "error processing primary algorithm: %v", configured.2, 0%nat))
  /\ (let configured :=
         PositionSizingAlgorithm_Configure PositionSizingAlgorithm_zero
                                           AlgorithmConfig_zero in
       PositionSizingAlgorithm_Process (W := nat) primaryRegistry configured.2 "X"
                                       (Some (bar 100)) (replicate 20 (bar 100)) 0%nat
         = (Err "error processing primary algorithm: %v", configured.2, 0%nat)).
Proof.
  assert (H1 : primaryRegistry (W := nat) AlgorithmTypeSequentialBootstrap
               = Some SequentialBootstrap_factory) by reflexivity.
  assert (H2 : AdditionalParams AlgorithmConfig_zero = ∅) by reflexivity.
  assert (H3 : (20 <= length (replicate 20 (bar 100)))%nat) by (cbn; lia).
  destruct (default_bootstrap_always_fails (W := nat) primaryRegistry AlgorithmConfig_zero
              "X" (Some (bar 100)) (replicate 20 (bar 100)) 0%nat H1 H2 H3)
    as (Hs & Hm & Hp).
  split; [exact H1|]. split; [exact H2|]. split; [exact H3|].
  split; [apply Hs|]. split; [apply Hm | apply Hp].
Defined.

(** ** The order gate (C3) *)

Section Gate.
Import algorithm.

Lemma holdsLong_dec (a : TradingAlgorithm) (symbol : string) :
  match Positions (portfolio a) !! symbol with
  | Some pos => Qltb 0 (Quantity pos)
  | None => false
  end = true <-> holdsLong a symbol.
Proof.
  unfold holdsLong. destruct (Positions (portfolio a) !! symbol) as [pos|].
  - rewrite Qltb_lt. split; [eauto|]. by intros (pos' & [= <-] & Hq).
  - split; [done|]. by intros (? & [=] & _).
Qed.


Lemma coordinatorAt_no_long price totalValue symbol :
  ~ holdsLong (coordinatorAt price totalValue) symbol.
Proof. intros (pos & Hpos & _). cbn in Hpos. by rewrite lookup_empty in Hpos. Qed.



End Gate.

(** ** Risk parameters (C4) *)

Section RiskParameters.
Import algorithm.

Lemma validateParameter_Ok (k : string) (v : value) :
  is_Ok (validateParameter k v) = true <-> valid_risk_parameter k v.
Proof.
  unfold validateParameter, valid_risk_parameter.
  destruct (bool_decide (k ∈ percentKeys)) eqn:Hk.
  - apply bool_decide_eq_true in Hk.
    assert (Hne : k <> "max_trades_per_day").
    { intros ->. revert Hk. unfold percentKeys. rewrite !elem_of_cons, elem_of_nil.
      intros [?|[?|[?|[?|[]]]]]; discriminate. }
    destruct v as [f|i|s|b|]; cbn.
    + destruct (Qleb f 0) eqn:E; cbn.
      * apply Qleb_le in E. split; [discriminate|].
        intros [(_ & [(f' & [= <-] & Hf)|(i & [=] & _)])|(? & _)]; [|done].
        exfalso. exact (Qlt_not_le _ _ Hf E).
      * apply Qleb_gt in E. split; [|done]. intros _. left. split; [done|]. left. eauto.
    + destruct (i <=? 0)%Z eqn:E; cbn.
      * apply Z.leb_le in E. split; [discriminate|].
        intros [(_ & [(f' & [=] & _)|(i' & [= <-] & Hi)])|(? & _)]; [lia|done].
      * apply Z.leb_gt in E. split; [|done]. intros _. left. split; [done|]. right. eauto.
    + split; [discriminate|].
      intros [(_ & [(? & [=] & _)|(? & [=] & _)])|(? & _)]; done.
    + split; [discriminate|].
      intros [(_ & [(? & [=] & _)|(? & [=] & _)])|(? & _)]; done.
    + split; [discriminate|].
      intros [(_ & [(? & [=] & _)|(? & [=] & _)])|(? & _)]; done.
  - apply bool_decide_eq_false in Hk.
    destruct (String.eqb k "max_trades_per_day") eqn:Hm.
    + apply String.eqb_eq in Hm.
      destruct v as [f|i|s|b|]; cbn.
      * destruct (Qleb f 0) eqn:E; cbn.
        -- apply Qleb_le in E. split; [discriminate|].
           intros [(? & _)|(_ & [(? & [=] & _)|(f' & [= <-] & Hf & _)])]; [done|].
           exfalso. exact (Qlt_not_le _ _ Hf E).
        -- apply Qleb_gt in E.
           destruct (Qeqb (math_Floor f) f) eqn:Ef; cbn.
           ++ apply Qeqb_eq in Ef. split; [|done]. intros _. right. split; [done|].
              right. exists f. done.
           ++ split; [discriminate|].
              intros [(? & _)|(_ & [(? & [=] & _)|(f' & [= <-] & _ & Hfl)])]; [done|].
              apply Qeqb_eq in Hfl. unfold math_Floor in Ef. congruence.
      * destruct (i <=? 0)%Z eqn:E; cbn.
        -- apply Z.leb_le in E. split; [discriminate|].
           intros [(? & _)|(_ & [(i' & [= <-] & Hi)|(? & [=] & _)])]; [done|lia].
        -- apply Z.leb_gt in E. split; [|done]. intros _. right. split; [done|].
           left. eauto.
      * split; [discriminate|].
        intros [(? & _)|(_ & [(? & [=] & _)|(? & [=] & _)])]; done.
      * split; [discriminate|].
        intros [(? & _)|(_ & [(? & [=] & _)|(? & [=] & _)])]; done.
      * split; [discriminate|].
        intros [(? & _)|(_ & [(? & [=] & _)|(? & [=] & _)])]; done.
    + apply String.eqb_neq in Hm. cbn. split; [discriminate|].
      intros [(? & _)|(? & _)]; done.
Qed.

Lemma validateParameters_Err entries params k v :
  (k, v) ∈ entries -> is_Ok (validateParameter k v) = false ->
  is_Ok (validateParameters entries params) = false.
Proof.
  revert params. induction entries as [|[k' v'] entries IH]; intros params Hin Hbad.
  - by apply elem_of_nil in Hin.
  - cbn [validateParameters]. apply elem_of_cons in Hin as [[= <- <-]|Hin].
    + destruct (validateParameter k v) as [[?|]| |]; done.
    + destruct (validateParameter k' v') as [[?|]| |]; try done; by apply IH.
Qed.

Lemma validateParameters_Ok entries params :
  (forall k v, (k, v) ∈ entries -> is_Ok (validateParameter k v) = true) ->
  is_Ok (validateParameters entries params) = true.
Proof.
  revert params. induction entries as [|[k' v'] entries IH]; intros params Hall; [done|].
  cbn [validateParameters].
  pose proof (Hall k' v' ltac:(left)) as Hk.
  destruct (validateParameter k' v') as [[?|]| |]; try done;
    apply IH; intros; apply Hall; by right.
Qed.

(** C4. [UpdateRiskParameters] is atomic: a call that returns an error
    leaves the stored risk parameters (the whole coordinator) as they were;
    it returns an error as soon as one entry of the map is not valid (an
    unknown key, a non-positive percent, a non-positive or non-integral
    [max_trades_per_day]); and it succeeds when every entry is valid. *)
Theorem UpdateRiskParameters_atomic `{Runtime W} `{!RangeVisitsAll W}
    (a : TradingAlgorithm) (params : gmap string value) (w : W) :
  let outcome := UpdateRiskParameters a params w in
  (outcome.1.1 <> None -> outcome.1.2 = a)
  /\ ((exists k v, params !! k = Some v /\ ~ valid_risk_parameter k v) ->
      outcome.1.1 <> None /\ outcome.1.2 = a)
  /\ ((forall k v, params !! k = Some v -> valid_risk_parameter k v) ->
      outcome.1.1 = None).
Proof.
  cbv zeta. unfold UpdateRiskParameters.
  pose proof (range_map_lookup params w) as Hrange.
  destruct (range_map params w) as [entries w1]. cbn [fst] in Hrange.
  split; [|split].
  - destruct (validateParameters entries params) as [params'| |]; cbn; try done.
    destruct (range_map params' w1). cbn. done.
  - intros (k & v & Hkv & Hbad).
    assert (Hb : is_Ok (validateParameter k v) = false).
    { apply not_true_is_false. by rewrite validateParameter_Ok. }
    apply Hrange in Hkv.
    pose proof (validateParameters_Err entries params k v Hkv Hb) as He.
    destruct (validateParameters entries params); cbn in *; done.
  - intros Hall.
    assert (Hok : is_Ok (validateParameters entries params) = true).
    { apply validateParameters_Ok. intros k v Hkv. apply validateParameter_Ok, Hall.
      by apply Hrange. }
    destruct (validateParameters entries params) as [params'| |]; try done.
    destruct (range_map params' w1). reflexivity.
Qed.


Lemma UpdateRiskParameters_atomic_witness :
  let params : gmap string value :=
    <["stop_loss_percent" := VFloat 2]> (<["max_leverage" := VFloat 3]> ∅) in
  let outcome := UpdateRiskParameters (W := nat) NewTradingAlgorithm params 0%nat in
  params !! "max_leverage" = Some (VFloat 3)
  /\ ~ valid_risk_parameter "max_leverage" (VFloat 3)
  /\ outcome.1.1 <> None /\ outcome.1.2 = NewTradingAlgorithm.
Proof.
  cbv zeta.
  assert (Hl : (<["stop_loss_percent" := VFloat 2]> (<["max_leverage" := VFloat 3]> ∅)
                : gmap string value) !! "max_leverage" = Some (VFloat 3)) by reflexivity.
  assert (Hbad : ~ valid_risk_parameter "max_leverage" (VFloat 3)).
  { rewrite <- validateParameter_Ok. discriminate. }
  split; [exact Hl|]. split; [exact Hbad|].
  apply (UpdateRiskParameters_atomic (W := nat) NewTradingAlgorithm _ 0%nat).
  eauto.
Defined.

End RiskParameters.

(** ** Purged k-fold (C5) *)

Lemma purge_subset (p : PurgedCVAlgorithm) (train test : list Z) j :
  j ∈ PurgedCVAlgorithm_purgeTrainSamples p train test -> j ∈ train.
Proof.
  unfold PurgedCVAlgorithm_purgeTrainSamples. case_match; [done|].
  intros Hj. by apply list_elem_of_filter in Hj as [_ Hj].
Qed.

Lemma embargo_subset (p : PurgedCVAlgorithm) (train test : list Z) j :
  j ∈ PurgedCVAlgorithm_embargoTrainSamples p train test -> j ∈ train.
Proof.
  unfold PurgedCVAlgorithm_embargoTrainSamples. case_match; [done|].
  intros Hj. by apply list_elem_of_filter in Hj as [_ Hj].
Qed.

(** The part of C5 that the code keeps: in every fold that [purgedKFold]
    returns, whatever the sizes, the embargo and the event times, no index
    is both a training and a test index. *)
Lemma purgedKFold_train_test_disjoint (p : PurgedCVAlgorithm) (folds : list CVFold)
    (fold : CVFold) (j : Z) :
  PurgedCVAlgorithm_purgedKFold p = Ok folds -> fold ∈ folds ->
  j ∈ TrainIndices fold -> j ∉ TestIndices fold.
Proof.
  unfold PurgedCVAlgorithm_purgedKFold. intros Hf Hin Hj.
  destruct (length (syncTimes p) =? 0)%nat; [discriminate|].
  destruct (numFolds p <? 0)%Z; [discriminate|].
  destruct (collect _ _) as [tests| |]; try discriminate.
  injection Hf as <-.
  apply list_elem_of_fmap in Hin as (test & -> & _).
  cbn [TrainIndices TestIndices] in Hj |- *.
  assert (Hbase : j ∈ filter (fun j => j ∉ test)
                            (map Z.of_nat (seq 0 (Z.to_nat (Z.of_nat (length (syncTimes p))))))).
  { destruct (0 <? length (eventTimes p))%nat; [destruct (Qltb 0 (embargoPct p))|];
      eauto using purge_subset, embargo_subset. }
  apply list_elem_of_filter in Hbase as [Hn _]. exact Hn.
Qed.

(** C5 fails on the code.  [PurgedKFold] over 10 samples with 3 folds and
    no embargo cuts windows of ceil(10/3) = 4 indices that start at 0, 4
    and 8; the third runs past the end and wraps around to 0 and 1, so
    these two indices are test indices of the first fold and of the third. *)
Theorem PurgedKFold_wraps_around :
  exists f0 f1 f2,
    PurgedKFold (hourly 10) 3 0 = Ok [f0; f1; f2]
    /\ TestIndices f0 = [0; 1; 2; 3]%Z
    /\ TestIndices f1 = [4; 5; 6; 7]%Z
    /\ TestIndices f2 = [0; 1; 8; 9]%Z
    /\ (0%Z ∈ TestIndices f0 /\ 0%Z ∈ TestIndices f2).
Proof.
  eexists _, _, _. split; [vm_compute; reflexivity|]. cbn [TestIndices].
  repeat split; apply list_elem_of_here.
Qed.

(** The scenario of the specification, 100 samples in 5 folds, divides
    evenly and is a partition: five test sets of 20 indices, every index
    in exactly one of them. *)
Lemma PurgedKFold_100_5_partition :
  exists folds,
    PurgedKFold (hourly 100) 5 0 = Ok folds
    /\ length folds = 5%nat
    /\ concat (map TestIndices folds) = map Z.of_nat (seq 0 100).
Proof. eexists. split; [vm_compute; reflexivity|]. split; reflexivity. Qed.

(** ** Triple barrier (C6) *)

(** C6 fails on the code.  On the closes 100, 102, ..., 110 the call
    returns five results and the first hits the upper barrier (104 is at
    least 103), but its label is -1: the first entry has no prior return,
    its direction is seeded as hold, and an upper hit turns every seed
    other than buy into sell.  The entries that follow an up-move are
    seeded buy and confirmed. *)
Theorem ApplyTripleBarrier_first_label :
  exists r0 r1 r2 r3 r4,
    ApplyTripleBarrier [100; 102; 104; 106; 108; 110]%Q (daily 6) (1 # 100)
      {| ProfitTaking := 3; StopLoss := 2; TimeHorizon := 5; VolatilityLookback := 20 |}
      = Ok [r0; r1; r2; r3; r4]
    /\ BarrierHit r0 = BarrierTypeUpper
    /\ Label r0 = BarrierLabelSell
    /\ Label r0 <> BarrierLabelBuy
    /\ (BarrierHit r1 = BarrierTypeUpper /\ Label r1 = BarrierLabelBuy).
Proof.
  eexists _, _, _, _, _. split; [vm_compute; reflexivity|].
  cbn [BarrierHit Label]. repeat split. discriminate.
Qed.

(** The walk from one entry, over the indices [a, a+1, ...] up to the
    time barrier: if it starts from a seed other than buy and ends on the
    upper barrier, the label is sell. *)
Lemma barrierWalk_upper_not_buy prices upper lower entry timeIdx n :
  forall a st,
    (a + n <= timeIdx + 1)%nat ->
    st.1.1 <> BarrierTypeUpper -> st.2 <> BarrierLabelBuy ->
    let out := barrierWalk prices upper lower entry timeIdx (seq a n) st in
    out.1.1 = BarrierTypeUpper -> out.2 = BarrierLabelSell.
Proof.
  induction n as [|n IH]; intros a [[hit exitIdx] seed] Hlen Hhit Hseed; cbn [fst snd] in *.
  - cbn. intros Hu. by destruct Hhit.
  - cbn [seq barrierWalk].
    destruct (Qleb upper _).
    { cbn [fst snd]. intros _. by apply Z.eqb_neq in Hseed as ->. }
    destruct (Qleb _ lower); [cbn; discriminate|].
    destruct (a =? timeIdx)%nat eqn:Ea.
    + apply Nat.eqb_eq in Ea. assert (n = 0%nat) as -> by lia. cbn. discriminate.
    + apply IH; [lia|done|done].
Qed.

(** For every input, the result at the first entry (index 0) has no
    prior return, so its seed is hold; it can therefore not be both an
    upper-barrier hit and a buy. *)
Lemma barrierAt_first_entry prices times volatility cfg :
  let r := barrierAt prices times volatility cfg 0 in
  BarrierHit r = BarrierTypeUpper -> Label r = BarrierLabelSell.
Proof.
  unfold barrierAt. cbn [Nat.ltb Nat.leb Qltb].
  set (tb := Z.min _ _).
  pose proof (barrierWalk_upper_not_buy prices
    (default 0%Q (prices !! 0%nat) * (1 + ProfitTaking cfg * volatility))
    (default 0%Q (prices !! 0%nat) * (1 - StopLoss cfg * volatility))
    (default 0%Q (prices !! 0%nat)) (Z.to_nat tb)
    (Z.to_nat (tb - Z.of_nat 0)) (0 + 1)%nat ("", 0%nat, BarrierLabelHold)) as Hw.
  cbn [fst snd] in Hw. cbv zeta in Hw.
  destruct (barrierWalk _ _ _ _ _ _ _) as [[hit exitIdx] label].
  cbn [fst snd BarrierHit Label] in *. intros Hu.
  apply Hw; [lia|discriminate|discriminate|exact Hu].
Qed.

(** ** The ensemble combiner (combineResults) *)

Lemma fold_tally_buy results t :
  totalBuyWeight (fold_left tallyStep results t)
  = fold_left Qplus (map Confidence (filter (fun r => Signal r = SignalBuy) results))
              (totalBuyWeight t).
Proof.
  revert t. induction results as [|r results IH]; intros t; [reflexivity|].
  cbn [fold_left]. rewrite IH. rewrite filter_cons.
  cbn [tallyStep totalBuyWeight].
  destruct (String.eqb (Signal r) SignalBuy) eqn:E.
  - apply String.eqb_eq in E. rewrite decide_True by done. reflexivity.
  - apply String.eqb_neq in E. rewrite decide_False by done. reflexivity.
Qed.

Lemma fold_tally_sell results t :
  totalSellWeight (fold_left tallyStep results t)
  = fold_left Qplus (map Confidence (filter (fun r => Signal r = SignalSell) results))
              (totalSellWeight t).
Proof.
  revert t. induction results as [|r results IH]; intros t; [reflexivity|].
  cbn [fold_left]. rewrite IH. rewrite filter_cons.
  cbn [tallyStep totalSellWeight].
  destruct (String.eqb (Signal r) SignalBuy) eqn:Eb.
  - apply String.eqb_eq in Eb. rewrite decide_False; [reflexivity|].
    rewrite Eb. discriminate.
  - destruct (String.eqb (Signal r) SignalSell) eqn:E.
    + apply String.eqb_eq in E. rewrite decide_True by done. reflexivity.
    + apply String.eqb_neq in E. rewrite decide_False by done. reflexivity.
Qed.

Lemma fold_tally_total results t :
  totalConfidence (fold_left tallyStep results t)
  = fold_left Qplus (map Confidence results) (totalConfidence t).
Proof.
  revert t. induction results as [|r results IH]; intros t; [reflexivity|].
  cbn [fold_left map]. rewrite IH. reflexivity.
Qed.

(** The three sums of the combiner are the sums of the specification. *)
Lemma tallyResults_sums results :
  totalBuyWeight (tallyResults results) = confidenceOf SignalBuy results
  /\ totalSellWeight (tallyResults results) = confidenceOf SignalSell results
  /\ totalConfidence (tallyResults results) = Qsum (map Confidence results).
Proof.
  unfold tallyResults, confidenceOf, Qsum.
  rewrite fold_tally_buy, fold_tally_sell, fold_tally_total. done.
Qed.

Lemma ensemble_entries ot1 ot2 ot3 lp1 lp2 lp3 :
  exists wb wsl,
    map_to_list (normalizedWeights
                   (tallyResults (ensembleScenario ot1 ot2 ot3 lp1 lp2 lp3)))
      ≡ₚ [("buy", wb); ("sell", wsl)]
    /\ (wb == 15 # 19)%Q /\ (wsl == 4 # 19)%Q.
Proof.
  eexists _, _. split.
  - vm_compute. apply perm_swap.
  - split; reflexivity.
Qed.



(** ** Fractional-differentiation weights (GetWeights) *)

Lemma float_of_nat_pos (k : nat) : (0 < k)%nat -> (0 < float_of_nat k)%Q.
Proof.
  intros Hk. unfold float_of_nat. change 0%Q with (inject_Z 0).
  rewrite <- Zlt_Qlt. lia.
Qed.

Lemma float_of_nat_S (k : nat) : (float_of_nat (S k) == float_of_nat k + 1)%Q.
Proof.
  unfold float_of_nat. rewrite Nat2Z.inj_succ. unfold Z.succ.
  rewrite inject_Z_plus. reflexivity.
Qed.

Lemma GetWeights_loop_length d k n prev : length (GetWeights_loop d k n prev) = n.
Proof. revert k prev. induction n; intros; cbn; [done|]. by rewrite IHn. Qed.

(** Two neighbours of the slice are related by the loop body. *)
Lemma GetWeights_loop_step d k n prev i :
  (i < n)%nat ->
  exists wi wp, (prev :: GetWeights_loop d k n prev) !! S i = Some wi
    /\ (prev :: GetWeights_loop d k n prev) !! i = Some wp
    /\ wi = (wp * (- d + float_of_nat (k + i) - 1) / float_of_nat (k + i))%Q.
Proof.
  revert k prev i. induction n as [|n IH]; intros k prev i Hi; [lia|].
  cbn [GetWeights_loop]. destruct i as [|i].
  - cbn. rewrite Nat.add_0_r. eauto.
  - destruct (IH (S k) (prev * (- d + float_of_nat k - 1) / float_of_nat k)%Q i
                 ltac:(lia)) as (wi & wp & H1 & H2 & H3).
    exists wi, wp. split; [exact H1|]. split; [exact H2|].
    rewrite H3. replace (S k + i)%nat with (k + S i)%nat by lia. reflexivity.
Qed.

Lemma GetWeights_loop_prefix d k n n' prev :
  (n <= n')%nat -> take n (GetWeights_loop d k n' prev) = GetWeights_loop d k n prev.
Proof.
  revert k n' prev. induction n as [|n IH]; intros k n' prev Hn; [by rewrite take_0|].
  destruct n' as [|n']; [lia|]. cbn [GetWeights_loop take]. f_equal. apply IH. lia.
Qed.

Lemma GetWeights_Ok d (n : nat) :
  (1 <= n)%nat ->
  GetWeights d (Z.of_nat n) = Ok (1%Q :: GetWeights_loop d 1 (n - 1) 1%Q).
Proof.
  intros Hn. unfold GetWeights.
  replace (Z.of_nat n <? 0)%Z with false by (symmetry; apply Z.ltb_ge; lia).
  replace (Z.of_nat n =? 0)%Z with false by (symmetry; apply Z.eqb_neq; lia).
  rewrite Nat2Z.id. reflexivity.
Qed.

(** The factor of the recursion has absolute value at most 1 for
    [0 <= d <= 1]. *)
Lemma weight_factor_bound (d : Q) (k : nat) :
  (0 <= d)%Q -> (d <= 1)%Q -> (1 <= k)%nat ->
  (Qabs ((- d + float_of_nat k - 1) / float_of_nat k) <= 1)%Q.
Proof.
  intros Hd0 Hd1 Hk.
  pose proof (float_of_nat_pos k ltac:(lia)) as Hpos.
  assert (Hk1 : (1 <= float_of_nat k)%Q).
  { unfold float_of_nat. change 1%Q with (inject_Z 1). rewrite <- Zle_Qle. lia. }
  apply Qabs_Qle_condition. split.
  - apply Qle_shift_div_l; [exact Hpos|]. lra.
  - apply Qle_shift_div_r; [exact Hpos|]. lra.
Qed.

Lemma weights_abs_step (d wp : Q) (k : nat) :
  (0 <= d)%Q -> (d <= 1)%Q -> (1 <= k)%nat ->
  (Qabs (wp * (- d + float_of_nat k - 1) / float_of_nat k) <= Qabs wp)%Q.
Proof.
  intros Hd0 Hd1 Hk.
  assert (E : (wp * (- d + float_of_nat k - 1) / float_of_nat k
               == wp * ((- d + float_of_nat k - 1) / float_of_nat k))%Q).
  { unfold Qdiv. ring. }
  rewrite E, Qabs_Qmult.
  rewrite <- (Qmult_1_r (Qabs wp)) at 2.
  rewrite (Qmult_comm (Qabs wp) (Qabs _)), (Qmult_comm (Qabs wp) 1).
  apply Qmult_le_compat_r; [by apply weight_factor_bound | apply Qabs_nonneg].
Qed.

(** Within the slice the absolute values never grow. *)
Lemma weights_abs_chain (d : Q) (n i j : nat) wi wj :
  (0 <= d)%Q -> (d <= 1)%Q -> (i <= j)%nat ->
  (1%Q :: GetWeights_loop d 1 n 1%Q) !! i = Some wi ->
  (1%Q :: GetWeights_loop d 1 n 1%Q) !! j = Some wj ->
  (Qabs wj <= Qabs wi)%Q.
Proof.
  intros Hd0 Hd1 Hij Hi. revert wj. induction j as [|j IH]; intros wj Hj.
  - assert (i = 0)%nat as -> by lia. rewrite Hi in Hj. injection Hj as <-. apply Qle_refl.
  - destruct (decide (i = S j)) as [->|Hne].
    + rewrite Hi in Hj. injection Hj as <-. apply Qle_refl.
    + assert (Hjn : (j < n)%nat).
      { apply lookup_lt_Some in Hj. cbn in Hj. rewrite GetWeights_loop_length in Hj. lia. }
      destruct (GetWeights_loop_step d 1 n 1%Q j Hjn) as (w' & wp & H1 & H2 & H3).
      rewrite H1 in Hj. injection Hj as <-.
      apply Qle_trans with (Qabs wp); [|apply IH; [lia|exact H2]].
      rewrite H3. apply weights_abs_step; [done|done|lia].
Qed.

(** C8. For [0 <= d <= 1] and [n >= 1], [GetWeights(d, n)] returns [n]
    weights, the first exactly 1, each next one [w[k-1] * (k-1-d) / k]; the
    absolute value of the last weight does not grow with [n]; and for
    [d = 1] the weights are 1, -1, 0, 0, ... *)
Theorem GetWeights_spec (d : Q) (n : nat) :
  (0 <= d)%Q -> (d <= 1)%Q -> (1 <= n)%nat ->
  exists ws, GetWeights d (Z.of_nat n) = Ok ws
    /\ length ws = n
    /\ ws !! 0%nat = Some 1%Q
    /\ (forall k wk wp, (1 <= k)%nat -> ws !! k = Some wk -> ws !! (k - 1)%nat = Some wp ->
          (wk == wp * (float_of_nat k - 1 - d) / float_of_nat k)%Q)
    /\ (forall n' ws' wn wn', (n <= n')%nat -> GetWeights d (Z.of_nat n') = Ok ws' ->
          last ws = Some wn -> last ws' = Some wn' -> (Qabs wn' <= Qabs wn)%Q)
    /\ ((d == 1)%Q ->
          (forall w1, ws !! 1%nat = Some w1 -> (w1 == -1)%Q)
          /\ (forall k wk, (2 <= k)%nat -> ws !! k = Some wk -> (wk == 0)%Q)).
Proof.
  intros Hd0 Hd1 Hn. eexists. split; [by apply GetWeights_Ok|].
  set (ws := (1%Q :: GetWeights_loop d 1 (n - 1) 1%Q)).
  assert (Hlen : length ws = n).
  { subst ws. cbn. rewrite GetWeights_loop_length. lia. }
  assert (Hstep : forall k wk wp, (1 <= k)%nat -> ws !! k = Some wk ->
            ws !! (k - 1)%nat = Some wp ->
            wk = (wp * (- d + float_of_nat k - 1) / float_of_nat k)%Q).
  { intros k wk wp Hk Hwk Hwp. destruct k as [|k]; [lia|].
    assert (Hkn : (k < n - 1)%nat).
    { apply lookup_lt_Some in Hwk. lia. }
    destruct (GetWeights_loop_step d 1 (n - 1) 1%Q k Hkn) as (wi & wp' & H1 & H2 & H3).
    fold ws in H1, H2. replace (S k - 1)%nat with k in Hwp by lia.
    rewrite H1 in Hwk. rewrite H2 in Hwp. injection Hwk as <-. injection Hwp as <-.
    rewrite H3. reflexivity. }
  split; [exact Hlen|]. split; [reflexivity|]. split; [|split].
  - intros k wk wp Hk Hwk Hwp. rewrite (Hstep k wk wp Hk Hwk Hwp).
    unfold Qdiv. ring.
  - intros n' ws' wn wn' Hnn' Hws' Hlast Hlast'.
    rewrite GetWeights_Ok in Hws' by lia. injection Hws' as <-.
    rewrite last_lookup in Hlast, Hlast'. rewrite Hlen in Hlast.
    cbn [length] in Hlast'. rewrite GetWeights_loop_length in Hlast'.
    assert (Hpre : ws = take n (1%Q :: GetWeights_loop d 1 (n' - 1) 1%Q)).
    { subst ws. destruct n as [|n]; [lia|]. cbn [take].
      rewrite GetWeights_loop_prefix by lia. f_equal. f_equal. lia. }
    rewrite Hpre, lookup_take_lt in Hlast by lia.
    apply (weights_abs_chain d (n' - 1) (pred n) (pred (S (n' - 1)))); try done.
    cbn. lia.
  - intros Hd. 
    assert (H1 : forall w1, ws !! 1%nat = Some w1 -> (w1 == -1)%Q).
    { intros w1 Hw1. rewrite (Hstep 1%nat w1 1%Q ltac:(lia) Hw1 eq_refl).
      rewrite Hd. reflexivity. }
    split; [exact H1|].
    intros k. induction k as [|k IH]; intros wk Hk Hwk; [lia|].
    assert (is_Some (ws !! k)) as [wp Hwp].
    { apply lookup_lt_is_Some. apply lookup_lt_Some in Hwk. lia. }
    pose proof (Hstep (S k) wk wp ltac:(lia) Hwk) as Hs.
    replace (S k - 1)%nat with k in Hs by lia. rewrite (Hs Hwp).
    destruct (decide (k = 1%nat)) as [->|Hk1].
    + rewrite Hd. change (float_of_nat 2) with 2%Q. field.
    + rewrite (IH wp ltac:(lia) Hwp). unfold Qdiv. ring.
Qed.

Lemma GetWeights_spec_witness :
  exists ws, GetWeights (1 # 2) 5 = Ok ws /\ length ws = 5%nat /\ ws !! 0%nat = Some 1%Q.
Proof.
  destruct (GetWeights_spec (1 # 2) 5) as (ws & Hws & Hlen & Hfirst & _).
  - discriminate.
  - discriminate.
  - lia.
  - exists ws. split; [exact Hws|]. split; [exact Hlen|exact Hfirst].
Defined.

(** ** Configuration (Configure) *)

(** Membership in a table of ranges, entry by entry. *)
Ltac range_cases H :=
  repeat (apply elem_of_cons in H as [H|H];
          [injection H as -> -> |]); try (by apply elem_of_nil in H).

Ltac in_table := apply list_elem_of_here + (apply list_elem_of_further; in_table).

(** Settles one branch of a [Configure]: either the error is there and an
    option out of its range is shown, or there is none and no entry of the
    table is violated. *)
Ltac settle_configure :=
  cbn; split;
  [ first [ done
          | intros _; eexists _, _, _;
            (split; [in_table|]);
            (split; [eassumption|]); cbn; unfold Qltb, Qleb in *;
            repeat match goal with H : Qle_bool _ _ = _ |- _ => rewrite H end; done ]
  | first [ done
          | let Hin := fresh in let Hl := fresh in let Hf := fresh in
            intros (? & ? & ? & Hin & Hl & Hf); exfalso; range_cases Hin;
            cbn in Hf; unfold Qltb, Qleb in *; simplify_eq;
            repeat match goal with H : Qle_bool _ _ = _ |- _ => rewrite H in * end;
            done ] ].

(** Splits a [Configure] into its branches: each option present or not,
    each comparison of its block true or false. *)
Ltac configure_branches :=
  unfold BaseAlgorithm_Configure, override, Qltb, Qleb;
  repeat (match goal with
          | |- context [match ?m !! ?k with _ => _ end] => destruct (m !! k) eqn:?
          | |- context [Qle_bool ?a ?b] => destruct (Qle_bool a b) eqn:?
          end; cbn [negb orb andb fmap option_fmap option_map default]).

Lemma PurgedCV_Configure_error (p : PurgedCVAlgorithm) (cfg : AlgorithmConfig) :
  (PurgedCVAlgorithm_Configure p cfg).1 <> None
  <-> out_of_range PurgedCV_ranges (AdditionalParams cfg).
Proof.
  unfold PurgedCVAlgorithm_Configure. configure_branches.
  all: unfold out_of_range, PurgedCV_ranges; settle_configure.
Qed.

Lemma SequentialBootstrap_Configure_error (s : SequentialBootstrapAlgorithm)
    (cfg : AlgorithmConfig) :
  (SequentialBootstrapAlgorithm_Configure s cfg).1 <> None
  <-> out_of_range SequentialBootstrap_ranges (AdditionalParams cfg).
Proof.
  unfold SequentialBootstrapAlgorithm_Configure. configure_branches.
  all: unfold out_of_range, SequentialBootstrap_ranges; settle_configure.
Qed.

Lemma FractionalDiff_Configure_error (f : FractionalDiffAlgorithm) (cfg : AlgorithmConfig) :
  (FractionalDiffAlgorithm_Configure f cfg).1 <> None
  <-> out_of_range FractionalDiff_ranges (AdditionalParams cfg).
Proof.
  unfold FractionalDiffAlgorithm_Configure. configure_branches.
  all: unfold out_of_range, FractionalDiff_ranges; settle_configure.
Qed.

Lemma TripleBarrier_Configure_error (t : TripleBarrierAlgorithm) (cfg : AlgorithmConfig) :
  (TripleBarrierAlgorithm_Configure t cfg).1 <> None
  <-> out_of_range TripleBarrier_ranges (AdditionalParams cfg).
Proof.
  unfold TripleBarrierAlgorithm_Configure. configure_branches.
  all: unfold out_of_range, TripleBarrier_ranges; settle_configure.
Qed.

Lemma PositionSizing_Configure_error (p : PositionSizingAlgorithm) (cfg : AlgorithmConfig) :
  (PositionSizingAlgorithm_Configure p cfg).1 <> None
  <-> out_of_range PositionSizing_ranges (AdditionalParams cfg).
Proof.
  unfold PositionSizingAlgorithm_Configure. configure_branches.
  all: unfold out_of_range, PositionSizing_ranges; settle_configure.
Qed.

(** What [no_feature_enabled] says of one toggle. *)
Ltac toggle_off H key :=
  let val := fresh "val" in let Hl := fresh in let Hle := fresh in
  destruct (H key ltac:(in_table)) as (val & Hl & Hle);
  apply Qle_bool_iff in Hle; simplify_eq; congruence.

Lemma MetaLabeling_Configure_error (m : MetaLabelingAlgorithm) (cfg : AlgorithmConfig) :
  (MetaLabelingAlgorithm_Configure m cfg).1 <> None
  <-> out_of_range MetaLabeling_ranges (AdditionalParams cfg)
      \/ no_feature_enabled (AdditionalParams cfg).
Proof.
  unfold MetaLabelingAlgorithm_Configure. configure_branches.
  all: unfold out_of_range, MetaLabeling_ranges, no_feature_enabled; cbn; split.
  all: first
    [ done
    | intros _; left; eexists _, _, _; (split; [in_table|]); (split; [eassumption|]);
      cbn; unfold Qltb, Qleb in *;
      repeat match goal with H : Qle_bool _ _ = _ |- _ => rewrite H end; done
    | intros _; right; intros key Hin;
      repeat (apply elem_of_cons in Hin as [->|Hin]); try (by apply elem_of_nil in Hin);
      eexists; (split; [eassumption|]); by apply Qle_bool_iff
    | intros [(? & ? & ? & Hin & Hl & Hf)|Hoff]; exfalso;
      [ range_cases Hin; cbn in Hf; unfold Qltb, Qleb in *; simplify_eq;
        repeat match goal with H : Qle_bool _ _ = _ |- _ => rewrite H in * end; done
      | first [ toggle_off Hoff "use_price_features"
              | toggle_off Hoff "use_volume_features"
              | toggle_off Hoff "use_volatility_features"
              | toggle_off Hoff "use_technical_features" ] ] ].
Qed.

Lemma CUSUM_Configure_accepts (c : CUSUMFilterAlgorithm) (cfg : AlgorithmConfig) :
  (CUSUMFilterAlgorithm_Configure c cfg).1 = None.
Proof. reflexivity. Qed.

(** An option that no entry of the table names leaves the verdict alone. *)
Lemma out_of_range_insert (ranges : optionRanges) (params : gmap string Q) key val :
  key ∉ map fst ranges ->
  out_of_range ranges (<[key := val]> params) <-> out_of_range ranges params.
Proof.
  intros Hkey. unfold out_of_range.
  assert (Hne : forall k f, (k, f) ∈ ranges -> key <> k).
  { intros k f Hin ->. apply Hkey. apply list_elem_of_fmap. by exists (k, f). }
  split; intros (k & f & v & Hin & Hl & Hf); exists k, f, v; (split; [done|]);
    (split; [|done]).
  - by rewrite lookup_insert_ne in Hl by eauto.
  - by rewrite lookup_insert_ne by eauto.
Qed.

(** C9, as the code has it.  No [Configure] fails on an option it does not
    know: the base [Configure] (which HRP and MVO use as it is) and the
    CUSUM filter's accept every configuration, and each of the others
    returns an error exactly when one of its validated options is given a
    value outside its range (Meta-Labeling also when every feature family
    is switched off); an option outside the table does not change that. *)
Theorem Configure_validation (cfg : AlgorithmConfig) :
  let params := AdditionalParams cfg in
  (forall b, (BaseAlgorithm_Configure b cfg).1 = None)
  /\ (forall h, (HRPAlgorithm_Configure h cfg).1 = None)
  /\ (forall m, (MVOAlgorithm_Configure m cfg).1 = None)
  /\ (forall c, (CUSUMFilterAlgorithm_Configure c cfg).1 = None)
  /\ (forall s, (SequentialBootstrapAlgorithm_Configure s cfg).1 <> None
                <-> out_of_range SequentialBootstrap_ranges params)
  /\ (forall p, (PurgedCVAlgorithm_Configure p cfg).1 <> None
                <-> out_of_range PurgedCV_ranges params)
  /\ (forall f, (FractionalDiffAlgorithm_Configure f cfg).1 <> None
                <-> out_of_range FractionalDiff_ranges params)
  /\ (forall t, (TripleBarrierAlgorithm_Configure t cfg).1 <> None
                <-> out_of_range TripleBarrier_ranges params)
  /\ (forall p, (PositionSizingAlgorithm_Configure p cfg).1 <> None
                <-> out_of_range PositionSizing_ranges params)
  /\ (forall m, (MetaLabelingAlgorithm_Configure m cfg).1 <> None
                <-> out_of_range MetaLabeling_ranges params \/ no_feature_enabled params)
  /\ (forall ranges key val, key ∉ map fst ranges ->
        out_of_range ranges (<[key := val]> params) <-> out_of_range ranges params).
Proof.
  cbv zeta. repeat split; try reflexivity.
  all: try (by apply SequentialBootstrap_Configure_error).
  all: try (by apply PurgedCV_Configure_error).
  all: try (by apply FractionalDiff_Configure_error).
  all: try (by apply TripleBarrier_Configure_error).
  all: try (by apply PositionSizing_Configure_error).
  all: try (by apply MetaLabeling_Configure_error).
  all: by apply out_of_range_insert.
Qed.

(** C9 as the specification words it fails: the CUSUM filter and Purged CV
    accept an option that is not theirs, and the CUSUM filter accepts a
    negative threshold. *)
Lemma Configure_accepts_unknown_option :
  AdditionalParams (configWith {[ "no_such_option" := 1%Q ]}) !! "no_such_option" = Some 1%Q
  /\ ("no_such_option" ∉ ["threshold"; "drift"])
  /\ (CUSUMFilterAlgorithm_Configure NewCUSUMFilterAlgorithm
        (configWith {[ "no_such_option" := 1%Q ]})).1 = None
  /\ ("no_such_option" ∉ ["num_folds"; "embargo_pct"; "test_size"])
  /\ (PurgedCVAlgorithm_Configure PurgedCVAlgorithm_zero
        (configWith {[ "no_such_option" := 1%Q ]})).1 = None
  /\ (BaseAlgorithm_Configure BaseAlgorithm_zero
        (configWith {[ "no_such_option" := 1%Q ]})).1 = None
  /\ (CUSUMFilterAlgorithm_Configure NewCUSUMFilterAlgorithm
        (configWith {[ "threshold" := (-1)%Q ]})).1 = None.
Proof.
  cbv zeta. repeat split; try reflexivity.
  - rewrite !elem_of_cons, elem_of_nil. intros [?|[?|[]]]; discriminate.
  - rewrite !elem_of_cons, elem_of_nil. intros [?|[?|[?|[]]]]; discriminate.
Qed.

(** ** The tags of Sequential Bootstrap *)

Lemma SequentialBootstrap_tag `{Runtime W} (s : SequentialBootstrapAlgorithm)
    symbol data hist (w : W) r s' w' :
  SequentialBootstrapAlgorithm_Process s symbol data hist w = (Ok r, s', w') ->
  Signal r = "BUY" \/ Signal r = "SELL" \/ Signal r = "HOLD".
Proof.
  unfold SequentialBootstrapAlgorithm_Process. intros Hp.
  repeat (case_match; try discriminate); simplify_eq; cbn; auto.
Qed.

Lemma tallyStep_other_tag (t : tally) (r : AlgorithmResult) :
  Signal r <> SignalBuy -> Signal r <> SignalSell ->
  totalBuyWeight (tallyStep t r) = totalBuyWeight t
  /\ totalSellWeight (tallyStep t r) = totalSellWeight t
  /\ totalConfidence (tallyStep t r) = (totalConfidence t + Confidence r)%Q
  /\ signalWeights (tallyStep t r) !! Signal r
     = Some (default 0%Q (signalWeights t !! Signal r) + Confidence r)%Q
  /\ (forall tag, tag <> Signal r ->
        signalWeights (tallyStep t r) !! tag = signalWeights t !! tag).
Proof.
  intros Hb Hs. unfold tallyStep. cbn.
  apply String.eqb_neq in Hb, Hs. rewrite Hb, Hs.
  repeat split.
  - by rewrite lookup_insert_eq.
  - intros tag Hne. by rewrite lookup_insert_ne.
Qed.

(** The buy and sell sums of a run of the first loop do not see a result
    that carries another tag. *)
Lemma tally_skips_other_tag (before after : list AlgorithmResult) (r : AlgorithmResult) :
  Signal r <> SignalBuy -> Signal r <> SignalSell ->
  totalBuyWeight (tallyResults (before ++ r :: after))
    = totalBuyWeight (tallyResults (before ++ after))
  /\ totalSellWeight (tallyResults (before ++ r :: after))
     = totalSellWeight (tallyResults (before ++ after)).
Proof.
  intros Hb Hs. unfold tallyResults.
  rewrite fold_tally_buy, fold_tally_sell, fold_tally_buy, fold_tally_sell.
  rewrite !filter_app, !filter_cons.
  rewrite !decide_False by done. done.
Qed.

(** C10. A result that Sequential Bootstrap returns without error carries
    "BUY", "SELL" or "HOLD" and none of the lower-case tags.  In the
    combiner it therefore leaves the buy and the sell sum of the
    hold-override test as they are without it (wherever it stands among the
    results), adds its confidence only under its own tag and to the total,
    and it fails the comparison with "hold" by which Meta-Labeling passes a
    primary result through. *)
Theorem SequentialBootstrap_upper_case_tag `{Runtime W} (s : SequentialBootstrapAlgorithm)
    (symbol : string) (data : option MarketData) (hist : list MarketData) (w : W)
    (r : AlgorithmResult) (s' : SequentialBootstrapAlgorithm) (w' : W) :
  SequentialBootstrapAlgorithm_Process s symbol data hist w = (Ok r, s', w') ->
  (Signal r = "BUY" \/ Signal r = "SELL" \/ Signal r = "HOLD")
  /\ (Signal r <> SignalBuy /\ Signal r <> SignalSell /\ Signal r <> SignalHold)
  /\ (forall before after,
        totalBuyWeight (tallyResults (before ++ r :: after))
          = totalBuyWeight (tallyResults (before ++ after))
        /\ totalSellWeight (tallyResults (before ++ r :: after))
           = totalSellWeight (tallyResults (before ++ after)))
  /\ (forall t,
        totalBuyWeight (tallyStep t r) = totalBuyWeight t
        /\ totalSellWeight (tallyStep t r) = totalSellWeight t
        /\ totalConfidence (tallyStep t r) = (totalConfidence t + Confidence r)%Q
        /\ signalWeights (tallyStep t r) !! Signal r
           = Some (default 0%Q (signalWeights t !! Signal r) + Confidence r)%Q
        /\ (forall tag, tag <> Signal r ->
              signalWeights (tallyStep t r) !! tag = signalWeights t !! tag))
  /\ String.eqb (Signal r) "hold" = false.
Proof.
  intros Hrun. pose proof (SequentialBootstrap_tag _ _ _ _ _ _ _ _ Hrun) as Htag.
  assert (Hlower : Signal r <> SignalBuy /\ Signal r <> SignalSell /\ Signal r <> SignalHold).
  { destruct Htag as [-> | [-> | ->]]; repeat split; discriminate. }
  destruct Hlower as (Hb & Hs & Hh).
  split; [exact Htag|]. split; [done|].
  split; [intros; by apply tally_skips_other_tag|].
  split; [intros; by apply tallyStep_other_tag|].
  by apply String.eqb_neq.
Qed.

Lemma SequentialBootstrap_upper_case_tag_witness :
  exists r s' w',
    SequentialBootstrapAlgorithm_Process (W:=nat) smallBootstrap "X" (Some (bar 13))
      (map bar [10; 11; 12; 13]%Q) 0%nat = (Ok r, s', w')
    /\ Signal r = "BUY" /\ Signal r <> SignalBuy /\ String.eqb (Signal r) "hold" = false.
Proof.
  eexists _, _, _.
  match goal with
  | |- ?run /\ _ => assert (Hrun : run) by (vm_compute; reflexivity)
  end.
  split; [exact Hrun|]. split; [reflexivity|].
  destruct (SequentialBootstrap_upper_case_tag _ _ _ _ _ _ _ _ Hrun)
    as (_ & (Hbuy & _) & _ & _ & Hhold).
  split; [exact Hbuy|exact Hhold].
Defined.

(** * Further properties of the code *)

(** ** Fractional differentiation: FFD and the fixed-width window *)

Lemma FFD_weights_unfold (n : nat) (d threshold : Q) (k : Z) (wt : Q) :
  FFD_weights (S n) d threshold k wt
  = if Qltb threshold (math_Abs wt) then
      let wt := (wt * (- d + float_of_int k - 1) / float_of_int k)%Q in
      if (100000 <? k)%Z then Err "weight computation did not converge below threshold"
      else match FFD_weights n d threshold (k + 1) wt with
           | Ok ws => Ok (wt :: ws)
           | e => e
           end
    else Ok [].
Proof. reflexivity. Qed.

Lemma FFD_rounds : Z.to_nat 100001 = S (S (S (Z.to_nat 99998))).
Proof. lia. Qed.

(** The weights that [FFD] computes for [d = 0]: 1 and one zero. *)
Lemma FFD_weights_zero (d threshold : Q) :
  (d == 0)%Q -> (0 < threshold)%Q -> (threshold < 1)%Q ->
  exists w1, FFD_weights (Z.to_nat 100001) d threshold 1 1%Q = Ok [w1] /\ (w1 == 0)%Q.
Proof.
  intros Hd H0 H1. rewrite FFD_rounds, FFD_weights_unfold.
  assert (Qltb threshold (math_Abs 1) = true) as -> by (apply Qltb_lt; exact H1).
  cbv zeta. change (100000 <? 1)%Z with false. cbv iota.
  set (w1 := (1 * (- d + float_of_int 1 - 1) / float_of_int 1)%Q).
  assert (Hw1 : (w1 == 0)%Q).
  { unfold w1. rewrite Hd. reflexivity. }
  rewrite FFD_weights_unfold.
  assert (Qltb threshold (math_Abs w1) = false) as ->.
  { apply Qltb_ge. unfold math_Abs. rewrite Hw1. apply Qlt_le_weak. exact H0. }
  exists w1. split; [reflexivity|exact Hw1].
Qed.

(** The weights that [FFD] computes for [d = 1]: 1, -1 and one zero. *)
Lemma FFD_weights_one (d threshold : Q) :
  (d == 1)%Q -> (0 < threshold)%Q -> (threshold < 1)%Q ->
  exists w1 w2, FFD_weights (Z.to_nat 100001) d threshold 1 1%Q = Ok [w1; w2]
    /\ (w1 == -1)%Q /\ (w2 == 0)%Q.
Proof.
  intros Hd H0 H1. rewrite FFD_rounds, FFD_weights_unfold.
  assert (Qltb threshold (math_Abs 1) = true) as -> by (apply Qltb_lt; exact H1).
  cbv zeta. change (100000 <? 1)%Z with false. cbv iota.
  set (w1 := (1 * (- d + float_of_int 1 - 1) / float_of_int 1)%Q).
  assert (Hw1 : (w1 == -1)%Q).
  { unfold w1. rewrite Hd. reflexivity. }
  rewrite FFD_weights_unfold.
  assert (Qltb threshold (math_Abs w1) = true) as ->.
  { apply Qltb_lt. unfold math_Abs. rewrite Hw1. exact H1. }
  cbv zeta. change (100000 <? 1 + 1)%Z with false. cbv iota.
  set (w2 := (w1 * (- d + float_of_int (1 + 1) - 1) / float_of_int (1 + 1))%Q).
  assert (Hw2 : (w2 == 0)%Q).
  { unfold w2. rewrite Hw1, Hd. reflexivity. }
  rewrite FFD_weights_unfold.
  assert (Qltb threshold (math_Abs w2) = false) as ->.
  { apply Qltb_ge. unfold math_Abs. rewrite Hw2. apply Qlt_le_weak. exact H0. }
  exists w1, w2. split; [reflexivity|]. split; assumption.
Qed.

Lemma convolveAt_step (ws series : list Q) (i n : nat) :
  convolveAt ws series i (S n)
  = (convolveAt ws series i n
     + default 0%Q (ws !! n) * default 0%Q (series !! (i - n)%nat))%Q.
Proof.
  unfold convolveAt. rewrite seq_S, fold_left_app. reflexivity.
Qed.

(** X1. For a threshold strictly between 0 and 1, [FFD] at order [d = 0]
    returns the series itself and at order [d = 1] its first difference:
    the first value is kept, every later value is the step from the value
    before it. *)
Theorem FFD_integer_orders (series : list Q) (d threshold : Q) :
  series <> [] -> (0 < threshold)%Q -> (threshold < 1)%Q ->
  ((d == 0)%Q ->
     exists out, FFD series d threshold = Ok out /\ length out = length series
       /\ forall i x y, series !! i = Some x -> out !! i = Some y -> (y == x)%Q)
  /\ ((d == 1)%Q ->
     exists out, FFD series d threshold = Ok out /\ length out = length series
       /\ (forall x y, series !! 0%nat = Some x -> out !! 0%nat = Some y -> (y == x)%Q)
       /\ (forall i p x y, series !! i = Some p -> series !! S i = Some x ->
             out !! S i = Some y -> (y == x - p)%Q)).
Proof.
  intros Hne H0 H1.
  assert (Hlen : (length series =? 0)%nat = false).
  { destruct series; [done|reflexivity]. }
  assert (Hth : Qleb threshold 0 = false) by (apply Qleb_gt; exact H0).
  split; intros Hd; unfold FFD; rewrite Hlen, Hth.
  - destruct (FFD_weights_zero d threshold Hd H0 H1) as (w1 & -> & Hw1).
    eexists. split; [reflexivity|]. split; [by rewrite length_map, length_seq|].
    intros i x y Hx Hy.
    rewrite list_lookup_fmap, lookup_seq_lt in Hy by (by apply lookup_lt_Some in Hx).
    cbn [fmap option_fmap option_map Nat.add] in Hy. injection Hy as <-.
    destruct i as [|i].
    + cbn. rewrite Hx. cbn. ring.
    + match goal with |- context [convolveAt _ _ _ ?n] =>
        replace n with 2%nat by (cbn [length]; lia) end.
      rewrite !convolveAt_step. unfold convolveAt. cbn [seq fold_left lookup list_lookup default from_option id].
      rewrite Nat.sub_0_r, Hx. cbn [default from_option id]. rewrite Hw1. ring.
  - destruct (FFD_weights_one d threshold Hd H0 H1) as (w1 & w2 & -> & Hw1 & Hw2).
    eexists. split; [reflexivity|]. split; [by rewrite length_map, length_seq|].
    split.
    + intros x y Hx Hy.
      rewrite list_lookup_fmap, lookup_seq_lt in Hy by (by apply lookup_lt_Some in Hx).
      cbn in Hy. injection Hy as <-. rewrite Hx. cbn. ring.
    + intros i p x y Hp Hx Hy.
      rewrite list_lookup_fmap, lookup_seq_lt in Hy by (by apply lookup_lt_Some in Hx).
      cbn [fmap option_fmap option_map Nat.add] in Hy. injection Hy as <-.
      destruct i as [|i].
      * match goal with |- context [convolveAt _ _ _ ?n] =>
          replace n with 2%nat by (cbn [length]; lia) end.
        rewrite !convolveAt_step. unfold convolveAt.
        cbn [seq fold_left lookup list_lookup default Nat.sub].
        rewrite Hx, Hp. cbn [default from_option id]. rewrite Hw1. ring.
      * match goal with |- context [convolveAt _ _ _ ?n] =>
          replace n with 3%nat by (cbn [length]; lia) end.
        rewrite !convolveAt_step. unfold convolveAt.
        cbn [seq fold_left lookup list_lookup default from_option id].
        rewrite Nat.sub_0_r, Hx.
        replace (S (S i) - 1)%nat with (S i) by lia. rewrite Hp.
        cbn [default from_option id]. rewrite Hw1, Hw2.
        destruct (series !! (S (S i) - 2)%nat); cbn [default from_option id]; ring.
Qed.

Lemma FFD_integer_orders_witness :
  exists out, FFD [10; 12; 11]%Q 1 (1 # 100000) = Ok out /\ length out = 3%nat.
Proof.
  destruct (FFD_integer_orders [10; 12; 11]%Q 1 (1 # 100000)) as [_ Hone];
    [discriminate|reflexivity|reflexivity|].
  destruct (Hone ltac:(reflexivity)) as (out & Hout & Hlen & _).
  exists out. split; [exact Hout|exact Hlen].
Defined.

(** X2. [FixedWidthFractionalDiff] refuses a window below 1 or longer than
    the series; otherwise it returns [len(series) - windowSize + 1] values,
    and with a window of 1 these are the series itself, whatever the order
    [d]. *)
Theorem FixedWidthFractionalDiff_shape (series : list Q) (d : Q) (windowSize : Z) :
  ((windowSize < 1)%Z -> is_Err (FixedWidthFractionalDiff series d windowSize) = true)
  /\ ((Z.of_nat (length series) < windowSize)%Z ->
      is_Err (FixedWidthFractionalDiff series d windowSize) = true)
  /\ ((1 <= windowSize <= Z.of_nat (length series))%Z ->
      exists out, FixedWidthFractionalDiff series d windowSize = Ok out
        /\ Z.of_nat (length out) = (Z.of_nat (length series) - windowSize + 1)%Z
        /\ (windowSize = 1%Z ->
            forall i x y, series !! i = Some x -> out !! i = Some y -> (y == x)%Q)).
Proof.
  unfold FixedWidthFractionalDiff. split; [|split].
  - intros Hw. apply Z.ltb_lt in Hw. rewrite Hw. reflexivity.
  - intros Hw. destruct (windowSize <? 1)%Z; [reflexivity|].
    apply Z.ltb_lt in Hw. rewrite Hw. reflexivity.
  - intros [Hw1 Hw2].
    assert ((windowSize <? 1)%Z = false) as -> by (apply Z.ltb_ge; lia).
    assert ((Z.of_nat (length series) <? windowSize)%Z = false) as ->
      by (apply Z.ltb_ge; lia).
    unfold GetWeights.
    assert ((windowSize <? 0)%Z = false) as -> by (apply Z.ltb_ge; lia).
    assert ((windowSize =? 0)%Z = false) as -> by (apply Z.eqb_neq; lia).
    eexists. split; [reflexivity|]. split.
    + rewrite length_map, length_seq. lia.
    + intros -> i x y Hx Hy.
      rewrite list_lookup_fmap, lookup_seq_lt in Hy
        by (apply lookup_lt_Some in Hx; cbn; lia).
      cbn in Hy. injection Hy as <-.
      change (Z.to_nat 1) with 1%nat. unfold convolveAt. cbn.
      rewrite ?Nat.sub_0_r, Hx. cbn. ring.
Qed.

(** X3. [FFD] refuses an empty series and a threshold that is not positive;
    whenever it returns a series, that series is as long as its input and
    starts with the input's first value (only the weight 1 applies there). *)
Theorem FFD_shape (series : list Q) (d threshold : Q) :
  (series = [] -> is_Err (FFD series d threshold) = true)
  /\ ((threshold <= 0)%Q -> is_Err (FFD series d threshold) = true)
  /\ (forall out, FFD series d threshold = Ok out ->
       length out = length series
       /\ forall x y, series !! 0%nat = Some x -> out !! 0%nat = Some y -> (y == x)%Q).
Proof.
  unfold FFD. split; [|split].
  - intros ->. reflexivity.
  - intros Hth. destruct (length series =? 0)%nat; [reflexivity|].
    apply Qleb_le in Hth. rewrite Hth. reflexivity.
  - intros out Hout.
    destruct (length series =? 0)%nat; [discriminate|].
    destruct (Qleb threshold 0); [discriminate|].
    destruct (FFD_weights _ _ _ _ _) as [ws| |]; try discriminate.
    injection Hout as <-. split; [by rewrite length_map, length_seq|].
    intros x y Hx Hy.
    rewrite list_lookup_fmap, lookup_seq_lt in Hy by (by apply lookup_lt_Some in Hx).
    cbn in Hy. injection Hy as <-. rewrite Hx. cbn. ring.
Qed.

(** ** Sequential bootstrap: the draws *)

#[export] Instance counter_RandInRange : RandInRange nat.
Proof. intros n w Hn. cbn. apply Z.mod_pos_bound. exact Hn. Qed.

Lemma weightedChoice_scan_member items ws r cumulative item :
  weightedChoice_scan items ws r cumulative = Some item -> item ∈ items.
Proof.
  revert ws cumulative. induction items as [|x items IH]; intros [|wt ws] cumulative;
    cbn; try discriminate.
  destruct (Qleb r (cumulative + wt)).
  - intros [= ->]. apply list_elem_of_here.
  - intros Hs. apply list_elem_of_further. eapply IH. exact Hs.
Qed.

Lemma last_member (l : list Z) (dflt : Z) : l <> [] -> List.last l dflt ∈ l.
Proof.
  induction l as [|x [|y l] IH]; [done| |]; intros _.
  - apply list_elem_of_here.
  - apply list_elem_of_further. apply IH. discriminate.
Qed.

(** With as many weights as items, [weightedChoice] returns one of the
    items. *)
Lemma weightedChoice_member `{Runtime W} (items : list Z) (weights : list Q) (w : W) :
  items <> [] -> length items = length weights ->
  (weightedChoice items weights w).1 ∈ items.
Proof.
  intros Hne Hlen. unfold weightedChoice.
  assert (Hn : (length items =? 0)%nat = false).
  { destruct items; [done|reflexivity]. }
  rewrite Hn, <- Hlen, Hn, Nat.eqb_refl. cbn [orb negb].
  destruct (rand_Float64 w) as [r w1].
  destruct (weightedChoice_scan _ _ _ _) as [item|] eqn:Hs; cbn [fst].
  - eapply weightedChoice_scan_member. exact Hs.
  - apply last_member. exact Hne.
Qed.

Lemma fold_left_invariant {A B} (P : A -> Prop) (f : A -> B -> A) (l : list B) (a : A) :
  P a -> (forall a x, x ∈ l -> P a -> P (f a x)) -> P (fold_left f l a).
Proof.
  revert a. induction l as [|x l IH]; intros a Ha Hstep; [exact Ha|].
  cbn. apply IH.
  - apply Hstep; [apply list_elem_of_here|exact Ha].
  - intros a' y Hy. apply Hstep. by apply list_elem_of_further.
Qed.

Lemma getAvgUniqueness_selected (indM : Dense) (phi : list Z) :
  (0 < mat_rows indM)%nat -> phi <> [] ->
  exists avgU, getAvgUniqueness (selectColumns indM phi) = Ok avgU
               /\ length avgU = length phi.
Proof.
  intros Hr Hphi. unfold getAvgUniqueness. cbn [mat_rows mat_cols selectColumns].
  assert ((mat_rows indM =? 0)%nat = false) as -> by (apply Nat.eqb_neq; lia).
  assert ((length phi =? 0)%nat = false) as -> by (destruct phi; [done|reflexivity]).
  eexists. split; [reflexivity|]. by rewrite length_map, length_seq.
Qed.

(** One pass of the loop of [seqBootstrap] appends one draw; when the
    matrix has rows and columns and the [range] visits every candidate, the
    draw is a column index. *)
Lemma seqBootstrap_draw_spec `{Runtime W} (indM : Dense) (phi : list Z) (w : W) :
  exists k, (seqBootstrap_draw indM phi w).1 = phi ++ [k]
    /\ (RangeVisitsAll W -> (0 < mat_rows indM)%nat -> (0 < mat_cols indM)%nat ->
        (0 <= k < Z.of_nat (mat_cols indM))%Z).
Proof.
  unfold seqBootstrap_draw.
  set (step := fun (acc : gmap Z Q) (i : nat) => _).
  set (m := fold_left step (seq 0 (mat_cols indM)) ∅).
  assert (Hkeys : forall k, is_Some (m !! k) -> (0 <= k < Z.of_nat (mat_cols indM))%Z).
  { subst m. apply (fold_left_invariant
      (fun m => forall k, is_Some (m !! k) -> (0 <= k < Z.of_nat (mat_cols indM))%Z)).
    - intros k [? Hk]. by rewrite lookup_empty in Hk.
    - intros acc i Hi Hacc k. apply elem_of_seq in Hi. subst step. cbv beta zeta.
      destruct (getAvgUniqueness _) as [avgU| |]; [|apply Hacc..].
      destruct (0 <? length avgU)%nat; [|apply Hacc].
      destruct (decide (k = Z.of_nat i)) as [->|Hne].
      + intros _. lia.
      + rewrite lookup_insert_ne by done. apply Hacc. }
  assert (Hsome : (0 < mat_rows indM)%nat -> (0 < mat_cols indM)%nat -> m <> ∅).
  { intros Hr Hc. subst m. destruct (mat_cols indM) as [|c]; [lia|].
    cbn [seq fold_left].
    assert (Hfirst : is_Some (step ∅ 0%nat !! 0%Z)).
    { subst step. cbv beta zeta.
      destruct (getAvgUniqueness_selected indM (phi ++ [Z.of_nat 0]) Hr) as (avgU & -> & Hl).
      { by destruct phi. }
      rewrite Hl, length_app. cbn [length].
      assert ((0 <? length phi + 1)%nat = true) as -> by (apply Nat.ltb_lt; lia).
      rewrite lookup_insert_eq. eauto. }
    intros Hempty.
    assert (Hkeep : is_Some (fold_left step (seq 1 c) (step ∅ 0%nat) !! 0%Z)).
    { apply (fold_left_invariant (fun m => is_Some (m !! 0%Z))); [exact Hfirst|].
      intros acc i _ Hacc. subst step. cbv beta zeta.
      destruct (getAvgUniqueness _) as [avgU| |]; [|exact Hacc..].
      destruct (0 <? length avgU)%nat; [|exact Hacc].
      destruct (decide (0%Z = Z.of_nat i)) as [<-|Hne].
      - rewrite lookup_insert_eq. eauto.
      - by rewrite lookup_insert_ne. }
    rewrite Hempty, lookup_empty in Hkeep. by destruct Hkeep. }
  clearbody m. clear step.
  destruct (range_map m w) as [entries w1] eqn:Hrange.
  destruct (length (map fst entries) =? 0)%nat eqn:Hlen.
  - destruct (rand_Intn _ w1) as [k w2]. exists k. split; [reflexivity|].
    intros Hvisit Hr Hc. exfalso.
    pose proof (range_map_Permutation m w) as Hp. rewrite Hrange in Hp. cbn [fst] in Hp.
    apply Nat.eqb_eq in Hlen. rewrite length_map in Hlen.
    apply nil_length_inv in Hlen. subst entries.
    symmetry in Hp. apply Permutation_nil_r in Hp.
    apply map_to_list_empty_iff in Hp. by apply Hsome.
  - destruct (weightedChoice _ _ w1) as [selectedIdx w2] eqn:Hchoice.
    exists selectedIdx. split; [reflexivity|]. intros Hvisit Hr Hc.
    pose proof (weightedChoice_member (map fst entries) (map snd entries) w1) as Hin.
    rewrite Hchoice in Hin. cbn [fst] in Hin.
    assert (Hmem : selectedIdx ∈ map fst entries).
    { apply Hin; [|by rewrite !length_map].
      intros Hnil. rewrite Hnil in Hlen. discriminate. }
    apply list_elem_of_fmap in Hmem as ([key v] & -> & Hkv). cbn [fst].
    pose proof (range_map_lookup m w key v) as Hl. rewrite Hrange in Hl. cbn [fst] in Hl.
    apply Hkeys. exists v. by apply Hl.
Qed.

Lemma seqBootstrap_loop_spec `{Runtime W} (indM : Dense) (remaining : nat) :
  forall (phi : list Z) (w : W),
  exists drawn, (seqBootstrap_loop indM remaining phi w).1 = phi ++ drawn
    /\ length drawn = remaining
    /\ (RangeVisitsAll W -> (0 < mat_rows indM)%nat -> (0 < mat_cols indM)%nat ->
        forall k, k ∈ drawn -> (0 <= k < Z.of_nat (mat_cols indM))%Z).
Proof.
  induction remaining as [|n IH]; intros phi w; cbn [seqBootstrap_loop].
  - exists []. rewrite app_nil_r. split; [reflexivity|]. split; [reflexivity|].
    intros _ _ _ k Hk. by apply elem_of_nil in Hk.
  - destruct (seqBootstrap_draw_spec indM phi w) as (k & Hdraw & Hk).
    destruct (seqBootstrap_draw indM phi w) as [phi1 w1]. cbn [fst] in Hdraw. subst phi1.
    destruct (IH (phi ++ [k]) w1) as (drawn & Hloop & Hlen & Hin).
    exists (k :: drawn). rewrite Hloop, <- app_assoc. split; [reflexivity|].
    split; [cbn; lia|]. intros Hv Hr Hc k' Hk'.
    apply elem_of_cons in Hk' as [->|Hk']; [by apply Hk|by apply Hin].
Qed.

(** X4. [seqBootstrap] fails exactly when the matrix has no column or more
    draws are asked for than it has columns (a request that is not positive
    asks for one draw per column); otherwise it returns exactly the number
    of draws asked for. *)
Theorem seqBootstrap_outcome `{Runtime W} (indM : Dense) (sLength : Z) (w : W) :
  let c := Z.of_nat (mat_cols indM) in
  let wanted := if (sLength <=? 0)%Z then c else sLength in
  ((c = 0 \/ c < wanted)%Z -> is_Err (seqBootstrap indM sLength w).1 = true)
  /\ ((0 < c)%Z -> (wanted <= c)%Z ->
      exists phi, (seqBootstrap indM sLength w).1 = Ok phi
                  /\ Z.of_nat (length phi) = wanted).
Proof.
  cbv zeta. unfold seqBootstrap. split.
  - intros [Hc|Hc].
    + rewrite Hc. reflexivity.
    + destruct (Z.of_nat (mat_cols indM) =? 0)%Z; [reflexivity|].
      apply Z.ltb_lt in Hc. rewrite Hc. reflexivity.
  - intros Hc Hw.
    assert ((Z.of_nat (mat_cols indM) =? 0)%Z = false) as -> by (apply Z.eqb_neq; lia).
    set (wanted := if (sLength <=? 0)%Z then _ else _) in *.
    assert ((Z.of_nat (mat_cols indM) <? wanted)%Z = false) as -> by (apply Z.ltb_ge; lia).
    destruct (seqBootstrap_loop_spec indM (Z.to_nat wanted) [] w) as (drawn & Hloop & Hlen & _).
    destruct (seqBootstrap_loop _ _ _ _) as [phi w1]. cbn [fst] in *. subst phi.
    exists drawn. split; [reflexivity|]. rewrite Hlen.
    subst wanted. destruct (sLength <=? 0)%Z eqn:E; [lia|]. apply Z.leb_gt in E. lia.
Qed.

(** X5. When the indicator matrix has at least one row and the [range]
    visits every candidate, every draw that [seqBootstrap] returns is a
    column index of the matrix. *)
Theorem seqBootstrap_in_range `{Runtime W} `{!RangeVisitsAll W}
    (indM : Dense) (sLength : Z) (w : W) (phi : list Z) :
  (0 < mat_rows indM)%nat ->
  (seqBootstrap indM sLength w).1 = Ok phi ->
  forall k, k ∈ phi -> (0 <= k < Z.of_nat (mat_cols indM))%Z.
Proof.
  intros Hr Hphi k Hk. unfold seqBootstrap in Hphi.
  destruct (Z.of_nat (mat_cols indM) =? 0)%Z eqn:Hc; [discriminate|].
  apply Z.eqb_neq in Hc.
  destruct (_ <? _)%Z; [discriminate|].
  match type of Hphi with context [seqBootstrap_loop _ ?n _ _] =>
    destruct (seqBootstrap_loop_spec indM n [] w) as (drawn & Hloop & _ & Hin) end.
  destruct (seqBootstrap_loop _ _ _ _) as [phi1 w1]. cbn [fst] in *.
  injection Hphi as <-. subst phi1. apply Hin; [done|done|lia|exact Hk].
Qed.

Lemma seqBootstrap_in_range_witness :
  exists phi,
    (seqBootstrap (W:=nat)
       {| mat_rows := 2; mat_cols := 3;
          mat_At := fun i j => if (i <=? j)%nat then 1%Q else 0%Q |} 2 0%nat).1 = Ok phi
    /\ Forall (fun k => (0 <= k < 3)%Z) phi.
Proof.
  eexists. split; [vm_compute; reflexivity|].
  apply Forall_forall. intros k Hk.
  apply (seqBootstrap_in_range (W:=nat)
           {| mat_rows := 2; mat_cols := 3;
              mat_At := fun i j => if (i <=? j)%nat then 1%Q else 0%Q |} 2 0%nat _
           ltac:(cbn; lia) ltac:(vm_compute; reflexivity) k Hk).
Defined.

Lemma standardBootstrap_loop_spec `{Runtime W} `{!RandInRange W} (c : Z) (n : nat) :
  (0 < c)%Z -> forall w : W,
  length (standardBootstrap_loop c n w).1 = n
  /\ forall k, k ∈ (standardBootstrap_loop c n w).1 -> (0 <= k < c)%Z.
Proof.
  intros Hc. induction n as [|n IH]; intros w; cbn [standardBootstrap_loop].
  - split; [reflexivity|]. intros k Hk. by apply elem_of_nil in Hk.
  - pose proof (rand_Intn_range c w Hc) as Hk0.
    destruct (rand_Intn c w) as [k0 w1]. cbn [fst] in Hk0.
    destruct (IH w1) as [Hlen Hin].
    destruct (standardBootstrap_loop c n w1) as [rest w2]. cbn [fst] in *.
    split; [by rewrite <- Hlen|].
    intros k Hk. apply elem_of_cons in Hk as [->|Hk]; [exact Hk0|by apply Hin].
Qed.

(** The counting loop of [Process] on draws that are indices of the
    history: it does not fail, and it only adds to the two counts. *)
Lemma countSignals_spec (hist : list MarketData) (samples : list Z) :
  (forall k, k ∈ samples -> (0 <= k < Z.of_nat (length hist))%Z) ->
  forall up down, exists up' down',
    countSignals hist samples up down = Ok (up', down')
    /\ (up <= up')%Z /\ (down <= down')%Z.
Proof.
  induction samples as [|idx samples IH]; intros Hin up down; cbn [countSignals].
  - exists up, down. split; [reflexivity|lia].
  - assert (Hrest : forall k, k ∈ samples -> (0 <= k < Z.of_nat (length hist))%Z).
    { intros k Hk. apply Hin. by apply list_elem_of_further. }
    pose proof (Hin idx ltac:(apply list_elem_of_here)) as Hidx.
    destruct (Z.of_nat (length hist) - 1 <=? idx)%Z eqn:Hskip; [by apply IH|].
    apply Z.leb_gt in Hskip.
    assert ((idx <? 0)%Z = false) as -> by (apply Z.ltb_ge; lia).
    destruct (lookup_lt_is_Some_2 hist (Z.to_nat (idx + 1)) ltac:(lia)) as [next ->].
    destruct (lookup_lt_is_Some_2 hist (Z.to_nat idx) ltac:(lia)) as [cur ->].
    destruct (Qltb (Price cur) (Price next)).
    + destruct (IH Hrest (up + 1)%Z down) as (u & d & -> & ? & ?).
      exists u, d. split; [reflexivity|lia].
    + destruct (IH Hrest up (down + 1)%Z) as (u & d & -> & ? & ?).
      exists u, d. split; [reflexivity|lia].
Qed.

(** The history that [Process] keeps: its last [lookbackPeriod] bars. *)
Lemma lookback_window (hist : list MarketData) (lb : Z) :
  (0 <= lb <= Z.of_nat (length hist))%Z ->
  length (if (lb <? Z.of_nat (length hist))%Z
          then drop (Z.to_nat (Z.of_nat (length hist) - lb)) hist else hist)
  = Z.to_nat lb.
Proof.
  intros Hlb. destruct (lb <? Z.of_nat (length hist))%Z eqn:E.
  - rewrite length_drop. lia.
  - apply Z.ltb_ge in E. lia.
Qed.

(** X6. With a lookback that is not negative, [Process] of Sequential
    Bootstrap never panics: it returns a result exactly when the history
    has at least [lookbackPeriod >= 1] bars and, under sequential sampling,
    the sample size does not exceed the lookback (a sample size that is not
    positive counts as the lookback); in every other case it returns an
    error. *)
Theorem SequentialBootstrap_Process_outcome `{Runtime W} `{!RangeVisitsAll W}
    `{!RandInRange W} (s : SequentialBootstrapAlgorithm) (symbol : string)
    (data : option MarketData) (hist : list MarketData) (w : W) :
  (0 <= lookbackPeriod s)%Z ->
  let out := (SequentialBootstrapAlgorithm_Process s symbol data hist w).1.1 in
  let wanted := if (sampleSize s <=? 0)%Z then lookbackPeriod s else sampleSize s in
  (is_Ok out = true <->
     (1 <= lookbackPeriod s <= Z.of_nat (length hist))%Z
     /\ (useSequential s = true -> (wanted <= lookbackPeriod s)%Z))
  /\ (is_Ok out = false -> is_Err out = true).
Proof.
  intros Hlb. cbv zeta. unfold SequentialBootstrapAlgorithm_Process.
  destruct (Z.of_nat (length hist) <? lookbackPeriod s)%Z eqn:E1.
  { apply Z.ltb_lt in E1. cbn. split; [|done]. split; [discriminate|lia]. }
  apply Z.ltb_ge in E1.
  assert ((lookbackPeriod s <? 0)%Z = false) as -> by (apply Z.ltb_ge; lia).
  pose proof (lookback_window hist (lookbackPeriod s) ltac:(lia)) as Hn.
  set (hist' := if (lookbackPeriod s <? _)%Z then _ else _) in *. clearbody hist'.
  unfold getIndMatrix. rewrite !length_map, !length_seq, orb_diag.
  destruct (length hist' =? 0)%nat eqn:E2.
  { apply Nat.eqb_eq in E2. cbn. split; [|done]. split; [discriminate|lia]. }
  apply Nat.eqb_neq in E2.
  set (indM := {| mat_rows := length hist' |}).
  assert (Hcols : Z.of_nat (mat_cols indM) = lookbackPeriod s) by (cbn; lia).
  assert (Hcount : forall samples (w1 : W),
            (forall k, k ∈ samples -> (0 <= k < Z.of_nat (mat_cols indM))%Z) ->
            let res :=
              (match samples with _ =>
                 let s0 := {| sb_base := sb_base s; lookbackPeriod := lookbackPeriod s;
                              sb_confidenceThreshold := sb_confidenceThreshold s;
                              useSequential := useSequential s; sampleSize := sampleSize s;
                              lastSamples := samples |} in
                 match countSignals hist' samples 0 0 with
                 | Err e => (Err e, s0, w1)
                 | Panic e => (Panic e, s0, w1)
                 | Ok (upSignals, downSignals) =>
                   let totalSignals := (upSignals + downSignals)%Z in
                   let '(confidence, signal, orderType) :=
                     if (0 <? totalSignals)%Z then
                       if (downSignals <? upSignals)%Z then
                         ((float_of_int upSignals / float_of_int totalSignals)%Q,
                          "BUY", "MARKET")
                       else
                         ((float_of_int downSignals / float_of_int totalSignals)%Q,
                          "SELL", "MARKET")
                     else ((5 # 10)%Q, "HOLD", "NONE") in
                   let '(signal, orderType) :=
                     if Qltb confidence (sb_confidenceThreshold s0)
                     then ("HOLD", "NONE") else (signal, orderType) in
                   (Ok {| Signal := signal; OrderType := orderType; LimitPrice := None;
                          Confidence := confidence |}, s0, w1)
                 end
               end) in
            is_Ok res.1.1 = true).
  { intros samples w1 Hin. cbv zeta.
    destruct (countSignals_spec hist' samples) with (up := 0%Z) (down := 0%Z)
      as (u & d0 & -> & _ & _).
    { intros k Hk. specialize (Hin k Hk). cbn in Hin. lia. }
    cbn [sb_confidenceThreshold].
    repeat match goal with |- context [if ?c then _ else _] => destruct c end;
      reflexivity. }
  destruct (useSequential s) eqn:Hseq.
  - destruct (seqBootstrap_outcome indM (sampleSize s) w) as [Hfail Hok].
    rewrite Hcols in Hfail, Hok. cbv zeta in Hfail, Hok.
    set (wanted := if (sampleSize s <=? 0)%Z then _ else _) in *.
    destruct (Z_le_gt_dec wanted (lookbackPeriod s)) as [Hle|Hgt].
    + destruct (Hok ltac:(lia) Hle) as (phi & Hphi & _).
      pose proof (seqBootstrap_in_range indM (sampleSize s) w phi
                    ltac:(cbn; lia) Hphi) as Hin.
      destruct (seqBootstrap indM (sampleSize s) w) as [r w1]. cbn [fst] in Hphi.
      subst r. specialize (Hcount phi w1 Hin). cbv zeta in Hcount.
      rewrite Hcount. split; [|done]. split; [intros _; split; [lia|done]|done].
    + specialize (Hfail ltac:(lia)).
      destruct (seqBootstrap indM (sampleSize s) w) as [r w1]. cbn [fst] in Hfail.
      destruct r; try discriminate. cbn. split; [|done].
      split; [discriminate|]. intros [_ Hw]. specialize (Hw eq_refl). lia.
  - unfold standardBootstrap. rewrite Hcols.
    match goal with |- context [standardBootstrap_loop ?c ?n w] =>
      destruct (standardBootstrap_loop_spec c n ltac:(lia) w) as [_ Hin] end.
    destruct (standardBootstrap_loop _ _ w) as [samples w1]. cbn [fst] in Hin.
    rewrite <- Hcols in Hin. specialize (Hcount samples w1 Hin). cbv zeta in Hcount.
    rewrite Hcount. split; [|done]. split; [intros _; split; [lia|done]|done].
Qed.

Lemma SequentialBootstrap_Process_outcome_witness :
  is_Ok (SequentialBootstrapAlgorithm_Process (W:=nat) smallBootstrap "X" (Some (bar 13))
           (map bar [10; 11; 12; 13]%Q) 0%nat).1.1 = true.
Proof.
  apply (SequentialBootstrap_Process_outcome (W:=nat) smallBootstrap "X" (Some (bar 13))
           (map bar [10; 11; 12; 13]%Q) 0%nat ltac:(vm_compute; discriminate)).
  split; [vm_compute; split; discriminate|]. intros _. vm_compute. discriminate.
Defined.

Lemma countSignals_grows (hist : list MarketData) (samples : list Z) :
  forall up down up' down',
    countSignals hist samples up down = Ok (up', down') ->
    (up <= up')%Z /\ (down <= down')%Z.
Proof.
  induction samples as [|idx samples IH]; intros up down up' down'; cbn [countSignals].
  - intros [= <- <-]. lia.
  - repeat case_match; try discriminate; intros Hc; apply IH in Hc; lia.
Qed.

Lemma majority_share (a b : Z) :
  (0 <= b <= a)%Z -> (0 < a + b)%Z ->
  (1 # 2 <= float_of_int a / float_of_int (a + b))%Q
  /\ (float_of_int a / float_of_int (a + b) <= 1)%Q.
Proof.
  intros Hab Hpos. unfold float_of_int.
  assert (Ht : (0 < inject_Z (a + b))%Q).
  { change 0%Q with (inject_Z 0). rewrite <- Zlt_Qlt. exact Hpos. }
  split.
  - apply Qle_shift_div_l; [exact Ht|].
    unfold Qle, Qmult, inject_Z. cbn. lia.
  - apply Qle_shift_div_r; [exact Ht|].
    rewrite Qmult_1_l. rewrite <- Zle_Qle. lia.
Qed.

Lemma majority_share_r (a b : Z) :
  (0 <= b <= a)%Z -> (0 < b + a)%Z ->
  (1 # 2 <= float_of_int a / float_of_int (b + a))%Q
  /\ (float_of_int a / float_of_int (b + a) <= 1)%Q.
Proof. rewrite (Z.add_comm b a). apply majority_share. Qed.

(** X7. Every result of Sequential Bootstrap carries a confidence between
    0.5 and 1 (the share of the majority among the counted moves, 0.5
    without any), and it is directional, with a market order, only when
    that confidence reaches the configured threshold. *)
Theorem SequentialBootstrap_confidence `{Runtime W} (s : SequentialBootstrapAlgorithm)
    (symbol : string) (data : option MarketData) (hist : list MarketData) (w : W)
    (r : AlgorithmResult) (s' : SequentialBootstrapAlgorithm) (w' : W) :
  SequentialBootstrapAlgorithm_Process s symbol data hist w = (Ok r, s', w') ->
  (1 # 2 <= Confidence r)%Q /\ (Confidence r <= 1)%Q
  /\ (Signal r <> "HOLD" ->
      (sb_confidenceThreshold s <= Confidence r)%Q /\ OrderType r = "MARKET")
  /\ (Signal r = "HOLD" -> OrderType r = "NONE").
Proof.
  unfold SequentialBootstrapAlgorithm_Process. intros Hp.
  repeat (case_match; try discriminate); simplify_eq; cbn [Confidence Signal OrderType].
  all: try match goal with
       | Hc : countSignals _ _ 0 0 = Ok (?u, ?d) |- _ =>
           apply countSignals_grows in Hc as [Hu Hd]
       end.
  all: repeat match goal with
       | Hz : (_ <? _)%Z = true |- _ => apply Z.ltb_lt in Hz
       | Hz : (_ <? _)%Z = false |- _ => apply Z.ltb_ge in Hz
       | Hq : Qltb _ _ = true |- _ => apply Qltb_lt in Hq
       | Hq : Qltb _ _ = false |- _ => apply Qltb_ge in Hq
       end.
  all: try match goal with
       | |- context [(float_of_int ?a / float_of_int (?u + ?d))%Q] =>
           first [ pose proof (majority_share u d ltac:(lia) ltac:(lia)) as [Hlo Hhi]
                 | pose proof (majority_share_r d u ltac:(lia) ltac:(lia)) as [Hlo Hhi] ]
       end.
  all: repeat split; try done; try discriminate.
Qed.

Lemma SequentialBootstrap_confidence_witness :
  exists r s' w',
    SequentialBootstrapAlgorithm_Process (W:=nat) smallBootstrap "X" (Some (bar 13))
      (map bar [10; 11; 12; 13]%Q) 0%nat = (Ok r, s', w')
    /\ (1 # 2 <= Confidence r)%Q /\ (Confidence r <= 1)%Q.
Proof.
  eexists _, _, _.
  match goal with
  | |- ?run /\ _ => assert (Hrun : run) by (vm_compute; reflexivity)
  end.
  split; [exact Hrun|].
  destruct (SequentialBootstrap_confidence _ _ _ _ _ _ _ _ Hrun) as (Hlo & Hhi & _).
  split; [exact Hlo|exact Hhi].
Defined.

Lemma int_of_float_ge_1 (val : Q) : Qltb val 1 = false -> (1 <= int_of_float val)%Z.
Proof.
  intros Hv. apply Qltb_ge in Hv.
  rewrite int_of_float_floor by (apply Qle_trans with 1%Q; [discriminate|exact Hv]).
  change 1%Z with (Qfloor 1). by apply Qfloor_resp_le.
Qed.

(** X8. A [Configure] of Sequential Bootstrap that returns no error leaves
    the algorithm with a lookback and a sample size of at least 1 and a
    confidence threshold between 0 and 1, keeps the samples of the last
    run, and records the configuration it was given. *)
Theorem SequentialBootstrap_Configure_invariants (s : SequentialBootstrapAlgorithm)
    (cfg : AlgorithmConfig) :
  (SequentialBootstrapAlgorithm_Configure s cfg).1 = None ->
  let s' := (SequentialBootstrapAlgorithm_Configure s cfg).2 in
  (1 <= lookbackPeriod s')%Z /\ (1 <= sampleSize s')%Z
  /\ (0 <= sb_confidenceThreshold s')%Q /\ (sb_confidenceThreshold s' <= 1)%Q
  /\ lastSamples s' = lastSamples s /\ config (sb_base s') = cfg.
Proof.
  unfold SequentialBootstrapAlgorithm_Configure, BaseAlgorithm_Configure, override.
  cbv zeta. intros Hok.
  repeat (case_match; try discriminate); simplify_eq;
    cbn [fst snd lookbackPeriod sampleSize sb_confidenceThreshold lastSamples sb_base config].
  all: repeat match goal with
       | Hb : _ || _ = false |- _ => apply orb_false_iff in Hb as [? ?]
       | Hq : Qltb _ 1 = false |- _ => apply int_of_float_ge_1 in Hq
       | Hq : Qltb _ _ = false |- _ => apply Qltb_ge in Hq
       end.
  all: repeat split; try done; try lia; try discriminate.
Qed.

Lemma SequentialBootstrap_Configure_invariants_witness :
  (1 <= lookbackPeriod smallBootstrap)%Z /\ (1 <= sampleSize smallBootstrap)%Z.
Proof.
  assert (Hok : (SequentialBootstrapAlgorithm_Configure SequentialBootstrapAlgorithm_zero
                    (configWith (<["lookback_period" := 4%Q]>
                                   (<["sample_size" := 3%Q]> ∅)))).1 = None)
    by (vm_compute; reflexivity).
  destruct (SequentialBootstrap_Configure_invariants _ _ Hok) as (Hl & Hs & _).
  split; [exact Hl|exact Hs].
Defined.

(** ** Sums of rationals *)

Lemma fold_left_Qplus_acc (l : list Q) (a : Q) :
  (fold_left Qplus l a == a + fold_left Qplus l 0)%Q.
Proof.
  revert a. induction l as [|x l IH]; intros a; cbn [fold_left].
  - ring.
  - rewrite IH, (IH (0 + x)%Q). ring.
Qed.

Lemma Qsum_cons (x : Q) (l : list Q) : (Qsum (x :: l) == x + Qsum l)%Q.
Proof. unfold Qsum. cbn [fold_left]. rewrite fold_left_Qplus_acc. ring. Qed.

Lemma Qsum_Permutation (l l' : list Q) : l ≡ₚ l' -> (Qsum l == Qsum l')%Q.
Proof.
  induction 1 as [|x l l' _ IH|x y l|l l' l'' _ IH1 _ IH2].
  - reflexivity.
  - rewrite !Qsum_cons, IH. reflexivity.
  - rewrite !Qsum_cons. ring.
  - by rewrite IH1.
Qed.

Lemma Qsum_scale (f : Q) (l : list Q) :
  (Qsum (map (fun x => x / f) l) == Qsum l / f)%Q.
Proof.
  induction l as [|x l IH]; [reflexivity|].
  cbn [map]. rewrite !Qsum_cons, IH. unfold Qdiv. ring.
Qed.

Lemma Qsum_const (c : Q) {A} (l : list A) :
  (Qsum (map (fun _ => c) l) == float_of_nat (length l) * c)%Q.
Proof.
  induction l as [|x l IH].
  { unfold Qsum, float_of_nat. cbn [map fold_left length].
    change (inject_Z (Z.of_nat 0)) with 0%Q. ring. }
  cbn [map length]. rewrite Qsum_cons, IH. unfold float_of_nat.
  rewrite Nat2Z.inj_succ, <- Z.add_1_r, inject_Z_plus. ring.
Qed.

(** ** Uniqueness and overlap of a sample *)

Lemma remove_dups_length_le (l : list Z) : (length (remove_dups l) <= length l)%nat.
Proof.
  induction l as [|x l IH]; [reflexivity|].
  cbn [remove_dups length]. destruct (decide_rel _ x l); cbn [length]; lia.
Qed.

Lemma size_list_to_set_le (l : list Z) :
  (size (list_to_set l : gset Z) <= length l)%nat.
Proof.
  assert (Heq : (list_to_set l : gset Z) = list_to_set (remove_dups l)).
  { apply set_eq. intros x. rewrite !elem_of_list_to_set, elem_of_remove_dups. done. }
  rewrite Heq, size_list_to_set by apply NoDup_remove_dups.
  apply remove_dups_length_le.
Qed.

Lemma size_list_to_set_pos (l : list Z) :
  l <> [] -> (0 < size (list_to_set l : gset Z))%nat.
Proof.
  destruct l as [|x l]; [done|]. intros _.
  assert (Hne : size (list_to_set (x :: l) : gset Z) <> 0%nat).
  { apply size_non_empty_iff. set_solver. }
  lia.
Qed.

Lemma float_of_nat_lt (a b : nat) : (a < b)%nat -> (float_of_nat a < float_of_nat b)%Q.
Proof. intros Hab. unfold float_of_nat. rewrite <- Zlt_Qlt. lia. Qed.

Lemma float_of_nat_le (a b : nat) : (a <= b)%nat -> (float_of_nat a <= float_of_nat b)%Q.
Proof. intros Hab. unfold float_of_nat. rewrite <- Zle_Qle. lia. Qed.

(** X9. For every sample, [calculateOverlap] and
    [calculateAverageUniqueness] add up to 1; the uniqueness lies in (0, 1]
    and the overlap in [0, 1), and a sample without repeated draws has
    uniqueness 1 and overlap 0. *)
Theorem overlap_and_uniqueness (samples : list Z) :
  (calculateOverlap samples + calculateAverageUniqueness samples == 1)%Q
  /\ (0 < calculateAverageUniqueness samples)%Q
  /\ (calculateAverageUniqueness samples <= 1)%Q
  /\ (0 <= calculateOverlap samples)%Q /\ (calculateOverlap samples < 1)%Q
  /\ (NoDup samples ->
      (calculateAverageUniqueness samples == 1)%Q /\ (calculateOverlap samples == 0)%Q).
Proof.
  unfold calculateOverlap, calculateAverageUniqueness. cbv zeta.
  destruct (length samples <=? 1)%nat eqn:E.
  { repeat split; try reflexivity; discriminate. }
  apply Nat.leb_gt in E.
  assert (Hne : samples <> []) by (intros ->; cbn in E; lia).
  pose proof (size_list_to_set_le samples) as Hle.
  pose proof (size_list_to_set_pos samples Hne) as Hpos.
  set (u := size (list_to_set samples : gset Z)) in *.
  set (n := length samples) in *.
  assert (Hn : (0 < float_of_nat n)%Q) by (apply (float_of_nat_lt 0); lia).
  assert (Hu : (0 < float_of_nat u)%Q) by (apply (float_of_nat_lt 0); lia).
  assert (Hun : (float_of_nat u <= float_of_nat n)%Q) by (by apply float_of_nat_le).
  assert (Hlo : (0 < float_of_nat u / float_of_nat n)%Q).
  { apply Qlt_shift_div_l; [exact Hn|]. by rewrite Qmult_0_l. }
  assert (Hhi : (float_of_nat u / float_of_nat n <= 1)%Q).
  { apply Qle_shift_div_r; [exact Hn|]. by rewrite Qmult_1_l. }
  split; [ring|]. split; [exact Hlo|]. split; [exact Hhi|].
  split; [lra|]. split; [lra|].
  intros Hnd.
  assert (Hfull : (float_of_nat u / float_of_nat n == 1)%Q).
  { subst u n. rewrite size_list_to_set by exact Hnd.
    apply Qmult_inv_r. intros H0. rewrite H0 in Hn. by apply Qlt_irrefl in Hn. }
  split; [exact Hfull|]. rewrite Hfull. reflexivity.
Qed.

Lemma values_fmap (f : Q -> Q) (m : gmap string Q) :
  map snd (map_to_list (f <$> m)) = map f (map snd (map_to_list m)).
Proof.
  rewrite map_to_list_fmap. rewrite <- !list_fmap_compose.
  apply list_fmap_ext. intros _ [k v] _. reflexivity.
Qed.

(** X10. [normalizeWeights] keeps the keys of the map it is given, and
    the weights it returns for a non-empty map add up to 1: each weight
    divided by the sum, or the equal weight [1/len] when the sum is within
    1e-10 of zero. *)
Theorem normalizeWeights_sums_to_one (weights : gmap string Q) :
  weights <> ∅ ->
  (Qsum (map snd (map_to_list (normalizeWeights weights))) == 1)%Q
  /\ (forall key, is_Some (normalizeWeights weights !! key) <-> is_Some (weights !! key))
  /\ ((1 # 10000000000 <= Qabs (Qsum (map snd (map_to_list weights))))%Q ->
      forall key wt, weights !! key = Some wt ->
        normalizeWeights weights !! key
        = Some (wt / Qsum (map snd (map_to_list weights)))%Q).
Proof.
  intros Hne. unfold normalizeWeights. cbv zeta.
  set (sum := Qsum (map snd (map_to_list weights))).
  destruct (Qltb (math_Abs sum) (1 # 10000000000)) eqn:E.
  - split; [|split].
    + rewrite values_fmap, Qsum_const, length_map, length_map_to_list.
      assert (Hsz : (0 < size weights)%nat).
      { apply map_size_non_empty_iff in Hne. lia. }
      apply (float_of_nat_lt 0) in Hsz. field.
      intros H0. rewrite H0 in Hsz. by apply Qlt_irrefl in Hsz.
    + intros key. rewrite lookup_fmap, fmap_is_Some. reflexivity.
    + intros Hge. apply Qltb_lt in E. unfold math_Abs in E.
      exfalso. exact (Qlt_not_le _ _ E Hge).
  - apply Qltb_ge in E. unfold math_Abs in E.
    assert (Hsum : ~ (sum == 0)%Q).
    { intros H0. rewrite H0 in E. unfold Qle in E. cbn in E. lia. }
    split; [|split].
    + rewrite values_fmap, Qsum_scale. fold sum. by apply Qmult_inv_r.
    + intros key. rewrite lookup_fmap, fmap_is_Some. reflexivity.
    + intros _ key wt Hk. rewrite lookup_fmap, Hk. reflexivity.
Qed.

Lemma normalizeWeights_sums_to_one_witness :
  (Qsum (map snd (map_to_list (normalizeWeights {[ "buy" := 3%Q; "sell" := 1%Q ]}))) == 1)%Q.
Proof.
  apply (normalizeWeights_sums_to_one {[ "buy" := 3%Q; "sell" := 1%Q ]}).
  intros Hempty. apply (f_equal (fun m => m !! "buy")) in Hempty.
  vm_compute in Hempty. discriminate.
Defined.

(** ** Purged cross-validation: the folds *)

Lemma insert_sorted_Permutation (x : Z) (l : list Z) : insert_sorted x l ≡ₚ x :: l.
Proof.
  induction l as [|y l IH]; [reflexivity|]. cbn [insert_sorted].
  destruct (x <=? y)%Z; [reflexivity|]. rewrite IH. apply perm_swap.
Qed.

Lemma sort_Ints_Permutation (l : list Z) : sort_Ints l ≡ₚ l.
Proof.
  induction l as [|x l IH]; [reflexivity|].
  unfold sort_Ints in *. cbn [fold_right]. by rewrite insert_sorted_Permutation, IH.
Qed.

Lemma insert_sorted_Sorted (x : Z) (l : list Z) :
  Sorted Z.le l -> Sorted Z.le (insert_sorted x l).
Proof.
  induction 1 as [|y l Hs IH Hhd]; cbn [insert_sorted].
  - repeat constructor.
  - destruct (x <=? y)%Z eqn:E.
    + apply Z.leb_le in E. repeat constructor; assumption.
    + apply Z.leb_gt in E. constructor; [exact IH|].
      destruct Hhd as [|z l Hyz]; cbn [insert_sorted].
      * constructor. lia.
      * destruct (x <=? z)%Z; constructor; lia.
Qed.

Lemma sort_Ints_Sorted (l : list Z) : Sorted Z.le (sort_Ints l).
Proof.
  induction l as [|x l IH]; [constructor|].
  unfold sort_Ints in *. cbn [fold_right]. by apply insert_sorted_Sorted.
Qed.

Lemma elem_of_indices (n : nat) (j : Z) :
  j ∈ map Z.of_nat (seq 0 n) <-> (0 <= j < Z.of_nat n)%Z.
Proof.
  rewrite list_elem_of_fmap. split.
  - intros (i & -> & Hi). apply elem_of_seq in Hi. lia.
  - intros Hj. exists (Z.to_nat j). split; [lia|]. apply elem_of_seq. lia.
Qed.

Lemma NoDup_indices (n : nat) : NoDup (map Z.of_nat (seq 0 n)).
Proof. apply NoDup_fmap_2; [apply Nat2Z.inj'|apply NoDup_seq]. Qed.

(** The test window of fold [i]: with a test size between 1 and the number
    of samples it holds exactly [testSize] distinct indices of the samples,
    in ascending order. *)
Lemma foldTestIndices_spec (n : nat) (testSize i : Z) :
  (1 <= testSize <= Z.of_nat n)%Z -> (0 <= i)%Z ->
  exists test, foldTestIndices (Z.of_nat n) testSize i = Ok test
    /\ Z.of_nat (length test) = testSize
    /\ Sorted Z.le test /\ NoDup test
    /\ forall j, j ∈ test -> (0 <= j < Z.of_nat n)%Z.
Proof.
  intros Hts Hi. unfold foldTestIndices. cbv zeta.
  rewrite Nat2Z.id.
  set (indices := map Z.of_nat (seq 0 n)).
  assert (Hil : length indices = n) by (subst indices; by rewrite length_map, length_seq).
  set (start := Z.rem (i * testSize) (Z.of_nat n)).
  assert (Hstart : (0 <= start < Z.of_nat n)%Z).
  { subst start. rewrite Z.rem_mod_nonneg by nia. apply Z.mod_pos_bound. lia. }
  assert ((start <? 0)%Z = false) as -> by (apply Z.ltb_ge; lia).
  assert ((start + testSize <? start)%Z = false) as -> by (apply Z.ltb_ge; lia).
  cbn [orb].
  destruct (Z.of_nat n <? start + testSize)%Z eqn:Hwrap.
  - apply Z.ltb_lt in Hwrap.
    assert ((Z.of_nat n <? start + testSize - Z.of_nat n)%Z = false) as ->
      by (apply Z.ltb_ge; lia).
    eexists. split; [reflexivity|].
    set (window := drop (Z.to_nat start) indices
                   ++ take (Z.to_nat (start + testSize - Z.of_nat n)) indices).
    assert (Hsub : forall j, j ∈ window -> j ∈ indices).
    { intros j Hj. subst window. apply elem_of_app in Hj as [Hj|Hj].
      - apply list_elem_of_lookup in Hj as (k & Hk). rewrite lookup_drop in Hk.
        by eapply list_elem_of_lookup_2.
      - apply list_elem_of_lookup in Hj as (k & Hk).
        apply lookup_take_Some in Hk as [Hk _]. by eapply list_elem_of_lookup_2. }
    assert (Hnd : NoDup window).
    { subst window. apply NoDup_app. split; [|split].
      - eapply sublist_NoDup; [apply NoDup_indices|apply sublist_drop].
      - intros j Hd Ht.
        apply list_elem_of_lookup in Hd as (k1 & Hk1). rewrite lookup_drop in Hk1.
        apply list_elem_of_lookup in Ht as (k2 & Hk2).
        apply lookup_take_Some in Hk2 as [Hk2 Hlt].
        pose proof (NoDup_lookup _ _ _ _ (NoDup_indices n) Hk1 Hk2). lia.
      - eapply sublist_NoDup; [apply NoDup_indices|apply sublist_take]. }
    split; [|split; [apply sort_Ints_Sorted|split]].
    + rewrite sort_Ints_Permutation. subst window.
      rewrite length_app, length_drop, length_take, Hil. lia.
    + by rewrite sort_Ints_Permutation.
    + intros j Hj. rewrite sort_Ints_Permutation in Hj.
      apply elem_of_indices. by apply Hsub.
  - apply Z.ltb_ge in Hwrap.
    eexists. split; [reflexivity|].
    set (window := take (Z.to_nat (start + testSize - start)) (drop (Z.to_nat start) indices)).
    split; [|split; [apply sort_Ints_Sorted|split]].
    + rewrite sort_Ints_Permutation. subst window.
      rewrite length_take, length_drop, Hil. lia.
    + rewrite sort_Ints_Permutation. subst window.
      eapply sublist_NoDup; [|apply sublist_take].
      eapply sublist_NoDup; [apply NoDup_indices|apply sublist_drop].
    + intros j Hj. rewrite sort_Ints_Permutation in Hj. subst window.
      apply elem_of_indices.
      apply list_elem_of_lookup in Hj as (k & Hk).
      apply lookup_take_Some in Hk as [Hk _]. rewrite lookup_drop in Hk.
      by eapply list_elem_of_lookup_2.
Qed.

Lemma collect_spec {A B} (f : A -> result B) (P : B -> Prop) (l : list A) :
  (forall x, x ∈ l -> exists y, f x = Ok y /\ P y) ->
  exists ys, collect f l = Ok ys /\ length ys = length l /\ Forall P ys.
Proof.
  induction l as [|x l IH]; intros Hall; cbn [collect].
  - exists []. repeat split. constructor.
  - destruct (Hall x ltac:(apply list_elem_of_here)) as (y & -> & Hy).
    destruct IH as (ys & -> & Hlen & Hys).
    { intros x' Hx'. apply Hall. by apply list_elem_of_further. }
    exists (y :: ys). split; [reflexivity|]. split; [cbn; lia|by constructor].
Qed.

(** The folds of [purgedKFold], whenever the test size it computes lies
    between 1 and the number of samples: one fold per requested fold; each
    test set holds that many distinct sample indices in ascending order;
    the training indices are sample indices outside the test set, and all
    of those when there are no event times. *)
Lemma purgedKFold_spec (p : PurgedCVAlgorithm) :
  let n := length (syncTimes p) in
  let ts := int_of_float (math_Ceil (float_of_int (Z.of_nat n) * testSize p)) in
  (0 <= numFolds p)%Z -> (1 <= ts <= Z.of_nat n)%Z ->
  exists folds, PurgedCVAlgorithm_purgedKFold p = Ok folds
    /\ Z.of_nat (length folds) = numFolds p
    /\ forall fold, fold ∈ folds ->
         Z.of_nat (length (TestIndices fold)) = ts
         /\ Sorted Z.le (TestIndices fold) /\ NoDup (TestIndices fold)
         /\ (forall j, j ∈ TestIndices fold -> (0 <= j < Z.of_nat n)%Z)
         /\ (forall j, j ∈ TrainIndices fold ->
               (0 <= j < Z.of_nat n)%Z /\ j ∉ TestIndices fold)
         /\ (eventTimes p = [] ->
             forall j, (0 <= j < Z.of_nat n)%Z -> j ∉ TestIndices fold ->
                       j ∈ TrainIndices fold).
Proof.
  cbv zeta. intros Hk Hts.
  pose proof (purgedKFold_train_test_disjoint p) as Hdisj.
  unfold PurgedCVAlgorithm_purgedKFold in *.
  set (n := length (syncTimes p)) in *.
  set (ts := int_of_float _) in *.
  assert ((n =? 0)%nat = false) as Hn0 by (apply Nat.eqb_neq; lia).
  assert ((numFolds p <? 0)%Z = false) as Hk0 by (apply Z.ltb_ge; lia).
  rewrite Hn0, Hk0 in *.
  destruct (collect_spec (foldTestIndices (Z.of_nat n) ts)
              (fun test => Z.of_nat (length test) = ts /\ Sorted Z.le test /\ NoDup test
                           /\ forall j, j ∈ test -> (0 <= j < Z.of_nat n)%Z)
              (map Z.of_nat (seq 0 (Z.to_nat (numFolds p)))))
    as (tests & Hc & Hlen & Htests).
  { intros i Hi. apply elem_of_indices in Hi.
    apply foldTestIndices_spec; [exact Hts|lia]. }
  rewrite Hc in *. eexists. split; [reflexivity|].
  split; [rewrite length_map, Hlen, length_map, length_seq; lia|].
  intros fold Hfold.
  pose proof (fun j => Hdisj _ fold j eq_refl Hfold) as Hd.
  apply list_elem_of_fmap in Hfold as (test & -> & Htest).
  cbn [TestIndices TrainIndices] in *.
  rewrite Forall_forall in Htests.
  destruct (Htests test Htest) as (H1 & H2 & H3 & H4).
  split; [exact H1|]. split; [exact H2|]. split; [exact H3|]. split; [exact H4|].
  rewrite Nat2Z.id in *.
  split.
  - intros j Hj. split; [|by apply Hd].
    apply elem_of_indices.
    assert (Hbase : j ∈ filter (fun j => j ∉ test) (map Z.of_nat (seq 0 n))).
    { destruct (0 <? length (eventTimes p))%nat; [destruct (Qltb 0 (embargoPct p))|];
        eauto using purge_subset, embargo_subset. }
    by apply list_elem_of_filter in Hbase as [_ Hin].
  - intros -> j Hj Hnt. cbn [length Nat.ltb Nat.leb].
    apply list_elem_of_filter. split; [exact Hnt|by apply elem_of_indices].
Qed.

Lemma int_of_float_inject_Z (z : Z) : int_of_float (inject_Z z) = z.
Proof. unfold int_of_float, inject_Z. cbn. apply Z.quot_1_r. Qed.

(** The number of test samples [int(math.Ceil(n * share))] for a share in
    (0, 1]: at least one sample and at most all of them. *)
Lemma ceil_share (n : nat) (share : Q) :
  (0 < n)%nat -> (0 < share)%Q -> (share <= 1)%Q ->
  (1 <= int_of_float (math_Ceil (float_of_int (Z.of_nat n) * share)) <= Z.of_nat n)%Z.
Proof.
  intros Hn H0 H1. unfold math_Ceil, float_of_int. rewrite int_of_float_inject_Z.
  set (x := (inject_Z (Z.of_nat n) * share)%Q).
  assert (Hnq : (0 < inject_Z (Z.of_nat n))%Q).
  { change 0%Q with (inject_Z 0). rewrite <- Zlt_Qlt. lia. }
  assert (Hx0 : (0 < x)%Q) by (subst x; by apply Qmult_lt_0_compat).
  assert (Hxn : (x <= inject_Z (Z.of_nat n))%Q).
  { subst x. rewrite <- (Qmult_1_r (inject_Z (Z.of_nat n))) at 2.
    apply Qmult_le_l; assumption. }
  split.
  - pose proof (Qle_ceiling x) as Hc.
    assert (Hpos : (0 < inject_Z (Qceiling x))%Q) by (eapply Qlt_le_trans; eassumption).
    change 0%Q with (inject_Z 0) in Hpos. rewrite <- Zlt_Qlt in Hpos. lia.
  - rewrite <- (Qceiling_Z (Z.of_nat n)). by apply Qceiling_resp_le.
Qed.



Lemma int_of_float_ge (c : Z) (val : Q) :
  (0 <= c)%Z -> Qltb val (inject_Z c) = false -> (c <= int_of_float val)%Z.
Proof.
  intros Hc Hv. apply Qltb_ge in Hv.
  rewrite int_of_float_floor.
  - rewrite <- (Qfloor_Z c). by apply Qfloor_resp_le.
  - eapply Qle_trans; [|exact Hv]. change 0%Q with (inject_Z 0). rewrite <- Zle_Qle. exact Hc.
Qed.

Lemma PurgedCV_Configure_ranges (p : PurgedCVAlgorithm) (cfg : AlgorithmConfig) :
  (PurgedCVAlgorithm_Configure p cfg).1 = None ->
  let p' := (PurgedCVAlgorithm_Configure p cfg).2 in
  (2 <= numFolds p')%Z /\ (0 <= embargoPct p')%Q /\ (embargoPct p' <= 1 # 2)%Q
  /\ (0 < testSize p')%Q /\ (testSize p' < 1)%Q.
Proof.
  unfold PurgedCVAlgorithm_Configure, BaseAlgorithm_Configure, override.
  cbv zeta. intros Hok.
  repeat (case_match; try discriminate); simplify_eq;
    cbn [fst snd numFolds embargoPct testSize].
  all: repeat match goal with
       | Hb : _ || _ = false |- _ => apply orb_false_iff in Hb as [? ?]
       | Hq : Qltb _ 2 = false |- _ => apply (int_of_float_ge 2) in Hq; [|lia]
       | Hq : Qltb _ _ = false |- _ => apply Qltb_ge in Hq
       | Hq : Qleb _ _ = false |- _ => apply Qleb_gt in Hq
       end.
  all: repeat split; try done; try lia; try discriminate; try lra.
Qed.

(** X12. After a [Configure] that returned no error (at least 2 folds, a
    test share strictly between 0 and 1), [Process] of Purged CV never
    panics: with fewer than [2 * numFolds] bars it returns an error, and
    otherwise the folds are built and the result is the fixed hold at
    confidence 0.5 without an order. *)
Theorem PurgedCV_Process_outcome `{Runtime W} (p0 : PurgedCVAlgorithm) (cfg : AlgorithmConfig)
    (symbol : string) (data : option MarketData) (hist : list MarketData) (w : W) :
  (PurgedCVAlgorithm_Configure p0 cfg).1 = None ->
  let p := (PurgedCVAlgorithm_Configure p0 cfg).2 in
  let out := (PurgedCVAlgorithm_Process p symbol data hist w).1.1 in
  ((Z.of_nat (length hist) < 2 * numFolds p)%Z -> is_Err out = true)
  /\ ((2 * numFolds p <= Z.of_nat (length hist))%Z ->
      out = Ok {| Signal := "hold"; OrderType := "none"; LimitPrice := None;
                  Confidence := 5 # 10 |}).
Proof.
  intros Hok. destruct (PurgedCV_Configure_ranges p0 cfg Hok) as (Hk & _ & _ & Ht0 & Ht1).
  cbv zeta in *. set (p := (PurgedCVAlgorithm_Configure p0 cfg).2) in *. clearbody p.
  unfold PurgedCVAlgorithm_Process. split.
  - intros Hshort.
    assert ((Z.of_nat (length hist) <? numFolds p * 2)%Z = true) as ->
      by (apply Z.ltb_lt; lia).
    reflexivity.
  - intros Hlong.
    assert ((Z.of_nat (length hist) <? numFolds p * 2)%Z = false) as ->
      by (apply Z.ltb_ge; lia).
    destruct (time_Now w) as [now w1].
    match goal with |- context [PurgedCVAlgorithm_purgedKFold ?q] =>
      destruct (purgedKFold_spec q) as (folds & -> & _) end.
    + cbn [numFolds]. lia.
    + cbn [syncTimes testSize]. rewrite length_map, length_seq.
      apply ceil_share; [lia|exact Ht0|by apply Qlt_le_weak].
    + reflexivity.
Qed.

Lemma PurgedCV_Process_outcome_witness :
  (PurgedCVAlgorithm_Process (W:=nat)
     (PurgedCVAlgorithm_Configure PurgedCVAlgorithm_zero AlgorithmConfig_zero).2
     "X" None (replicate 10 (bar 100)) 0%nat).1.1
  = Ok {| Signal := "hold"; OrderType := "none"; LimitPrice := None; Confidence := 5 # 10 |}.
Proof.
  apply (PurgedCV_Process_outcome (W:=nat) PurgedCVAlgorithm_zero AlgorithmConfig_zero
           "X" None (replicate 10 (bar 100)) 0%nat eq_refl).
  vm_compute. discriminate.
Defined.


(** ** Walk-forward validation *)

Lemma slice_Ok {A} (l : list A) (lo hi : Z) :
  (0 <= lo <= hi)%Z -> (hi <= Z.of_nat (length l))%Z ->
  slice l lo hi = Ok (take (Z.to_nat (hi - lo)) (drop (Z.to_nat lo) l)).
Proof.
  intros H1 H2. unfold slice.
  assert ((lo <? 0)%Z = false) as -> by (apply Z.ltb_ge; lia).
  assert ((hi <? lo)%Z = false) as -> by (apply Z.ltb_ge; lia).
  assert ((Z.of_nat (length l) <? hi)%Z = false) as -> by (apply Z.ltb_ge; lia).
  reflexivity.
Qed.

Lemma collect_map {A B} (f : A -> result B) (g : A -> B) (l : list A) :
  (forall x, x ∈ l -> f x = Ok (g x)) -> collect f l = Ok (map g l).
Proof.
  induction l as [|x l IH]; intros Hall; cbn [collect map]; [reflexivity|].
  rewrite (Hall x) by apply list_elem_of_here.
  rewrite IH; [reflexivity|]. intros y Hy. apply Hall. by apply list_elem_of_further.
Qed.

Lemma StronglySorted_lookup {A} (R : A -> A -> Prop) (l : list A) (i j : nat) (a b : A) :
  StronglySorted R l -> (i < j)%nat -> l !! i = Some a -> l !! j = Some b -> R a b.
Proof.
  intros Hs. revert i j. induction Hs as [|x l Hs IH Hall]; intros i j Hij Ha Hb.
  - by rewrite lookup_nil in Ha.
  - destruct j as [|j]; [lia|]. cbn in Hb. destruct i as [|i].
    + cbn in Ha. injection Ha as <-. rewrite Forall_forall in Hall.
      apply Hall. by eapply list_elem_of_lookup_2.
    + cbn in Ha. apply (IH i j); [lia|done|done].
Qed.

(** Consecutive chunks of [size] entries, [count] of them, are the first
    [count * size] entries. *)
Lemma chunks_take {A} (l : list A) (size count : nat) :
  concat (map (fun i => take size (drop (i * size) l)) (seq 0 count))
  = take (count * size) l.
Proof.
  induction count as [|m IH]; [by rewrite take_0|].
  rewrite seq_S, map_app, concat_app, IH. cbn [map concat Nat.add].
  rewrite app_nil_r, take_take_drop. f_equal. lia.
Qed.

(** An entry of the slice the sort receives carries the time of the sample
    its index names. *)
Lemma zip_indices (samples : list Time) (t : Time) (idx : Z) :
  (t, idx) ∈ zip samples (map Z.of_nat (seq 0 (length samples))) ->
  timeAt samples idx = Some t /\ (0 <= idx < Z.of_nat (length samples))%Z.
Proof.
  intros Hin. apply list_elem_of_lookup in Hin as (i & Hi).
  apply lookup_zip_with_Some in Hi as (t' & idx' & [= <- <-] & Ht & Hidx).
  rewrite list_lookup_fmap in Hidx.
  destruct (seq 0 (length samples) !! i) as [i'|] eqn:Hs; [|discriminate].
  apply lookup_seq in Hs as [-> Hlt]. cbn in Hidx. injection Hidx as <-.
  unfold timeAt. assert ((0 <=? Z.of_nat i)%Z = true) as -> by (apply Z.leb_le; lia).
  rewrite Nat2Z.id. split; [exact Ht|lia].
Qed.

(** The sorted index list of [WalkForwardValidation]: a rearrangement of
    the sample indices in which an earlier position never holds a later
    sample. *)
Lemma sortedIndices_spec (sort_Slice : list (Time * Z) -> list (Time * Z))
    (samples : list Time) :
  sorts_by_time sort_Slice ->
  let sortedIndices :=
    map snd (sort_Slice (zip samples (map Z.of_nat (seq 0 (length samples))))) in
  sortedIndices ≡ₚ map Z.of_nat (seq 0 (length samples))
  /\ forall pa pb a b, (pa < pb)%nat ->
       sortedIndices !! pa = Some a -> sortedIndices !! pb = Some b ->
       a <> b
       /\ (default Time_zero (timeAt samples a) <= default Time_zero (timeAt samples b))%Z.
Proof.
  intros Hsort. cbv zeta.
  set (entries := zip samples (map Z.of_nat (seq 0 (length samples)))).
  destruct (Hsort entries) as [Hperm Hsorted].
  assert (Hp : map snd (sort_Slice entries) ≡ₚ map Z.of_nat (seq 0 (length samples))).
  { transitivity (map snd entries); [apply Permutation_map; exact Hperm|].
    subst entries. rewrite snd_zip by (by rewrite length_map, length_seq). reflexivity. }
  split; [exact Hp|].
  intros pa pb a b Hlt Ha Hb.
  assert (Hnd : NoDup (map snd (sort_Slice entries))).
  { rewrite Hp. apply NoDup_indices. }
  split.
  { intros ->. pose proof (NoDup_lookup _ _ _ _ Hnd Ha Hb). lia. }
  rewrite list_lookup_fmap in Ha, Hb.
  destruct (sort_Slice entries !! pa) as [[ta a']|] eqn:Ea; [|discriminate].
  destruct (sort_Slice entries !! pb) as [[tb b']|] eqn:Eb; [|discriminate].
  cbn in Ha, Hb. simplify_eq.
  pose proof (StronglySorted_lookup _ _ _ _ _ _ Hsorted Hlt Ea Eb) as Hle.
  apply list_elem_of_lookup_2 in Ea, Eb. rewrite Hperm in Ea, Eb.
  apply zip_indices in Ea as [-> _]. apply zip_indices in Eb as [-> _].
  exact Hle.
Qed.

(** X14. [WalkForwardValidation] over [n >= 2k] samples with [k >= 1]
    folds, for any sort that meets the contract of [sort.Slice]: it returns
    [k] folds whose test sets, put end to end, are a rearrangement of the
    sample indices (each sample is tested exactly once); no test set is
    empty; no training index of a fold is one of its test indices; and no
    training time of a fold is later than any of its test times. *)
Theorem WalkForwardValidation_folds (sort_Slice : list (Time * Z) -> list (Time * Z))
    (samples : list Time) (k : Z) (embargo : Q) :
  sorts_by_time sort_Slice ->
  (1 <= k)%Z -> (2 * k <= Z.of_nat (length samples))%Z ->
  exists folds,
    WalkForwardValidation sort_Slice samples k embargo = Ok folds
    /\ Z.of_nat (length folds) = k
    /\ concat (map TestIndices folds) ≡ₚ map Z.of_nat (seq 0 (length samples))
    /\ forall fold, fold ∈ folds ->
         TestIndices fold <> []
         /\ (forall j, j ∈ TrainIndices fold -> j ∉ TestIndices fold)
         /\ (forall t t', t ∈ TrainTimes fold -> t' ∈ TestTimes fold -> (t <= t')%Z).
Proof.
  intros Hsort Hk Hn.
  destruct (sortedIndices_spec sort_Slice samples Hsort) as [Hperm Horder].
  unfold WalkForwardValidation. cbv zeta in *.
  set (L := map snd (sort_Slice _)) in *.
  assert (HL : length L = length samples).
  { rewrite Hperm. by rewrite length_map, length_seq. }
  set (n := length samples) in *.
  assert ((Z.of_nat n <? k * 2)%Z = false) as -> by (apply Z.ltb_ge; lia).
  assert ((k =? 0)%Z = false) as -> by (apply Z.eqb_neq; lia).
  assert ((k <? 0)%Z = false) as -> by (apply Z.ltb_ge; lia).
  rewrite HL. rewrite Z.quot_div_nonneg by lia.
  set (fs := (Z.of_nat n / k)%Z).
  assert (Hfs : (2 <= fs)%Z) by (subst fs; apply Z.div_le_lower_bound; lia).
  assert (Hfsk : (k * fs <= Z.of_nat n)%Z) by (subst fs; apply Z.mul_div_le; lia).
  set (testOf := fun i : Z =>
         take (Z.to_nat ((if (i =? k - 1)%Z then Z.of_nat n else (i + 1) * fs) - i * fs))
              (drop (Z.to_nat (i * fs)) L)).
  set (trainOf := fun i : Z =>
         let trainIndices := take (Z.to_nat (i * fs - 0)) (drop (Z.to_nat 0) L) in
         if Qltb 0 embargo && (0 <? length trainIndices)%nat then
           let embargoSize := int_of_float (math_Ceil (float_of_int (Z.of_nat n) * embargo)) in
           if (0 <? embargoSize)%Z && (embargoSize <=? i * fs)%Z
           then take (Z.to_nat (i * fs - embargoSize)) trainIndices
           else trainIndices
         else trainIndices).
  set (foldOf := fun i : Z =>
         {| TrainIndices := trainOf i; TestIndices := testOf i;
            TrainTimes := map (fun idx => default Time_zero (timeAt samples idx)) (trainOf i);
            TestTimes := map (fun idx => default Time_zero (timeAt samples idx)) (testOf i) |}).
  assert (Hbound : forall i, (0 <= i < k)%Z ->
            (0 <= i * fs)%Z
            /\ (i * fs + fs <= (if (i =? k - 1)%Z then Z.of_nat n else (i + 1) * fs))%Z
            /\ ((if (i =? k - 1)%Z then Z.of_nat n else (i + 1) * fs) <= Z.of_nat n)%Z).
  { intros i Hi. destruct (i =? k - 1)%Z eqn:E.
    - apply Z.eqb_eq in E. subst i. nia.
    - apply Z.eqb_neq in E. nia. }
  rewrite (collect_map _ foldOf).
  2:{ intros i Hi. apply elem_of_indices in Hi. rewrite Z2Nat.id in Hi by lia.
      destruct (Hbound i Hi) as (H1 & H2 & H3).
      rewrite slice_Ok by lia. rewrite slice_Ok by lia. reflexivity. }
  eexists. split; [reflexivity|].
  split; [rewrite !length_map, length_seq; lia|].
  assert (Htrain : forall i, (0 <= i < k)%Z ->
            exists m, (m <= Z.to_nat (i * fs))%nat /\ trainOf i = take m L).
  { intros i Hi. destruct (Hbound i Hi) as (H1 & _ & _). subst trainOf. cbv beta zeta.
    change (Z.to_nat 0) with 0%nat. rewrite drop_0, Z.sub_0_r.
    destruct (_ && _); [|by eexists].
    destruct (_ && _) eqn:E; [|by eexists].
    apply andb_true_iff in E as [E1 E2]. apply Z.ltb_lt in E1. apply Z.leb_le in E2.
    rewrite take_take. eexists. split; [|reflexivity]. lia. }
  split.
  - enough (Heq : concat (map TestIndices
                              (map foldOf (map Z.of_nat (seq 0 (Z.to_nat k))))) = L)
      by (rewrite Heq; exact Hperm).
    rewrite !map_map. cbn [TestIndices foldOf].
    assert (Hk' : Z.to_nat k = S (Z.to_nat (k - 1))) by lia.
    rewrite Hk', seq_S, map_app, concat_app. cbn [map concat Nat.add].
    rewrite app_nil_r.
    rewrite (map_ext_in _ (fun i => take (Z.to_nat fs) (drop (i * Z.to_nat fs) L))).
    2:{ intros i Hi. apply in_seq in Hi. subst testOf. cbv beta.
        assert ((Z.of_nat i =? k - 1)%Z = false) as -> by (apply Z.eqb_neq; lia).
        f_equal; [f_equal; lia|f_equal; nia]. }
    rewrite chunks_take. subst testOf. cbv beta.
    assert ((Z.of_nat (Z.to_nat (k - 1)) =? k - 1)%Z = true) as -> by (apply Z.eqb_eq; lia).
    rewrite (take_ge (drop _ L)) by (rewrite length_drop; nia).
    replace (Z.to_nat (Z.of_nat (Z.to_nat (k - 1)) * fs))
      with (Z.to_nat (k - 1) * Z.to_nat fs)%nat by nia.
    apply take_drop.
  - intros fold Hfold. rewrite map_map in Hfold.
    apply list_elem_of_fmap in Hfold as (i' & -> & Hi'). apply elem_of_seq in Hi'.
    set (i := Z.of_nat i'). assert (Hi : (0 <= i < k)%Z) by lia.
    destruct (Hbound i Hi) as (H1 & H2 & H3).
    destruct (Htrain i Hi) as (m & Hm & Htr).
    cbn [foldOf TrainIndices TestIndices TrainTimes TestTimes]. rewrite Htr.
    assert (Hpos : forall a b, a ∈ take m L -> b ∈ testOf i ->
              exists pa pb, (pa < pb)%nat /\ L !! pa = Some a /\ L !! pb = Some b).
    { intros a b Ha Hb.
      apply list_elem_of_lookup in Ha as (pa & Hpa). apply lookup_take_Some in Hpa as [Hpa Hlt].
      apply list_elem_of_lookup in Hb as (pb & Hpb). subst testOf. cbv beta in Hpb.
      apply lookup_take_Some in Hpb as [Hpb _]. rewrite lookup_drop in Hpb.
      exists pa, (Z.to_nat (i * fs) + pb)%nat. split; [lia|done]. }
    split; [|split].
    + subst testOf. cbv beta. intros Hnil. apply (f_equal length) in Hnil.
      rewrite length_take, length_drop in Hnil. cbn [length] in Hnil. nia.
    + intros j Hj Hjt. destruct (Hpos j j Hj Hjt) as (pa & pb & Hlt & Ha & Hb).
      by destruct (Horder pa pb j j Hlt Ha Hb).
    + intros t t' Ht Ht'.
      apply list_elem_of_fmap in Ht as (a & -> & Ha).
      apply list_elem_of_fmap in Ht' as (b & -> & Hb).
      destruct (Hpos a b Ha Hb) as (pa & pb & Hlt & Hpa & Hpb).
      by destruct (Horder pa pb a b Hlt Hpa Hpb).
Qed.

(** Merge sort by time meets the contract of [sort.Slice]. *)
Lemma sort_by_time_sorts : sorts_by_time sort_by_time.
Proof.
  assert (Htrans : Transitive time_le).
  { intros a b c Hab Hbc. unfold time_le in *. lia. }
  assert (Htotal : Total time_le).
  { intros a b. unfold time_le. lia. }
  intros l. unfold sort_by_time. split; [apply merge_sort_Permutation|].
  apply (StronglySorted_merge_sort time_le).
Qed.

Lemma WalkForwardValidation_folds_witness :
  exists folds,
    WalkForwardValidation sort_by_time [50; 10; 40; 20; 30; 60; 70]%Z 3 (2 # 10) = Ok folds
    /\ Z.of_nat (length folds) = 3%Z.
Proof.
  destruct (WalkForwardValidation_folds sort_by_time [50; 10; 40; 20; 30; 60; 70]%Z 3 (2 # 10))
    as (folds & Hfolds & Hlen & _).
  - exact sort_by_time_sorts.
  - lia.
  - cbn. lia.
  - exists folds. split; [exact Hfolds|exact Hlen].
Defined.

(** ** Triple barrier: the walk from an entry *)

(** The walk over the indices [a, ..., timeIdx]: it stops at the first
    index whose price touches a barrier, the upper one checked first, and
    otherwise at the time barrier; the label is the seed confirmed or
    flipped by the barrier, or the sign of the move at the time barrier. *)
Lemma barrierWalk_spec (prices : list Q) (upper lower entry : Q) (timeIdx : nat) (n : nat) :
  forall (a : nat) (st : walkState),
    (a + n = timeIdx + 1)%nat -> (1 <= n)%nat ->
    let out := barrierWalk prices upper lower entry timeIdx (seq a n) st in
    let price := fun j => default 0%Q (prices !! j) in
    exists e, (a <= e <= timeIdx)%nat /\ out.1.2 = e
      /\ (forall j, (a <= j < e)%nat -> (price j < upper)%Q /\ (lower < price j)%Q)
      /\ ((out.1.1 = BarrierTypeUpper /\ (upper <= price e)%Q
           /\ out.2 = (if (st.2 =? BarrierLabelBuy)%Z
                       then BarrierLabelBuy else BarrierLabelSell))
          \/ (out.1.1 = BarrierTypeLower /\ (price e < upper)%Q /\ (price e <= lower)%Q
              /\ out.2 = (if (st.2 =? BarrierLabelBuy)%Z
                          then BarrierLabelSell else BarrierLabelBuy))
          \/ (out.1.1 = BarrierTypeTime /\ e = timeIdx
              /\ (price e < upper)%Q /\ (lower < price e)%Q
              /\ out.2 = (if Qltb entry (price e) then BarrierLabelBuy
                          else if Qltb (price e) entry then BarrierLabelSell
                          else BarrierLabelHold))).
Proof.
  induction n as [|n IH]; intros a [[hit0 exit0] label0] Hlen Hn; [lia|].
  cbv zeta. cbn [seq barrierWalk fst snd].
  destruct (Qleb upper (default 0%Q (prices !! a))) eqn:Eu.
  { apply Qleb_le in Eu. exists a. cbn [fst snd].
    split; [lia|]. split; [reflexivity|]. split; [intros j Hj; lia|]. left. done. }
  apply Qleb_gt in Eu.
  destruct (Qleb (default 0%Q (prices !! a)) lower) eqn:El.
  { apply Qleb_le in El. exists a. cbn [fst snd].
    split; [lia|]. split; [reflexivity|]. split; [intros j Hj; lia|]. right. left. done. }
  apply Qleb_gt in El.
  destruct (a =? timeIdx)%nat eqn:Ea.
  - apply Nat.eqb_eq in Ea. assert (n = 0%nat) as -> by lia. cbn [seq barrierWalk fst snd].
    exists a. split; [lia|]. split; [reflexivity|]. split; [intros j Hj; lia|].
    right. right. done.
  - apply Nat.eqb_neq in Ea.
    destruct (IH (S a) (hit0, exit0, label0) ltac:(lia) ltac:(lia)) as (e & He & Hexit & Hfree & Hcases).
    exists e. split; [lia|]. split; [exact Hexit|]. split; [|exact Hcases].
    intros j Hj. destruct (decide (j = a)) as [->|Hne]; [done|]. apply Hfree. lia.
Qed.

(** What [ApplyTripleBarrier] records for the entry at index [i]. *)
Lemma barrierAt_spec (prices : list Q) (times : list Time) (volatility : Q)
    (cfg : TripleBarrierConfig) (i : nat) :
  (i < length prices - 1)%nat ->
  let n := length prices in
  let price := fun j => default 0%Q (prices !! j) in
  let r := barrierAt prices times volatility cfg i in
  let upper := (price i * (1 + ProfitTaking cfg * volatility))%Q in
  let lower := (price i * (1 - StopLoss cfg * volatility))%Q in
  let upward := Qltb 0 (if (0 <? i)%nat then price i - price (i - 1)%nat else 0) in
  EntryPrice r = price i /\ EntryTime r = default Time_zero (times !! i)
  /\ ((1 <= TimeHorizon cfg)%Z ->
      exists e, (i < e)%nat /\ (Z.of_nat e <= Z.of_nat i + TimeHorizon cfg)%Z
        /\ (e < n)%nat
        /\ ExitPrice r = price e /\ ExitTime r = default Time_zero (times !! e)
        /\ (forall j, (i < j < e)%nat -> (price j < upper)%Q /\ (lower < price j)%Q)
        /\ ((BarrierHit r = BarrierTypeUpper /\ (upper <= price e)%Q
             /\ Label r = (if upward then BarrierLabelBuy else BarrierLabelSell))
            \/ (BarrierHit r = BarrierTypeLower
                /\ (price e < upper)%Q /\ (price e <= lower)%Q
                /\ Label r = (if upward then BarrierLabelSell else BarrierLabelBuy))
            \/ (BarrierHit r = BarrierTypeTime
                /\ Z.of_nat e = Z.min (Z.of_nat i + TimeHorizon cfg) (Z.of_nat n - 1)
                /\ (price e < upper)%Q /\ (lower < price e)%Q
                /\ Label r = (if Qltb (price i) (price e) then BarrierLabelBuy
                              else if Qltb (price e) (price i) then BarrierLabelSell
                              else BarrierLabelHold))))
  /\ ((TimeHorizon cfg <= 0)%Z ->
      BarrierHit r = "" /\ ExitPrice r = price 0%nat
      /\ ExitTime r = default Time_zero (times !! 0%nat)).
Proof.
  intros Hi. cbv zeta. unfold barrierAt.
  set (entry := default 0%Q (prices !! i)).
  set (upper := (entry * (1 + ProfitTaking cfg * volatility))%Q).
  set (lower := (entry * (1 - StopLoss cfg * volatility))%Q).
  set (tb := Z.min (Z.of_nat i + TimeHorizon cfg) (Z.of_nat (length prices) - 1)).
  set (trend := if (0 <? i)%nat then _ else _).
  set (seed := if Qltb 0 trend then BarrierLabelBuy
               else if Qltb trend 0 then BarrierLabelSell else BarrierLabelHold).
  assert (Hseed : (seed =? BarrierLabelBuy)%Z = Qltb 0 trend).
  { subst seed. destruct (Qltb 0 trend); [reflexivity|].
    destruct (Qltb trend 0); reflexivity. }
  destruct (Z_le_gt_dec (TimeHorizon cfg) 0) as [Hh|Hh].
  + assert (Z.to_nat (tb - Z.of_nat i) = 0%nat) as -> by lia. cbn [seq barrierWalk].
    cbn [EntryPrice EntryTime BarrierHit ExitPrice ExitTime].
    split; [reflexivity|]. split; [reflexivity|]. split; [lia|]. intros _. done.
  + pose proof (barrierWalk_spec prices upper lower entry (Z.to_nat tb)
                  (Z.to_nat (tb - Z.of_nat i)) (i + 1)%nat ("", 0%nat, seed)
                  ltac:(lia) ltac:(lia)) as Hw.
    cbv zeta in Hw. destruct (barrierWalk _ _ _ _ _ _ _) as [[hit exitIdx] label].
    cbn [fst snd] in Hw. rewrite Hseed in Hw.
    destruct Hw as (e & He & -> & Hfree & Hcases).
    cbn [EntryPrice EntryTime BarrierHit ExitPrice ExitTime Label].
    split; [reflexivity|]. split; [reflexivity|]. split; [|lia]. intros _.
    exists e. split; [lia|]. split; [lia|]. split; [lia|].
    split; [reflexivity|]. split; [reflexivity|].
    split; [intros j Hj; apply Hfree; lia|].
    destruct Hcases as [(-> & H1 & ->)|[(-> & H1 & H2 & ->)|(-> & -> & H1 & H2 & ->)]].
    * left. done.
    * right. left. done.
    * right. right. split; [reflexivity|]. split; [lia|]. done.
Qed.




(** X16. [GetMetaLabels] over the results of [ApplyTripleBarrier], for a
    positive entry price, volatility, profit-taking and stop-loss factor
    and a horizon of at least 1: a result that exits on the upper or the
    lower barrier is marked successful exactly when its entry followed an
    up-move (whichever of the two barriers was hit), and a result that
    exits on the time barrier exactly when its exit price differs from its
    entry price. *)
Theorem GetMetaLabels_of_barriers (prices : list Q) (times : list Time) (volatility : Q)
    (cfg : TripleBarrierConfig) (results : list BarrierResult) (i : nat)
    (r : BarrierResult) :
  (0 < volatility)%Q -> (0 < ProfitTaking cfg)%Q -> (0 < StopLoss cfg)%Q ->
  (1 <= TimeHorizon cfg)%Z ->
  ApplyTripleBarrier prices times volatility cfg = Ok results ->
  results !! i = Some r ->
  let price := fun j => default 0%Q (prices !! j) in
  (0 < price i)%Q ->
  GetMetaLabels results !! i
  = Some (if String.eqb (BarrierHit r) BarrierTypeTime
          then negb (Qeqb (ExitPrice r) (EntryPrice r))
          else Qltb 0 (if (0 <? i)%nat then price i - price (i - 1)%nat else 0)).
Proof.
  intros Hv Hpt Hsl Hh Hres Hr. cbv zeta. intros Hentry.
  unfold GetMetaLabels. rewrite list_lookup_fmap, Hr. cbn [fmap option_fmap option_map].
  f_equal.
  unfold ApplyTripleBarrier in Hres.
  destruct (length prices <? 2)%nat; [discriminate|].
  destruct (negb _); [discriminate|].
  destruct (Qleb volatility 0); [discriminate|]. injection Hres as <-.
  rewrite list_lookup_fmap in Hr.
  destruct (seq 0 (length prices - 1) !! i) as [i'|] eqn:Hi; [|discriminate].
  apply lookup_seq in Hi as [-> Hi]. cbn in Hr. injection Hr as <-.
  destruct (barrierAt_spec prices times volatility cfg i Hi) as (He1 & _ & Hwalk & _).
  cbv zeta in Hwalk. destruct (Hwalk Hh) as (e & _ & _ & _ & He2 & _ & _ & Hcases).
  rewrite He1, He2.
  set (entry := default 0%Q (prices !! i)) in *.
  set (exit := default 0%Q (prices !! e)) in *.
  set (upward := Qltb 0 _) in *.
  assert (Hx : (0 < ProfitTaking cfg * volatility)%Q) by (by apply Qmult_lt_0_compat).
  assert (Hy : (0 < StopLoss cfg * volatility)%Q) by (by apply Qmult_lt_0_compat).
  assert (Hux : (0 < entry * (ProfitTaking cfg * volatility))%Q)
    by (by apply Qmult_lt_0_compat).
  assert (Huy : (0 < entry * (StopLoss cfg * volatility))%Q)
    by (by apply Qmult_lt_0_compat).
  destruct Hcases as [(-> & Hb1 & ->)|[(-> & Hb1 & Hb2 & ->)|(-> & _ & _ & _ & ->)]];
    cbn [String.eqb Ascii.eqb Bool.eqb BarrierTypeUpper BarrierTypeLower BarrierTypeTime].
  - assert (Hlt : (entry < exit)%Q) by lra.
    assert (Qltb entry exit = true) as -> by (by apply Qltb_lt).
    assert (Qltb exit entry = false) as -> by (apply Qltb_ge; lra).
    by destruct upward.
  - assert (Hlt : (exit < entry)%Q) by lra.
    assert (Qltb entry exit = false) as -> by (apply Qltb_ge; lra).
    assert (Qltb exit entry = true) as -> by (by apply Qltb_lt).
    by destruct upward.
  - destruct (Qltb entry exit) eqn:E1.
    + apply Qltb_lt in E1. cbn.
      assert (Qeqb exit entry = false) as ->; [|reflexivity].
      apply not_true_iff_false. rewrite Qeqb_eq. lra.
    + destruct (Qltb exit entry) eqn:E2.
      * apply Qltb_lt in E2. cbn.
        assert (Qeqb exit entry = false) as ->; [|reflexivity].
        apply not_true_iff_false. rewrite Qeqb_eq. lra.
      * apply Qltb_ge in E1, E2. cbn.
        assert (Qeqb exit entry = true) as ->; [|reflexivity].
        apply Qeqb_eq. lra.
Qed.

Lemma GetMetaLabels_of_barriers_witness :
  exists results r,
    ApplyTripleBarrier [100; 102; 104; 106; 108; 110]%Q (daily 6) (1 # 100)
      {| ProfitTaking := 3; StopLoss := 2; TimeHorizon := 5; VolatilityLookback := 20 |}
    = Ok results
    /\ results !! 1%nat = Some r
    /\ BarrierHit r = BarrierTypeUpper
    /\ GetMetaLabels results !! 1%nat = Some true.
Proof.
  eexists _, _.
  match goal with
  | |- ?run /\ ?at1 /\ _ =>
      assert (Hrun : run) by (vm_compute; reflexivity);
      assert (Hr : at1) by (vm_compute; reflexivity)
  end.
  split; [exact Hrun|]. split; [exact Hr|]. split; [reflexivity|].
  pose proof (fun Hv Hpt Hsl Hh Hp =>
                GetMetaLabels_of_barriers _ _ _ _ _ _ _ Hv Hpt Hsl Hh Hrun Hr Hp) as Hmeta.
  apply Hmeta; [reflexivity|reflexivity|reflexivity|cbn; lia|reflexivity].
Defined.

(** ** The coordinator: risk-parameter updates, market data and orders *)

Section Coordinator.
Import algorithm.

Lemma validateParameter_stored (k : string) (v : value) :
  match validateParameter k v with
  | Ok None => stored_value k v = v
  | Ok (Some v') => v' = stored_value k v
  | _ => True
  end.
Proof.
  unfold validateParameter, stored_value.
  destruct (bool_decide (k ∈ percentKeys)); [repeat case_match; by simplify_eq|].
  destruct (String.eqb k "max_trades_per_day"); [|done].
  repeat case_match; by simplify_eq.
Qed.

(** The validation loop over entries with distinct keys, each of which the
    map still holds: every entry ends up with its stored value, every
    other key as it was. *)
Lemma validateParameters_lookup (entries : list (string * value)) :
  NoDup entries.*1 ->
  forall acc params',
    (forall k v, (k, v) ∈ entries -> acc !! k = Some v) ->
    validateParameters entries acc = Ok params' ->
    (forall k v, (k, v) ∈ entries -> params' !! k = Some (stored_value k v))
    /\ (forall k, k ∉ entries.*1 -> params' !! k = acc !! k).
Proof.
  induction entries as [|[k0 v0] entries IH]; intros Hnd acc params' Hacc Hval.
  - cbn in Hval. injection Hval as <-. split; [|done].
    intros k v Hin. by apply elem_of_nil in Hin.
  - cbn [fmap list_fmap fst] in Hnd. apply NoDup_cons in Hnd as [Hk0 Hnd].
    cbn [validateParameters] in Hval.
    pose proof (validateParameter_stored k0 v0) as Hst.
    assert (Hne : forall k v, (k, v) ∈ entries -> k <> k0).
    { intros k v Hin ->. apply Hk0. apply list_elem_of_fmap. by exists (k0, v). }
    destruct (validateParameter k0 v0) as [[v'|]| |]; try discriminate.
    + destruct (IH Hnd (<[k0 := v']> acc) params') as [Hin Hout]; [|exact Hval|].
      { intros k v Hkv. rewrite lookup_insert_ne by (intros <-; by eapply Hne).
        apply Hacc. by apply list_elem_of_further. }
      split.
      * intros k v Hkv. apply elem_of_cons in Hkv as [[= -> ->]|Hkv]; [|by apply Hin].
        rewrite Hout by exact Hk0. rewrite lookup_insert_eq. by rewrite Hst.
      * intros k Hk. cbn [fmap list_fmap fst] in Hk. apply not_elem_of_cons in Hk as [Hk1 Hk2].
        rewrite Hout by exact Hk2. by rewrite lookup_insert_ne.
    + destruct (IH Hnd acc params') as [Hin Hout]; [|exact Hval|].
      { intros k v Hkv. apply Hacc. by apply list_elem_of_further. }
      split.
      * intros k v Hkv. apply elem_of_cons in Hkv as [[= -> ->]|Hkv]; [|by apply Hin].
        rewrite Hout by exact Hk0. rewrite Hst. apply Hacc. apply list_elem_of_here.
      * intros k Hk. cbn [fmap list_fmap fst] in Hk. apply not_elem_of_cons in Hk as [Hk1 Hk2].
        by apply Hout.
Qed.

(** The update loop over entries with distinct keys. *)
Lemma update_lookup (entries : list (string * value)) :
  NoDup entries.*1 ->
  forall (m : gmap string value),
    let updated := fold_left (fun m '(k, v) => <[k := v]> m) entries m in
    (forall k v, (k, v) ∈ entries -> updated !! k = Some v)
    /\ (forall k, k ∉ entries.*1 -> updated !! k = m !! k).
Proof.
  induction entries as [|[k0 v0] entries IH]; intros Hnd m; cbv zeta.
  - split; [|done]. intros k v Hin. by apply elem_of_nil in Hin.
  - cbn [fmap list_fmap fst] in Hnd. apply NoDup_cons in Hnd as [Hk0 Hnd].
    cbn [fold_left]. destruct (IH Hnd (<[k0 := v0]> m)) as [Hin Hout]. split.
    + intros k v Hkv. apply elem_of_cons in Hkv as [[= -> ->]|Hkv]; [|by apply Hin].
      rewrite Hout by exact Hk0. by rewrite lookup_insert_eq.
    + intros k Hk. cbn [fmap list_fmap fst] in Hk. apply not_elem_of_cons in Hk as [Hk1 Hk2].
      rewrite Hout by exact Hk2. by rewrite lookup_insert_ne.
Qed.

Lemma range_map_NoDup `{Runtime W} `{!RangeVisitsAll W} (m : gmap string value) (w : W) :
  NoDup (range_map m w).1.*1.
Proof.
  rewrite range_map_Permutation. apply NoDup_fst_map_to_list.
Qed.

(** X17. An [UpdateRiskParameters] that returns no error stores every entry
    of the map it was given, an [int] for a percent field as [float64] and
    a [float64] for [max_trades_per_day] as [int]; every other risk
    parameter and the rest of the coordinator keep their values. *)
Theorem UpdateRiskParameters_stores `{Runtime W} `{!RangeVisitsAll W}
    (a : TradingAlgorithm) (params : gmap string value) (w : W) :
  let outcome := UpdateRiskParameters a params w in
  let a' := outcome.1.2 in
  outcome.1.1 = None ->
  (forall k, riskParameters a' !! k
             = match params !! k with
               | Some v => Some (stored_value k v)
               | None => riskParameters a !! k
               end)
  /\ marketData a' = marketData a /\ signals a' = signals a
  /\ portfolio a' = portfolio a /\ tradingEnabled a' = tradingEnabled a.
Proof.
  cbv zeta. unfold UpdateRiskParameters.
  pose proof (range_map_lookup params w) as Hrange.
  pose proof (range_map_NoDup params w) as Hnd.
  destruct (range_map params w) as [entries w1]. cbn [fst] in Hrange, Hnd.
  destruct (validateParameters entries params) as [params'| |] eqn:Hval; cbn; try done.
  destruct (validateParameters_lookup entries Hnd params params') as [Hin Hout];
    [intros k v Hkv; by apply Hrange|exact Hval|].
  pose proof (range_map_lookup params' w1) as Hrange'.
  pose proof (range_map_NoDup params' w1) as Hnd'.
  destruct (range_map params' w1) as [entries' w2]. cbn [fst snd] in *.
  intros _. split; [|done].
  destruct (update_lookup entries' Hnd' (riskParameters a)) as [Hin' Hout'].
  cbv zeta in Hin', Hout'. intros k.
  destruct (params !! k) as [v|] eqn:Hk.
  - apply Hin'. apply Hrange'. apply Hin. by apply Hrange.
  - assert (Hk' : params' !! k = None).
    { rewrite Hout; [exact Hk|]. intros Hmem.
      apply list_elem_of_fmap in Hmem as ([k' v'] & -> & Hkv).
      apply Hrange in Hkv. cbn in Hk. congruence. }
    apply Hout'. intros Hmem. apply list_elem_of_fmap in Hmem as ([k' v'] & -> & Hkv).
    apply Hrange' in Hkv. cbn in Hk'. congruence.
Qed.

Lemma UpdateRiskParameters_stores_witness :
  let outcome :=
    UpdateRiskParameters (W := nat) NewTradingAlgorithm
      (<["stop_loss_percent" := VInt 2]> (<["max_trades_per_day" := VFloat 3]> ∅)) 0%nat in
  riskParameters outcome.1.2 !! "stop_loss_percent" = Some (VFloat 2)
  /\ riskParameters outcome.1.2 !! "max_trades_per_day" = Some (VInt 3)
  /\ riskParameters outcome.1.2 !! "take_profit_percent" = Some (VFloat 15).
Proof.
  cbv zeta.
  destruct (UpdateRiskParameters_stores (W := nat) NewTradingAlgorithm
              (<["stop_loss_percent" := VInt 2]> (<["max_trades_per_day" := VFloat 3]> ∅))
              0%nat) as [Hstored _]; [vm_compute; reflexivity|].
  split; [|split].
  - rewrite (Hstored "stop_loss_percent"). reflexivity.
  - rewrite (Hstored "max_trades_per_day"). reflexivity.
  - rewrite (Hstored "take_profit_percent"). reflexivity.
Defined.

(** X18. [ExecuteTrade] returns an error exactly for a nil signal, a symbol
    without market data, or a signal other than buy, sell, close and hold;
    and for a symbol with market data it succeeds without an order exactly
    for a hold, a buy on top of a long position, and a close without a
    position. *)
Theorem ExecuteTrade_outcome (a : TradingAlgorithm) :
  is_Err (ExecuteTrade a None) = true
  /\ forall signal,
      (marketData a !! Symbol signal = None ->
         is_Err (ExecuteTrade a (Some signal)) = true)
      /\ (is_Some (marketData a !! Symbol signal) ->
          (is_Err (ExecuteTrade a (Some signal)) = true <->
             Signal signal <> SignalBuy /\ Signal signal <> SignalSell
             /\ Signal signal <> SignalClose /\ Signal signal <> SignalHold)
          /\ (ExecuteTrade a (Some signal) = Ok None <->
              Signal signal = SignalHold
              \/ (Signal signal = SignalBuy /\ holdsLong a (Symbol signal))
              \/ (Signal signal = SignalClose
                  /\ Positions (portfolio a) !! Symbol signal = None))).
Proof.
  split; [reflexivity|]. intros signal. split.
  - intros Hmd. unfold ExecuteTrade. rewrite Hmd. reflexivity.
  - intros [md Hmd]. unfold ExecuteTrade. rewrite Hmd. cbv zeta.
    pose proof (holdsLong_dec a (Symbol signal)) as Hlong.
    destruct (String.eqb (Signal signal) SignalBuy) eqn:Eb.
    { apply String.eqb_eq in Eb. rewrite Eb.
      destruct (match Positions (portfolio a) !! Symbol signal with
                | Some pos => Qltb 0 (Quantity pos) | None => false end) eqn:El.
      - split; [split; [discriminate|intros (? & _); done]|].
        split; [intros _; right; left; split; [done|by apply Hlong]|done].
      - split; [split; [discriminate|intros (? & _); done]|].
        split; [discriminate|].
        intros [?|[[_ Hl]|[? _]]]; try discriminate.
        apply Hlong in Hl. congruence. }
    apply String.eqb_neq in Eb.
    destruct (String.eqb (Signal signal) SignalSell) eqn:Es.
    { apply String.eqb_eq in Es. rewrite Es.
      split.
      - split; [|intros (_ & ? & _); done].
        destruct (Positions (portfolio a) !! Symbol signal) as [pos|];
          [destruct (Qltb 0 (Quantity pos))|]; discriminate.
      - split; [|intros [?|[[? _]|[? _]]]; discriminate].
        destruct (Positions (portfolio a) !! Symbol signal) as [pos|];
          [destruct (Qltb 0 (Quantity pos))|]; discriminate. }
    apply String.eqb_neq in Es.
    destruct (String.eqb (Signal signal) SignalClose) eqn:Ec.
    { apply String.eqb_eq in Ec. rewrite Ec.
      destruct (Positions (portfolio a) !! Symbol signal) as [pos|].
      - split; [split; [discriminate|intros (_ & _ & ? & _); done]|].
        split; [discriminate|]. intros [?|[[? _]|[_ ?]]]; discriminate.
      - split; [split; [discriminate|intros (_ & _ & ? & _); done]|].
        split; [intros _; right; right; done|done]. }
    apply String.eqb_neq in Ec.
    destruct (String.eqb (Signal signal) SignalHold) eqn:Eh.
    { apply String.eqb_eq in Eh.
      split; [split; [discriminate|intros (_ & _ & _ & ?); done]|].
      split; [intros _; by left|done]. }
    apply String.eqb_neq in Eh.
    split; [split; [done|reflexivity]|].
    split; [discriminate|]. intros [?|[[? _]|[? _]]]; done.
Qed.



(** X20. After [UpdateMarketData], [GetMarketData] of the same symbol
    returns the values fed, and a change of 0 is replaced by the percentage
    move from the price held before when that price was positive; the
    market data of every other symbol and the rest of the coordinator
    are untouched.  A symbol that was never fed reads as the zero entry. *)
Theorem UpdateMarketData_GetMarketData (a : TradingAlgorithm) (symbol : string)
    (price high24h low24h volume24h change24h : Q) :
  let a' := UpdateMarketData a symbol price high24h low24h volume24h change24h in
  let md := GetMarketData a' symbol in
  md_Symbol md = symbol /\ Price md = price /\ High24h md = high24h
  /\ Low24h md = low24h /\ Volume24h md = volume24h
  /\ (forall before, marketData a !! symbol = Some before ->
        (change24h == 0)%Q -> (0 < Price before)%Q ->
        Change24h md = ((price - Price before) / Price before * 100)%Q)
  /\ ((marketData a !! symbol = None \/ ~ (change24h == 0)%Q
       \/ (Price (GetMarketData a symbol) <= 0)%Q) ->
      Change24h md = change24h)
  /\ (forall other, other <> symbol -> GetMarketData a' other = GetMarketData a other)
  /\ (marketData a !! symbol = None -> GetMarketData a symbol = MarketData_zero)
  /\ signals a' = signals a /\ portfolio a' = portfolio a
  /\ riskParameters a' = riskParameters a /\ tradingEnabled a' = tradingEnabled a.
Proof.
  cbv zeta. unfold GetMarketData, UpdateMarketData. cbn [marketData].
  rewrite lookup_insert_eq. cbn [default from_option id md_Symbol Price High24h Low24h
                                  Volume24h Change24h].
  repeat split; try reflexivity.
  - intros before Hb Hc Hp. rewrite Hb.
    apply Qeqb_eq in Hc. apply Qltb_lt in Hp. rewrite Hc, Hp. reflexivity.
  - intros [Hn|[Hc|Hp]].
    + rewrite Hn. reflexivity.
    + destruct (marketData a !! symbol); [|reflexivity].
      assert (Qeqb change24h 0 = false) as ->; [|reflexivity].
      apply not_true_iff_false. by rewrite Qeqb_eq.
    + destruct (marketData a !! symbol) as [before|]; [|reflexivity].
      cbn [default from_option id] in Hp. apply Qltb_ge in Hp. rewrite Hp.
      by rewrite andb_false_r.
  - intros other Hne. by rewrite lookup_insert_ne.
  - intros ->. reflexivity.
Qed.
End Coordinator.

(** ** Position sizing: the size of one trade *)

Lemma math_Max_lower (x y : Q) : (x <= math_Max x y)%Q.
Proof. unfold math_Max. apply Q.le_max_l. Qed.

Lemma math_Min_cases (x y : Q) :
  ((x <= y)%Q /\ (math_Min x y == x)%Q) \/ ((y <= x)%Q /\ (math_Min x y == y)%Q).
Proof.
  unfold math_Min.
  destruct (Q.min_spec x y) as [[Hlt Heq]|[Hle Heq]]; [left|right]; split;
    try exact Heq; lra.
Qed.

Lemma math_Max_cases (x y : Q) :
  ((y <= x)%Q /\ (math_Max x y == x)%Q) \/ ((x <= y)%Q /\ (math_Max x y == y)%Q).
Proof.
  unfold math_Max.
  destruct (Q.max_spec x y) as [[Hlt Heq]|[Hle Heq]]; [right|left]; split;
    try exact Heq; lra.
Qed.

Lemma kelly_size_bounds (c rf adj ms : Q) :
  (0 <= ms)%Q -> (0 <= rf)%Q -> (0 <= adj)%Q ->
  let kelly := math_Max 0 ((c * 1 - (1 - c)) / 1 * rf) in
  let size := math_Min ms (kelly * adj) in
  (0 <= size)%Q /\ (size <= ms)%Q /\ ((c <= 1 # 2)%Q -> (size == 0)%Q).
Proof.
  intros Hms Hrf Hadj kelly size.
  assert (Hk0 : (0 <= kelly)%Q) by apply math_Max_lower.
  assert (Hka : (0 <= kelly * adj)%Q) by (apply Qmult_le_0_compat; assumption).
  assert (Hkz : (c <= 1 # 2)%Q -> (kelly == 0)%Q).
  { intros Hc.
    assert (Hx : ((c * 1 - (1 - c)) / 1 * rf == - ((1 - 2 * c) * rf))%Q) by field.
    assert (Hp : (0 <= (1 - 2 * c) * rf)%Q) by (apply Qmult_le_0_compat; lra).
    subst kelly.
    destruct (math_Max_cases 0 ((c * 1 - (1 - c)) / 1 * rf)) as [[_ Hm]|[Hge Hm]];
      [exact Hm|].
    rewrite Hm, Hx. rewrite Hx in Hge. lra. }
  subst size.
  destruct (math_Min_cases ms (kelly * adj)) as [[Hle Hm]|[Hle Hm]]; rewrite Hm.
  - split; [exact Hms|]. split; [lra|].
    intros Hc. rewrite (Hkz Hc) in Hle. lra.
  - split; [exact Hka|]. split; [exact Hle|].
    intros Hc. rewrite (Hkz Hc). lra.
Qed.

Lemma volAdjustment_nonneg (x : Q) : (0 <= math_Min 2 (math_Max (5 # 10) x))%Q.
Proof.
  destruct (math_Min_cases 2 (math_Max (5 # 10) x)) as [[_ Hm]|[_ Hm]]; rewrite Hm;
    [lra|].
  pose proof (math_Max_lower (5 # 10) x). lra.
Qed.

(** X21. [calculatePositionSize] accepts exactly the signals buy and sell
    with a confidence in (0, 1] and a positive volatility.  For a sizer
    whose maximum size and risk fraction are not negative, the size it
    returns lies between 0 and the maximum size, is 0 whenever the
    confidence is at most one half, and the risk per trade is the size
    times the volatility. *)
Theorem calculatePositionSize_bounds (p : PositionSizingAlgorithm) (signal : string)
    (confidence volatility currentPrice : Q) :
  (0 <= maxSize p)%Q -> (0 <= riskFraction p)%Q ->
  match PositionSizingAlgorithm_calculatePositionSize
          p signal confidence volatility currentPrice with
  | Ok r =>
      (signal = "buy" \/ signal = "sell")
      /\ (0 < confidence)%Q /\ (confidence <= 1)%Q /\ (0 < volatility)%Q
      /\ psr_Signal r = signal /\ psr_Confidence r = confidence
      /\ VolAdjusted r = useVolAdjustment p
      /\ (0 <= Size r)%Q /\ (Size r <= maxSize p)%Q
      /\ ((confidence <= 1 # 2)%Q -> (Size r == 0)%Q)
      /\ (RiskPerTrade r == Size r * volatility)%Q
  | Err _ =>
      (signal <> "buy" /\ signal <> "sell")
      \/ (confidence <= 0)%Q \/ (1 < confidence)%Q \/ (volatility <= 0)%Q
  | Panic _ => False
  end.
Proof.
  intros Hmax Hrf. unfold PositionSizingAlgorithm_calculatePositionSize.
  destruct (negb (String.eqb signal "buy") && negb (String.eqb signal "sell")) eqn:Es.
  { left. apply andb_true_iff in Es as [Eb Esl].
    apply negb_true_iff in Eb, Esl. apply String.eqb_neq in Eb, Esl. auto. }
  assert (Hsig : signal = "buy" \/ signal = "sell").
  { apply andb_false_iff in Es as [E|E]; apply negb_false_iff, String.eqb_eq in E; auto. }
  destruct (Qleb confidence 0) eqn:E0; cbn [orb].
  { apply Qleb_le in E0. auto. }
  destruct (Qltb 1 confidence) eqn:E1.
  { apply Qltb_lt in E1. auto. }
  destruct (Qleb volatility 0) eqn:Ev.
  { apply Qleb_le in Ev. auto. }
  apply Qleb_gt in E0. apply Qltb_ge in E1. apply Qleb_gt in Ev.
  destruct (useVolAdjustment p) eqn:Eu; cbn [Size RiskPerTrade psr_Signal psr_Confidence
                                              VolAdjusted].
  - destruct (kelly_size_bounds confidence (riskFraction p)
                (math_Min 2 (math_Max (5 # 10) (1 / (volatility / (1 # 100)))))
                (maxSize p) Hmax Hrf (volAdjustment_nonneg _)) as (H0 & H1 & H2).
    repeat (split; [first [assumption | reflexivity]|]). reflexivity.
  - destruct (kelly_size_bounds confidence (riskFraction p) 1 (maxSize p) Hmax Hrf
                ltac:(lra)) as (H0 & H1 & H2).
    cbv zeta in H0, H1, H2.
    assert (Heq : (math_Min (maxSize p)
                     (math_Max 0 ((confidence * 1 - (1 - confidence)) / 1 * riskFraction p) * 1)
                   == math_Min (maxSize p)
                        (math_Max 0 ((confidence * 1 - (1 - confidence)) / 1 * riskFraction p)))%Q).
    { unfold math_Min. rewrite Qmult_1_r. reflexivity. }
    rewrite Heq in H0, H1, H2.
    repeat (split; [first [assumption | reflexivity]|]). reflexivity.
Qed.

Lemma calculatePositionSize_bounds_witness :
  let p := {| ps_base := BaseAlgorithm_zero; maxSize := 2 # 10; riskFraction := 3 # 10;
              useVolAdjustment := true; volLookback := 20; maxDrawdown := 1 # 10;
              ps_primaryAlgorithm := AlgorithmTypeSequentialBootstrap;
              metaLabeling := true |} in
  exists r,
    PositionSizingAlgorithm_calculatePositionSize p "buy" (8 # 10) (2 # 100) 100 = Ok r
    /\ (0 <= Size r)%Q /\ (Size r <= 2 # 10)%Q.
Proof.
  intros p.
  pose proof (calculatePositionSize_bounds p "buy" (8 # 10) (2 # 100) 100
                ltac:(cbn; lra) ltac:(cbn; lra)) as H.
  destruct (PositionSizingAlgorithm_calculatePositionSize p "buy" (8 # 10) (2 # 100) 100)
    as [r|e|e] eqn:E.
  - exists r. destruct H as (_ & _ & _ & _ & _ & _ & _ & H0 & H1 & _).
    split; [reflexivity|]. split; [exact H0|exact H1].
  - vm_compute in E. discriminate E.
  - destruct H.
Defined.

(** ** The ensemble combiner in general *)

Lemma range_map_elem `{Runtime W} `{Countable K} {V : Type} (m : gmap K V) (w : W)
    (e : K * V) :
  e ∈ (range_map m w).1 -> e ∈ map_to_list m.
Proof.
  unfold range_map. destruct (range_perm _ w) as [p w']. cbn [fst].
  intros He. apply list_elem_of_omap in He as (i & _ & Hi).
  eapply list_elem_of_lookup_2, Hi.
Qed.

Lemma pickMax_fold_spec (entries : list (string * Q)) (best : string * Q) :
  let r := fold_left (fun (best : string * Q) (e : string * Q) =>
                        if Qltb (snd best) (snd e) then e else best) entries best in
  (r = best \/ r ∈ entries) /\ (snd best <= snd r)%Q
  /\ Forall (fun e => (snd e <= snd r)%Q) entries.
Proof.
  cbv zeta. revert best. induction entries as [|e entries IH]; intros best; cbn [fold_left].
  - split; [by left|]. split; [lra|constructor].
  - destruct (Qltb (snd best) (snd e)) eqn:E.
    + apply Qltb_lt in E. destruct (IH e) as (Hm & Hle & Hall).
      split; [right; destruct Hm as [-> | Hm]; [left | by right]|].
      split; [lra|]. constructor; [exact Hle|exact Hall].
    + apply Qltb_ge in E. destruct (IH best) as (Hm & Hle & Hall).
      split; [destruct Hm as [-> | Hm]; [by left | right; by right]|].
      split; [exact Hle|]. constructor; [lra|exact Hall].
Qed.

Lemma pickMax_spec (entries : list (string * Q)) :
  (pickMax entries = ("", 0%Q) \/ pickMax entries ∈ entries)
  /\ (0 <= snd (pickMax entries))%Q
  /\ Forall (fun e => (snd e <= snd (pickMax entries))%Q) entries.
Proof. exact (pickMax_fold_spec entries ("", 0%Q)). Qed.

(** The weight a signal has collected after the first loop. *)
Lemma tally_weight_of (results : list AlgorithmResult) (t : tally) (k : string) :
  default 0%Q (signalWeights (fold_left tallyStep results t) !! k)
  = fold_left Qplus (map Confidence (filter (fun r => Signal r = k) results))
              (default 0%Q (signalWeights t !! k)).
Proof.
  revert t. induction results as [|r results IH]; intros t; [reflexivity|].
  cbn [fold_left]. rewrite IH, filter_cons. cbn [tallyStep signalWeights].
  destruct (decide (Signal r = k)) as [<-|Hne].
  - rewrite lookup_insert_eq. reflexivity.
  - rewrite lookup_insert_ne by done. reflexivity.
Qed.

Lemma tally_keys (results : list AlgorithmResult) (t : tally) (k : string) :
  is_Some (signalWeights (fold_left tallyStep results t) !! k) ->
  is_Some (signalWeights t !! k) \/ k ∈ map Signal results.
Proof.
  revert t. induction results as [|r results IH]; intros t; cbn [fold_left]; [by left|].
  intros Hk. destruct (IH _ Hk) as [Hs|Hin].
  - cbn [tallyStep signalWeights] in Hs.
    destruct (decide (Signal r = k)) as [<-|Hne].
    + right. cbn [map]. apply list_elem_of_here.
    + rewrite lookup_insert_ne in Hs by done. by left.
  - right. cbn [map]. by apply list_elem_of_further.
Qed.

Lemma normalizedWeights_lookup (t : tally) (k : string) (v : Q) :
  normalizedWeights t !! k = Some v ->
  exists v0, signalWeights t !! k = Some v0
    /\ v = (if Qltb 0 (totalConfidence t) then v0 / totalConfidence t else v0)%Q.
Proof.
  unfold normalizedWeights. destruct (Qltb 0 (totalConfidence t)).
  - rewrite lookup_fmap. destruct (signalWeights t !! k) as [v0|]; [|done].
    cbn. intros [= <-]. by exists v0.
  - intros Hv. by exists v.
Qed.

(** X22. [combineResults] fails only on an empty list and returns a single
    result as it is.  For two or more results the combined signal is one
    of the signals given, hold, or the empty string; the order is a limit
    order only for a buy whose weight exceeds 0.7, and a market order
    without a limit price otherwise; a limit price is only set when some
    buy result carries one. *)
Theorem combineResults_outcome `{Runtime W} (symbol : string)
    (results : list AlgorithmResult) (w : W) :
  match (combineResults symbol results w).1 with
  | Err _ => results = []
  | Panic _ => False
  | Ok r =>
      (forall r0, results = [r0] -> r = r0)
      /\ ((2 <= length results)%nat ->
          (Signal r = "" \/ Signal r = SignalHold \/ Signal r ∈ map Signal results)
          /\ ((OrderType r = "limit" /\ Signal r = SignalBuy /\ (7 # 10 < Confidence r)%Q)
              \/ (OrderType r = "market" /\ LimitPrice r = None))
          /\ (forall lp, LimitPrice r = Some lp ->
                exists r0, r0 ∈ results /\ Signal r0 = SignalBuy
                  /\ is_Some (LimitPrice r0)))
  end.
Proof.
  destruct results as [|r1 [|r2 results]]; cbn [combineResults fst]; [reflexivity| |].
  { split; [by intros r0 [= <-]|]. cbn [length]. lia. }
  unfold combineResults.
  set (rs := r1 :: r2 :: results).
  destruct (range_map (normalizedWeights (tallyResults rs)) w) as [entries w'] eqn:Er.
  assert (Hent : forall e, e ∈ entries -> e ∈ map_to_list (normalizedWeights (tallyResults rs))).
  { intros e He. apply (range_map_elem _ w). rewrite Er. exact He. }
  destruct (pickMax entries) as [sig0 wt0] eqn:Ep.
  assert (Hsig0 : sig0 = "" \/ sig0 ∈ map Signal rs).
  { destruct (pickMax_spec entries) as (Hm & _ & _). rewrite Ep in Hm.
    destruct Hm as [[= -> _]|Hm]; [by left|right].
    apply Hent, elem_of_map_to_list, normalizedWeights_lookup in Hm as (v0 & Hv0 & _).
    destruct (tally_keys rs tally_zero sig0) as [Hs|Hin]; [by eexists| |exact Hin].
    cbn in Hs. rewrite lookup_empty in Hs. by destruct Hs. }
  match goal with
  | |- context [if ?c then (SignalHold, ?m) else _] =>
      destruct c eqn:Eclose; set (mid := m) in *
  end.
  all: match goal with
       | |- context [if ?c then ("limit", _) else _] => destruct c eqn:Elim
       end.
  all: cbn [fst Signal OrderType LimitPrice Confidence].
  all: split; [intros r0 [=]|]; intros _.
  all: try (apply andb_true_iff in Elim as [Eb Ew];
            apply String.eqb_eq in Eb; apply Qltb_lt in Ew).
  all: try discriminate Eb.
  all: (split; [|split]).
  all: try (intros lp [=]; fail).
  all: try (right; split; reflexivity).
  all: try (right; by left).
  all: try (left; split; [reflexivity|]; split; assumption).
  all: try (destruct Hsig0 as [->|Hin]; [by left|right; right; exact Hin]).
  intros lp Hlp. unfold averageBuyLimit in Hlp.
  destruct (omap _ rs) as [|q priced] eqn:Eo; [discriminate Hlp|].
  assert (Hq : q ∈ omap (fun r => if String.eqb (Signal r) SignalBuy then LimitPrice r
                                  else None) rs)
    by (rewrite Eo; apply list_elem_of_here).
  apply list_elem_of_omap in Hq as (r0 & Hr0 & Hq).
  exists r0. split; [exact Hr0|].
  destruct (String.eqb (Signal r0) SignalBuy) eqn:E0; [|discriminate Hq].
  apply String.eqb_eq in E0. split; [exact E0|]. by eexists.
Qed.

Lemma Qsum_nonneg (l : list Q) : Forall (fun x => (0 <= x)%Q) l -> (0 <= Qsum l)%Q.
Proof.
  induction 1 as [|x l Hx _ IH]; [unfold Qsum; cbn; lra|].
  rewrite Qsum_cons. lra.
Qed.

Lemma Qsum_elem_le (l : list Q) (x : Q) :
  Forall (fun x => (0 <= x)%Q) l -> x ∈ l -> (x <= Qsum l)%Q.
Proof.
  induction 1 as [|y l Hy Hl IH]; intros Hin; [by apply elem_of_nil in Hin|].
  rewrite Qsum_cons. pose proof (Qsum_nonneg l Hl).
  apply elem_of_cons in Hin as [->|Hin]; [lra|]. specialize (IH Hin). lra.
Qed.

Lemma confidenceOf_nonneg (results : list AlgorithmResult) (k : string) :
  Forall (fun r => (0 <= Confidence r)%Q) results -> (0 <= confidenceOf k results)%Q.
Proof.
  intros Hall. unfold confidenceOf. apply Qsum_nonneg.
  apply Forall_forall. intros x Hx.
  apply list_elem_of_In, in_map_iff in Hx as (r & <- & Hr).
  apply list_elem_of_In, list_elem_of_filter in Hr as [_ Hr].
  rewrite Forall_forall in Hall. by apply Hall.
Qed.

Lemma confidenceOf_ge (results : list AlgorithmResult) (r0 : AlgorithmResult) :
  Forall (fun r => (0 <= Confidence r)%Q) results -> r0 ∈ results ->
  (Confidence r0 <= confidenceOf (Signal r0) results)%Q.
Proof.
  intros Hall Hin. unfold confidenceOf. apply Qsum_elem_le.
  - apply Forall_forall. intros x Hx.
    apply list_elem_of_In, in_map_iff in Hx as (r & <- & Hr).
    apply list_elem_of_In, list_elem_of_filter in Hr as [_ Hr].
    rewrite Forall_forall in Hall. by apply Hall.
  - apply list_elem_of_In, in_map_iff. exists r0. split; [done|].
    apply list_elem_of_In, list_elem_of_filter. done.
Qed.

Lemma tally_has_key (results : list AlgorithmResult) (t : tally) (k : string) :
  is_Some (signalWeights t !! k) \/ k ∈ map Signal results ->
  is_Some (signalWeights (fold_left tallyStep results t) !! k).
Proof.
  revert t. induction results as [|r results IH]; intros t; cbn [fold_left map].
  - intros [Hs|Hin]; [exact Hs|by apply elem_of_nil in Hin].
  - intros Hk. apply IH. cbn [tallyStep signalWeights].
    destruct (decide (Signal r = k)) as [<-|Hne].
    + left. rewrite lookup_insert_eq. by eexists.
    + rewrite lookup_insert_ne by done.
      destruct Hk as [Hs|Hin]; [by left|right].
      apply elem_of_cons in Hin as [->|Hin]; [done|exact Hin].
Qed.

(** The weight stored for a signal that occurs is its summed confidence. *)
Lemma tallyResults_weight (results : list AlgorithmResult) (k : string) :
  k ∈ map Signal results ->
  signalWeights (tallyResults results) !! k = Some (confidenceOf k results).
Proof.
  intros Hk. unfold tallyResults.
  destruct (tally_has_key results tally_zero k (or_intror Hk)) as [v Hv].
  pose proof (tally_weight_of results tally_zero k) as Hw.
  rewrite Hv in Hw. cbn in Hw. rewrite Hv. f_equal. exact Hw.
Qed.



Lemma Qsum_nonpos (l : list Q) : Forall (fun x => (x <= 0)%Q) l -> (Qsum l <= 0)%Q.
Proof.
  induction 1 as [|x l Hx _ IH]; [unfold Qsum; cbn; lra|].
  rewrite Qsum_cons. lra.
Qed.

Lemma pickMax_fold_keep (entries : list (string * Q)) (best : string * Q) :
  Forall (fun e => (snd e <= snd best)%Q) entries ->
  fold_left (fun (best : string * Q) (e : string * Q) =>
               if Qltb (snd best) (snd e) then e else best) entries best = best.
Proof.
  induction 1 as [|e entries He _ IH]; [reflexivity|].
  cbn [fold_left]. destruct (Qltb (snd best) (snd e)) eqn:E; [|exact IH].
  apply Qltb_lt in E. lra.
Qed.

(** X24. When no result has a positive confidence, [combineResults] over
    two or more results names no signal at all: the combined signal is the
    empty string, at confidence 0, as a market order without a price. *)
Theorem combineResults_no_confidence `{Runtime W} (symbol : string)
    (results : list AlgorithmResult) (w : W) :
  (2 <= length results)%nat ->
  Forall (fun r0 => (Confidence r0 <= 0)%Q) results ->
  (combineResults symbol results w).1
  = Ok {| Signal := ""; OrderType := "market"; LimitPrice := None; Confidence := 0 |}.
Proof.
  intros Hlen Hall.
  destruct (tallyResults_sums results) as (_ & _ & Ht).
  assert (Htot : Qltb 0 (totalConfidence (tallyResults results)) = false).
  { destruct (Qltb 0 _) eqn:E; [|reflexivity]. apply Qltb_lt in E. rewrite Ht in E.
    assert (Qsum (map Confidence results) <= 0)%Q; [|lra].
    apply Qsum_nonpos, Forall_forall. intros x Hx.
    apply list_elem_of_In, in_map_iff in Hx as (r & <- & Hr).
    rewrite Forall_forall in Hall. apply Hall, list_elem_of_In, Hr. }
  destruct results as [|r1 [|r2 rest]]; [cbn in Hlen; lia..|].
  set (rs := r1 :: r2 :: rest) in *.
  unfold combineResults. fold rs.
  destruct (range_map (normalizedWeights (tallyResults rs)) w) as [entries w'] eqn:Er.
  assert (Hpick : pickMax entries = ("", 0%Q)).
  { apply (pickMax_fold_keep entries ("", 0%Q)), Forall_forall. intros [k v] He. cbn [snd].
    assert (Hin : (k, v) ∈ (range_map (normalizedWeights (tallyResults rs)) w).1)
      by (rewrite Er; exact He).
    apply range_map_elem, elem_of_map_to_list in Hin.
    unfold normalizedWeights in Hin. rewrite Htot in Hin.
    assert (Hk : k ∈ map Signal rs).
    { destruct (tally_keys rs tally_zero k) as [Hs|Hk]; [by eexists| |exact Hk].
      cbn in Hs. rewrite lookup_empty in Hs. by destruct Hs. }
    rewrite (tallyResults_weight rs k Hk) in Hin. injection Hin as <-.
    unfold confidenceOf. apply Qsum_nonpos, Forall_forall. intros x Hx.
    apply list_elem_of_In, in_map_iff in Hx as (r & <- & Hr).
    apply list_elem_of_In, list_elem_of_filter in Hr as [_ Hr].
    rewrite Forall_forall in Hall. by apply Hall. }
  rewrite Hpick. cbn [String.eqb orb andb]. rewrite andb_false_r. reflexivity.
Qed.

Lemma combineResults_no_confidence_witness :
  (combineResults "AAPL"
     [ {| Signal := SignalBuy; OrderType := "market"; LimitPrice := None; Confidence := 0 |};
       {| Signal := SignalSell; OrderType := "limit"; LimitPrice := Some 10%Q;
          Confidence := 0 |} ] 0%nat).1
  = Ok {| Signal := ""; OrderType := "market"; LimitPrice := None; Confidence := 0 |}.
Proof.
  apply (combineResults_no_confidence (W := nat)).
  - cbn. lia.
  - repeat constructor; cbn; lra.
Defined.

(** ** CUSUM filter: one step *)

Lemma cusum_confidence_range (s : Q) :
  (0 <= s)%Q ->
  (1 # 2 <= math_Min (95 # 100) ((5 # 10) + s / 10))%Q
  /\ (math_Min (95 # 100) ((5 # 10) + s / 10) <= 95 # 100)%Q.
Proof.
  intros Hs.
  assert (H0 : (0 <= s / 10)%Q) by (apply Qle_shift_div_l; lra).
  destruct (math_Min_cases (95 # 100) ((5 # 10) + s / 10)) as [[Hle Hm]|[Hle Hm]];
    rewrite Hm; lra.
Qed.

Lemma round_down_cents (x : Q) :
  (math_Floor (x * 100) / 100 <= x)%Q /\ (x < math_Floor (x * 100) / 100 + (1 # 100))%Q.
Proof.
  unfold math_Floor.
  pose proof (Qfloor_le (x * 100)) as Hlo.
  pose proof (Qlt_floor (x * 100)) as Hhi.
  rewrite inject_Z_plus in Hhi. change (inject_Z 1) with 1%Q in Hhi.
  split.
  - apply Qle_shift_div_r; [reflexivity|]. exact Hlo.
  - assert (Heq : (inject_Z (Qfloor (x * 100)) / 100 + (1 # 100)
                   == (inject_Z (Qfloor (x * 100)) + 1) / 100)%Q) by field.
    rewrite Heq. apply Qlt_shift_div_l; [reflexivity|]. exact Hhi.
Qed.


(** ** Meta-labeling: the technical indicators *)

Lemma rsiGainsLosses_spec (prices : list Q) (period : nat) (gains losses : Q) :
  (0 <= gains)%Q -> (0 <= losses)%Q ->
  (0 <= (rsiGainsLosses prices period gains losses).1)%Q
  /\ (0 <= (rsiGainsLosses prices period gains losses).2)%Q
  /\ ((forall i x y, (i < period)%nat -> prices !! i = Some x -> prices !! S i = Some y ->
         (x <= y)%Q) ->
      (rsiGainsLosses prices period gains losses).2 = losses).
Proof.
  revert prices gains losses. induction period as [|period IH]; intros prices gains losses Hg Hl.
  { destruct prices as [|p0 [|p1 rest]]; cbn; auto. }
  destruct prices as [|p0 [|p1 rest]]; [cbn; auto..|].
  cbn [rsiGainsLosses].
  destruct (Qleb 0 (p1 - p0)) eqn:E.
  - apply Qleb_le in E.
    destruct (IH (p1 :: rest) (gains + (p1 - p0))%Q losses ltac:(lra) Hl) as (H1 & H2 & H3).
    split; [exact H1|]. split; [exact H2|].
    intros Hmono. apply H3. intros i x y Hi Hx Hy.
    apply (Hmono (S i) x y); [lia|exact Hx|exact Hy].
  - apply Qleb_gt in E.
    destruct (IH (p1 :: rest) gains (losses - (p1 - p0))%Q Hg ltac:(lra)) as (H1 & H2 & H3).
    split; [exact H1|]. split; [exact H2|].
    intros Hmono. exfalso.
    specialize (Hmono 0%nat p0 p1 ltac:(lia) eq_refl eq_refl). lra.
Qed.

(** X26. For a period of at least 1, [calculateRSI] stays within
    [0, 100]: it is 50 when fewer than [period + 1] prices are given and
    100 when no price of the first [period] steps falls. *)
Theorem calculateRSI_range (prices : list Q) (period : nat) :
  (1 <= period)%nat ->
  (0 <= calculateRSI prices period)%Q /\ (calculateRSI prices period <= 100)%Q
  /\ ((length prices <= period)%nat -> calculateRSI prices period = 50%Q)
  /\ ((period < length prices)%nat ->
      (forall i x y, (i < period)%nat -> prices !! i = Some x -> prices !! S i = Some y ->
         (x <= y)%Q) ->
      calculateRSI prices period = 100%Q).
Proof.
  intros Hp. unfold calculateRSI.
  destruct (length prices <? period + 1)%nat eqn:El.
  { apply Nat.ltb_lt in El. split; [lra|]. split; [lra|]. split; [done|]. lia. }
  apply Nat.ltb_ge in El.
  destruct (rsiGainsLosses_spec prices period 0 0 ltac:(lra) ltac:(lra)) as (Hg & Hl & Hmono).
  destruct (rsiGainsLosses prices period 0 0) as [gains losses]. cbn [fst snd] in *.
  pose proof (float_of_nat_pos period ltac:(lia)) as Hn.
  destruct (Qeqb (losses / float_of_nat period) 0) eqn:Ez.
  { split; [lra|]. split; [lra|]. split; [lia|]. done. }
  assert (Hlz : ~ (losses / float_of_nat period == 0)%Q).
  { intros Hz. apply Qeqb_eq in Hz. congruence. }
  assert (Hal : (0 <= losses / float_of_nat period)%Q)
    by (apply Qle_shift_div_l; [exact Hn|lra]).
  assert (Hag : (0 <= gains / float_of_nat period)%Q)
    by (apply Qle_shift_div_l; [exact Hn|lra]).
  set (avgGain := (gains / float_of_nat period)%Q) in *.
  set (avgLoss := (losses / float_of_nat period)%Q) in *.
  assert (Hal' : (0 < avgLoss)%Q) by lra.
  assert (Hrs : (0 <= avgGain / avgLoss)%Q) by (apply Qle_shift_div_l; [exact Hal'|lra]).
  assert (Hq : (0 < 100 / (1 + avgGain / avgLoss))%Q)
    by (apply Qlt_shift_div_l; lra).
  assert (Hq' : (100 / (1 + avgGain / avgLoss) <= 100)%Q)
    by (apply Qle_shift_div_r; lra).
  split; [lra|]. split; [lra|]. split; [lia|].
  intros _ Hm. exfalso. apply Hlz. subst avgLoss. rewrite (Hmono Hm). 
  unfold Qdiv. ring.
Qed.

Lemma calculateRSI_range_witness :
  (0 <= calculateRSI [10; 11; 10; 12]%Q 3)%Q /\ (calculateRSI [10; 11; 10; 12]%Q 3 <= 100)%Q.
Proof.
  destruct (calculateRSI_range [10; 11; 10; 12]%Q 3 ltac:(lia)) as (H0 & H1 & _).
  split; [exact H0|exact H1].
Defined.

Lemma ema_step_between (lo hi m ema p : Q) :
  (0 <= m)%Q -> (m <= 1)%Q -> (lo <= ema)%Q -> (ema <= hi)%Q -> (lo <= p)%Q -> (p <= hi)%Q ->
  (lo <= (p - ema) * m + ema)%Q /\ ((p - ema) * m + ema <= hi)%Q.
Proof.
  intros Hm0 Hm1 He0 He1 Hp0 Hp1.
  assert (H1 : ((p - ema) * m + ema - lo == m * (p - lo) + (1 - m) * (ema - lo))%Q) by ring.
  assert (H2 : (hi - ((p - ema) * m + ema) == m * (hi - p) + (1 - m) * (hi - ema))%Q) by ring.
  assert (0 <= m * (p - lo))%Q by (apply Qmult_le_0_compat; lra).
  assert (0 <= (1 - m) * (ema - lo))%Q by (apply Qmult_le_0_compat; lra).
  assert (0 <= m * (hi - p))%Q by (apply Qmult_le_0_compat; lra).
  assert (0 <= (1 - m) * (hi - ema))%Q by (apply Qmult_le_0_compat; lra).
  split; lra.
Qed.

Lemma ema_fold_between (lo hi m : Q) (rest : list Q) (ema : Q) :
  (0 <= m)%Q -> (m <= 1)%Q -> (lo <= ema)%Q -> (ema <= hi)%Q ->
  Forall (fun p => (lo <= p)%Q /\ (p <= hi)%Q) rest ->
  (lo <= fold_left (fun ema p => ((p - ema) * m + ema)%Q) rest ema)%Q
  /\ (fold_left (fun ema p => ((p - ema) * m + ema)%Q) rest ema <= hi)%Q.
Proof.
  intros Hm0 Hm1 He0 He1 Hall. revert ema He0 He1.
  induction Hall as [|p rest [Hp0 Hp1] _ IH]; intros ema He0 He1; cbn [fold_left].
  - split; assumption.
  - destruct (ema_step_between lo hi m ema p Hm0 Hm1 He0 He1 Hp0 Hp1) as [H0 H1].
    apply IH; assumption.
Qed.

(** X27. For a nonempty price series and a period of at least 1,
    [calculateEMA] never leaves the range of the prices it is given: any
    bounds that hold for every price hold for the average.  When fewer
    prices than the period are given it is the last price. *)
Theorem calculateEMA_between (prices : list Q) (period : nat) (lo hi : Q) :
  prices <> [] -> (1 <= period)%nat ->
  Forall (fun p => (lo <= p)%Q /\ (p <= hi)%Q) prices ->
  (lo <= calculateEMA prices period)%Q /\ (calculateEMA prices period <= hi)%Q
  /\ ((length prices < period)%nat -> Some (calculateEMA prices period) = last prices).
Proof.
  intros Hne Hp Hall. unfold calculateEMA.
  destruct (length prices <? period)%nat eqn:El.
  - assert (Hlast : exists x, last prices = Some x /\ List.last prices 0%Q = x).
    { clear -Hne. induction prices as [|p [|q prices] IH]; [done|by exists p|].
      destruct IH as (x & Hx & Hx'); [done|]. exists x. split; [exact Hx|exact Hx']. }
    destruct Hlast as (x & Hx & Hx'). rewrite Hx'.
    assert (Hin : x ∈ prices).
    { apply last_Some in Hx as [l' ->]. apply elem_of_app. right. apply list_elem_of_here. }
    rewrite Forall_forall in Hall. destruct (Hall x Hin) as [H0 H1].
    split; [exact H0|]. split; [exact H1|]. intros _. by rewrite Hx.
  - apply Nat.ltb_ge in El.
    destruct prices as [|p0 rest]; [done|].
    apply Forall_cons in Hall as [[H0 H1] Hrest].
    pose proof (float_of_nat_pos (period + 1) ltac:(lia)) as Hn.
    assert (Hn2 : (2 <= float_of_nat (period + 1))%Q).
    { unfold float_of_nat. change 2%Q with (inject_Z 2). rewrite <- Zle_Qle. lia. }
    assert (Hm0 : (0 <= 2 / float_of_nat (period + 1))%Q)
      by (apply Qle_shift_div_l; [exact Hn|lra]).
    assert (Hm1 : (2 / float_of_nat (period + 1) <= 1)%Q)
      by (apply Qle_shift_div_r; [exact Hn|lra]).
    destruct (ema_fold_between lo hi _ rest p0 Hm0 Hm1 H0 H1 Hrest) as [Ha Hb].
    split; [exact Ha|]. split; [exact Hb|]. cbn [length] in *. lia.
Qed.

Lemma calculateEMA_between_witness :
  (10 <= calculateEMA [10; 12; 11]%Q 2)%Q /\ (calculateEMA [10; 12; 11]%Q 2 <= 12)%Q.
Proof.
  destruct (calculateEMA_between [10; 12; 11]%Q 2 10 12) as (H0 & H1 & _).
  - discriminate.
  - lia.
  - repeat constructor; cbn; lra.
  - split; [exact H0|exact H1].
Defined.

(** ** Meta-labeling: the verdict on a primary signal *)

Lemma suggestedSize_range (c : Q) :
  let size := math_Max (1 # 10) (math_Min 1 ((c - (1 - c)) * (5 # 10))) in
  (1 # 10 <= size)%Q /\ (size <= 1)%Q /\ ((c <= 1)%Q -> (size <= 1 # 2)%Q).
Proof.
  cbv zeta.
  destruct (math_Max_cases (1 # 10) (math_Min 1 ((c - (1 - c)) * (5 # 10))))
    as [[Hle Hm]|[Hle Hm]]; rewrite Hm.
  - split; [lra|]. split; [lra|]. intros _. lra.
  - destruct (math_Min_cases 1 ((c - (1 - c)) * (5 # 10))) as [[Hle' Hm']|[Hle' Hm']];
      rewrite Hm' in *.
    + split; [lra|]. split; [lra|]. intros Hc. lra.
    + split; [lra|]. split; [lra|]. intros Hc. lra.
Qed.

(** X28. [applyMetaLabeling] fails only without features or, under the
    simple rules model, with fewer weights than features.  Otherwise it
    confirms the signal exactly when the meta confidence reaches the
    threshold; a rejected signal gets size 0, a confirmed one a size in
    [0.1, 1] that is at most one half whenever the meta confidence is at
    most 1.  The two model types other than the simple rules pass the
    primary confidence through, and an unknown model type gives 0. *)
Theorem applyMetaLabeling_verdict `{Runtime W} (m : MetaLabelingAlgorithm) (signal : string)
    (fs : list Q) (primaryConfidence : Q) :
  match applyMetaLabeling m signal fs primaryConfidence with
  | Err _ =>
      fs = [] \/ (modelType m = ModelTypeSimpleRules
                  /\ (length (weights m) < length fs)%nat)
  | Panic _ => False
  | Ok r =>
      fs <> [] /\ OriginalSignal r = signal
      /\ (MetaLabel r = true <-> (ml_confidenceThreshold m <= ml_Confidence r)%Q)
      /\ (MetaLabel r = false -> SuggestedSize r = 0%Q)
      /\ (MetaLabel r = true ->
          (1 # 10 <= SuggestedSize r)%Q /\ (SuggestedSize r <= 1)%Q
          /\ ((ml_Confidence r <= 1)%Q -> (SuggestedSize r <= 1 # 2)%Q))
      /\ (modelType m = ModelTypeLogisticRegression \/ modelType m = ModelTypeRandomForest ->
          ml_Confidence r = primaryConfidence)
      /\ (modelType m <> ModelTypeSimpleRules -> modelType m <> ModelTypeLogisticRegression ->
          modelType m <> ModelTypeRandomForest -> ml_Confidence r = 0%Q)
  end.
Proof.
  unfold applyMetaLabeling.
  destruct (length fs =? 0)%nat eqn:El.
  { left. apply Nat.eqb_eq in El. by destruct fs. }
  assert (Hfs : fs <> []) by (intros ->; discriminate El).
  assert (Hok : forall c,
            let metaLabel := Qleb (ml_confidenceThreshold m) c in
            let size := if metaLabel
                        then math_Max (1 # 10) (math_Min 1 ((c - (1 - c)) * (5 # 10)))
                        else 0%Q in
            (metaLabel = true <-> (ml_confidenceThreshold m <= c)%Q)
            /\ (metaLabel = false -> size = 0%Q)
            /\ (metaLabel = true ->
                (1 # 10 <= size)%Q /\ (size <= 1)%Q /\ ((c <= 1)%Q -> (size <= 1 # 2)%Q))).
  { intros c. cbv zeta. destruct (Qleb (ml_confidenceThreshold m) c) eqn:E.
    - apply Qleb_le in E. split; [done|]. split; [done|]. intros _.
      apply suggestedSize_range.
    - apply Qleb_gt in E. split; [split; [done|lra]|]. split; done. }
  destruct (String.eqb (modelType m) ModelTypeSimpleRules) eqn:E1.
  { apply String.eqb_eq in E1.
    destruct (length (weights m) <? length fs)%nat eqn:Ew.
    { right. apply Nat.ltb_lt in Ew. done. }
    cbn [OriginalSignal MetaLabel ml_Confidence SuggestedSize].
    destruct (Hok (sigmoid (weightedSum fs (weights m) 0 + bias m))) as (Ha & Hb & Hc).
    split; [exact Hfs|]. split; [reflexivity|]. split; [exact Ha|]. split; [exact Hb|].
    split; [exact Hc|]. rewrite E1. split; [intros [?|?]; discriminate|]. done. }
  apply String.eqb_neq in E1.
  destruct (String.eqb (modelType m) ModelTypeLogisticRegression) eqn:E2;
    [|destruct (String.eqb (modelType m) ModelTypeRandomForest) eqn:E3].
  all: cbn [OriginalSignal MetaLabel ml_Confidence SuggestedSize].
  - destruct (Hok primaryConfidence) as (Ha & Hb & Hc).
    split; [exact Hfs|]. split; [reflexivity|]. split; [exact Ha|]. split; [exact Hb|].
    split; [exact Hc|]. split; [done|]. apply String.eqb_eq in E2. done.
  - destruct (Hok primaryConfidence) as (Ha & Hb & Hc).
    split; [exact Hfs|]. split; [reflexivity|]. split; [exact Ha|]. split; [exact Hb|].
    split; [exact Hc|]. split; [done|]. apply String.eqb_eq in E3. done.
  - destruct (Hok 0%Q) as (Ha & Hb & Hc).
    apply String.eqb_neq in E2, E3.
    split; [exact Hfs|]. split; [reflexivity|]. split; [exact Ha|]. split; [exact Hb|].
    split; [exact Hc|]. split; [intros [?|?]; contradiction|]. done.
Qed.

(** X29. A successful [Configure] of the meta-labeling algorithm leaves
    exactly the feature types that were not switched off, in their fixed
    order (a switch counts as on when it is absent or above 0.5) and at
    least one of them; the threshold is the one given, within [0, 1], or
    0.6, and the model is the simple rules model with its four weights. *)
Theorem MetaLabeling_Configure_features (m m' : MetaLabelingAlgorithm)
    (cfg : AlgorithmConfig) :
  MetaLabelingAlgorithm_Configure m cfg = (None, m') ->
  let params := AdditionalParams cfg in
  let on := fun key => match params !! key with
                       | Some val => Qltb (1 # 2) val
                       | None => true
                       end in
  features m'
  = (if on "use_price_features" then [FeatureTypePrice] else [])
    ++ (if on "use_volume_features" then [FeatureTypeVolume] else [])
    ++ (if on "use_volatility_features" then [FeatureTypeVolatility] else [])
    ++ (if on "use_technical_features" then [FeatureTypeTechnical] else [])
  /\ features m' <> []
  /\ ml_confidenceThreshold m' = default (6 # 10)%Q (params !! "confidence_threshold")
  /\ (0 <= ml_confidenceThreshold m')%Q /\ (ml_confidenceThreshold m' <= 1)%Q
  /\ modelType m' = ModelTypeSimpleRules
  /\ ml_primaryAlgorithm m' = AlgorithmTypeSequentialBootstrap
  /\ weights m' = [2 # 10; 2 # 10; 3 # 10; 3 # 10]%Q /\ bias m' = (- (1 # 10))%Q
  /\ config (ml_base m') = cfg.
Proof.
  unfold MetaLabelingAlgorithm_Configure. cbv zeta.
  configure_branches.
  all: cbn [removeFeature String.eqb Ascii.eqb Bool.eqb length Nat.eqb FeatureTypePrice
            FeatureTypeVolume FeatureTypeVolatility FeatureTypeTechnical error_of].
  all: intros [= <-]; cbn [features ml_confidenceThreshold modelType ml_primaryAlgorithm
                           weights bias ml_base config app].
  all: repeat (split; [first [reflexivity | discriminate
                             | by apply Qle_bool_iff
                             | match goal with
                               | H : Qle_bool ?q 0 = false |- (0 <= ?q)%Q =>
                                   apply Qleb_gt in H; lra
                               | H : Qle_bool 1 ?q = true |- (?q <= 1)%Q => idtac
                               end
                             | lra ]|]).
  all: try reflexivity.
Qed.

Lemma MetaLabeling_Configure_features_witness :
  let cfg := configWith {[ "use_price_features" := 0%Q ]} in
  exists m',
    MetaLabelingAlgorithm_Configure MetaLabelingAlgorithm_zero cfg = (None, m')
    /\ features m' = [FeatureTypeVolume; FeatureTypeVolatility; FeatureTypeTechnical].
Proof.
  intros cfg.
  destruct (MetaLabelingAlgorithm_Configure MetaLabelingAlgorithm_zero cfg) as [err m'] eqn:E.
  assert (Herr : err = None) by (vm_compute in E; congruence).
  subst err. exists m'. split; [reflexivity|].
  destruct (MetaLabeling_Configure_features MetaLabelingAlgorithm_zero m' cfg E) as [Hf _].
  rewrite Hf. vm_compute. reflexivity.
Defined.

(** ** Triple barrier: the signal of one step *)

Lemma DailyVolatility_Ok_length `{Runtime W} (prices : list Q) (span : Z) (vol : Q) :
  DailyVolatility prices span = Ok vol -> (2 <= length prices)%nat /\ (1 <= span)%Z.
Proof.
  unfold DailyVolatility.
  destruct (length prices <? 2)%nat eqn:El; [discriminate|].
  destruct (span <? 1)%Z eqn:Es; [discriminate|].
  intros _. apply Nat.ltb_ge in El. lia.
Qed.

(** The result of the last entry point: its walk only sees the last price. *)
Lemma barrierAt_last_entry (prices : list Q) (times : list Time) (volatility : Q)
    (cfg : TripleBarrierConfig) (n' : nat) :
  length prices = S (S n') -> (1 <= TimeHorizon cfg)%Z ->
  let price := fun j => default 0%Q (prices !! j) in
  let a := price n' in
  let b := price (S n') in
  let upper := (a * (1 + ProfitTaking cfg * volatility))%Q in
  let lower := (a * (1 - StopLoss cfg * volatility))%Q in
  let upward := Qltb 0 (if (0 <? n')%nat then a - price (n' - 1)%nat else 0) in
  Label (barrierAt prices times volatility cfg n')
  = if Qleb upper b then (if upward then BarrierLabelBuy else BarrierLabelSell)
    else if Qleb b lower then (if upward then BarrierLabelSell else BarrierLabelBuy)
    else if Qltb a b then BarrierLabelBuy
    else if Qltb b a then BarrierLabelSell else BarrierLabelHold.
Proof.
  intros Hlen Hth. cbv zeta. unfold barrierAt. rewrite Hlen.
  replace (Z.min (Z.of_nat n' + TimeHorizon cfg) (Z.of_nat (S (S n')) - 1))
    with (Z.of_nat (S n')) by lia.
  replace (Z.to_nat (Z.of_nat (S n') - Z.of_nat n')) with 1%nat by lia.
  rewrite Nat2Z.id. replace (n' + 1)%nat with (S n') by lia.
  cbn [seq barrierWalk].
  set (trend := if (0 <? n')%nat then _ else _).
  destruct (Qleb _ (default 0%Q (prices !! S n'))) eqn:Eu.
  { destruct (Qltb 0 trend); [reflexivity|]. destruct (Qltb trend 0); reflexivity. }
  destruct (Qleb (default 0%Q (prices !! S n')) _) eqn:El.
  { destruct (Qltb 0 trend); [reflexivity|]. destruct (Qltb trend 0); reflexivity. }
  rewrite Nat.eqb_refl. reflexivity.
Qed.

(** X30. One step of the triple barrier algorithm, once the volatility
    estimate is positive and the horizon at least 1, decides from the last
    three prices alone, through the result of the last entry point (the
    bar before the last).  If the last price reaches that bar's upper
    barrier the signal is buy when the bar followed an up-move and sell
    otherwise; if it reaches the lower barrier, the other way round; else
    the signal is the direction of the last move.  Buy and sell are market
    orders at confidence 0.7, hold has order type none at 0.5; the
    algorithm itself is left as it was. *)
Theorem TripleBarrier_Process_signal `{Runtime W} (t : TripleBarrierAlgorithm)
    (symbol : string) (currentData : option MarketData)
    (historicalData : list MarketData) (w : W) (vol : Q) :
  let prices := map Price historicalData in
  let n := length historicalData in
  let price := fun j => default 0%Q (prices !! j) in
  let a := price (n - 2)%nat in
  let b := price (n - 1)%nat in
  let upper := (a * (1 + ProfitTaking (tb_config t) * vol))%Q in
  let lower := (a * (1 - StopLoss (tb_config t) * vol))%Q in
  let upward := Qltb 0 (if (2 <? n)%nat then a - price (n - 3)%nat else 0) in
  (volatilityWindow t <= Z.of_nat n)%Z ->
  DailyVolatility prices (volatilityWindow t) = Ok vol -> (0 < vol)%Q ->
  (1 <= TimeHorizon (tb_config t))%Z ->
  exists r,
    (TripleBarrierAlgorithm_Process t symbol currentData historicalData w).1
    = (Ok r, t)
    /\ LimitPrice r = None
    /\ ((upper <= b)%Q -> Signal r = if upward then "buy" else "sell")
    /\ ((b < upper)%Q -> (b <= lower)%Q -> Signal r = if upward then "sell" else "buy")
    /\ ((b < upper)%Q -> (lower < b)%Q ->
        Signal r = if Qltb a b then "buy" else if Qltb b a then "sell" else "hold")
    /\ ((Signal r = "hold" /\ OrderType r = "none" /\ Confidence r = (5 # 10)%Q)
        \/ ((Signal r = "buy" \/ Signal r = "sell")
            /\ OrderType r = "market" /\ Confidence r = (7 # 10)%Q)).
Proof.
  cbv beta zeta. intros Hwin Hvol Hpos Hth.
  destruct (DailyVolatility_Ok_length _ _ _ Hvol) as [Hlen _].
  rewrite length_map in Hlen.
  destruct (length historicalData) as [|[|n']] eqn:Hn; [lia..|].
  unfold TripleBarrierAlgorithm_Process. rewrite Hn.
  destruct (Z.of_nat (S (S n')) <? volatilityWindow t)%Z eqn:Ew; [apply Z.ltb_lt in Ew; lia|].
  destruct (time_Now w) as [now w']. rewrite Hvol.
  unfold ApplyTripleBarrier. rewrite !length_map, length_seq, Hn, Nat.eqb_refl.
  cbn [Nat.ltb Nat.leb negb].
  assert (Ev : Qleb vol 0 = false).
  { destruct (Qleb vol 0) eqn:E; [|reflexivity]. apply Qleb_le in E. lra. }
  rewrite Ev.
  set (times := map _ (seq 0 (S (S n')))).
  replace (S (S n') - 1)%nat with (S n') by lia.
  rewrite (seq_S n' 0), !map_app. cbn [map Nat.add]. rewrite last_last.
  pose proof (barrierAt_last_entry (map Price historicalData) times vol (tb_config t) n'
                ltac:(rewrite length_map; exact Hn) Hth) as Hlab.
  cbv beta zeta in Hlab.
  replace (S (S n') - 2)%nat with n' by lia.
  replace (S (S n') - 1)%nat with (S n') by lia.
  replace (S (S n') - 3)%nat with (n' - 1)%nat by lia.
  replace (2 <? S (S n'))%nat with (0 <? n')%nat
    by (destruct n'; reflexivity).
  set (a := default 0%Q (map Price historicalData !! n')) in *.
  set (b := default 0%Q (map Price historicalData !! S n')) in *.
  set (upper := (a * (1 + ProfitTaking (tb_config t) * vol))%Q) in *.
  set (lower := (a * (1 - StopLoss (tb_config t) * vol))%Q) in *.
  set (upward := Qltb 0 _) in *.
  rewrite Hlab. clear Hlab.
  destruct (Qleb upper b) eqn:Eu; [|destruct (Qleb b lower) eqn:El].
  - apply Qleb_le in Eu.
    destruct upward; cbn [Z.eqb BarrierLabelBuy BarrierLabelSell Pos.eqb fst];
      eexists; (split; [reflexivity|]);
      cbn [Signal OrderType LimitPrice Confidence];
      (split; [reflexivity|]); (split; [reflexivity|]);
      (split; [intros; lra|]); (split; [intros; lra|]); right; auto.
  - apply Qleb_gt in Eu. apply Qleb_le in El.
    destruct upward; cbn [Z.eqb BarrierLabelBuy BarrierLabelSell Pos.eqb fst];
      eexists; (split; [reflexivity|]);
      cbn [Signal OrderType LimitPrice Confidence];
      (split; [reflexivity|]); (split; [intros; lra|]);
      (split; [reflexivity|]); (split; [intros; lra|]); right; auto.
  - apply Qleb_gt in Eu, El.
    destruct (Qltb a b); [|destruct (Qltb b a)];
      cbn [Z.eqb BarrierLabelBuy BarrierLabelSell BarrierLabelHold Pos.eqb fst];
      eexists; (split; [reflexivity|]);
      cbn [Signal OrderType LimitPrice Confidence];
      (split; [reflexivity|]); (split; [intros; lra|]);
      (split; [intros; lra|]); (split; [reflexivity|]); auto.
Qed.

Lemma TripleBarrier_Process_signal_witness :
  let t := {| tb_base := BaseAlgorithm_zero;
              tb_config := {| ProfitTaking := 2; StopLoss := 1; TimeHorizon := 5;
                              VolatilityLookback := 2 |};
              profitTaking := 2; stopLoss := 1; timeHorizon := 5;
              volatilityWindow := 2 |} in
  let hist := [bar 100; bar 110; bar 100] in
  exists r,
    (TripleBarrierAlgorithm_Process t "X" None hist 0%nat).1 = (Ok r, t)
    /\ LimitPrice r = None.
Proof.
  intros t hist.
  destruct (DailyVolatility (W := nat) (map Price hist) (volatilityWindow t))
    as [vol|e|e] eqn:E; [|vm_compute in E; discriminate E..].
  assert (Hpos : (0 < vol)%Q) by (vm_compute in E; injection E as <-; reflexivity).
  destruct (TripleBarrier_Process_signal (W := nat) t "X" None hist 0%nat vol
              ltac:(cbn; lia) E Hpos ltac:(cbn; lia)) as (r & Hr & Hl & _).
  exists r. split; [exact Hr|exact Hl].
Defined.
